(** * Recurrence engine of the task scheduler (main.go)

    A shallow embedding of [NextDate] and of the date normalisation that
    [addTaskHandler] and [updateTaskHandler] apply to a task, of the
    handlers that read and write the table of tasks, together with
    the parts of Go's [time], [fmt], [strings], [strconv] and [unicode/utf8]
    packages they call.  Go strings are byte strings ([string]), Go [int]s
    are [Z], a [time.Time] is kept as the civil date that
    [Format("20060102")] shows. *)

From Stdlib Require Import ZArith List Bool Ascii String Lia Permutation.
Import ListNotations.

Open Scope string_scope.
Open Scope Z_scope.

(** ** Bytes and results *)

Definition byte_val (c : ascii) : Z := Z.of_N (N_of_ascii c).
Definition byte_chr (n : Z) : ascii := ascii_of_N (Z.to_N n).

(** A Go call returning [(value, error)]. *)
Inductive result (E A : Type) : Type :=
| Ok (a : A)
| Err (e : E).
Arguments Ok {E A} a.
Arguments Err {E A} e.

Definition bind {E A B} (r : result E A) (k : A -> result E B) : result E B :=
  match r with
  | Ok a => k a
  | Err e => Err e
  end.

Notation "x <- c1 ;; c2" := (bind c1 (fun x => c2))
  (at level 61, c1 at next level, right associativity).
Notation "' pat <- c1 ;; c2" := (bind c1 (fun x => match x with pat => c2 end))
  (at level 61, pat pattern, c1 at next level, right associativity).

(** ** Package time: civil dates *)

Module time.

(** The calendar day of a [time.Time]; the clock and the location play no
    role in [Format("20060102")] beyond fixing that day. *)
Record Time : Type := mkTime { Year : Z; Month : Z; Day : Z }.

Definition isLeap (year : Z) : bool :=
  (year mod 4 =? 0) && (negb (year mod 100 =? 0) || (year mod 400 =? 0)).

(** [daysBefore[m]] counts the days of a non-leap year before month [m+1]. *)
Definition daysBefore : list Z :=
  [0; 31; 59; 90; 120; 151; 181; 212; 243; 273; 304; 334; 365].

Definition daysIn (m year : Z) : Z :=
  if (m =? 2) && isLeap year then 29
  else nth (Z.to_nat m) daysBefore 0 - nth (Z.to_nat (m - 1)) daysBefore 0.

(** The day after, and the day before, a civil date. *)
Definition next_day (t : Time) : Time :=
  if Day t <? daysIn (Month t) (Year t) then mkTime (Year t) (Month t) (Day t + 1)
  else if Month t <? 12 then mkTime (Year t) (Month t + 1) 1
  else mkTime (Year t + 1) 1 1.

Definition prev_day (t : Time) : Time :=
  if 1 <? Day t then mkTime (Year t) (Month t) (Day t - 1)
  else if 1 <? Month t then mkTime (Year t) (Month t - 1) (daysIn (Month t - 1) (Year t))
  else mkTime (Year t - 1) 12 31.

(** [time.Date]: month and day may lie outside their usual ranges and are
    normalised, the month overflowing into the year and the day into the
    following (or preceding) months: October 32 is November 1. *)
Definition Date (year month day : Z) : Time :=
  let m := month - 1 in
  let first := mkTime (year + m / 12) (m mod 12 + 1) 1 in
  if 1 <=? day then Z.iter (day - 1) next_day first
  else Z.iter (1 - day) prev_day first.

Definition AddDate (t : Time) (years months days : Z) : Time :=
  Date (Year t + years) (Month t + months) (Day t + days).

(** A date that exists in the calendar. *)
Definition valid (t : Time) : Prop :=
  1 <= Month t <= 12 /\ 1 <= Day t <= daysIn (Month t) (Year t).

Definition validb (t : Time) : bool :=
  (1 <=? Month t) && (Month t <=? 12) && (1 <=? Day t)
  && (Day t <=? daysIn (Month t) (Year t)).

(** Chronological comparison: year, then month, then day. *)
Definition Compare (t u : Time) : comparison :=
  match Year t ?= Year u with
  | Eq => match Month t ?= Month u with
          | Eq => Day t ?= Day u
          | c => c
          end
  | c => c
  end.

Definition Before (t u : Time) : Prop := Compare t u = Lt.
Definition NotAfter (t u : Time) : Prop := Compare t u <> Gt.

(** *** Formatting with the layout "20060102" *)

Definition digit (n : Z) : ascii := byte_chr (48 + n).

Fixpoint zeros (n : nat) : string :=
  match n with
  | O => ""
  | S n' => String "0" (zeros n')
  end.

(** The decimal digits of [u >= 0], assembled from the last one. *)
Fixpoint fmt_uint (fuel : nat) (u : Z) (acc : string) : string :=
  match fuel with
  | O => acc
  | S fuel' =>
      let q := u / 10 in
      let acc' := String (digit (u - q * 10)) acc in
      if 10 <=? u then fmt_uint fuel' q acc' else acc'
  end.

Definition decimal (u : Z) : string :=
  fmt_uint (S (Z.to_nat (Z.log2 u))) u "".

(** [appendInt]: the decimal form of [x], zero-padded to [width]; a wider
    number keeps all its digits. *)
Definition appendInt (x width : Z) : string :=
  let ds := decimal (Z.abs x) in
  (if x <? 0 then "-" else "")
  ++ zeros (Z.to_nat (width - Z.of_nat (String.length ds))) ++ ds.

(** [t.Format(dateFormat)] with [dateFormat = "20060102"]. *)
Definition Format (t : Time) : string :=
  appendInt (Year t) 4 ++ appendInt (Month t) 2 ++ appendInt (Day t) 2.

(** *** Parsing with the layout "20060102" *)

Definition isDigit (s : string) (i : nat) : bool :=
  match String.get i s with
  | Some c => (48 <=? byte_val c) && (byte_val c <=? 57)
  | None => false
  end.

Definition digit_at (s : string) (i : nat) : Z :=
  match String.get i s with
  | Some c => byte_val c - 48
  | None => 0
  end.

(** [getnum(s, true)]: exactly two digits. *)
Definition getnum_fixed (s : string) : option (Z * string) :=
  if negb (isDigit s 0) then None
  else if negb (isDigit s 1) then None
  else Some (digit_at s 0 * 10 + digit_at s 1,
             String.substring 2 (String.length s - 2) s).

(** The four-digit year of the layout element "2006". *)
Definition getyear (s : string) : option (Z * string) :=
  if (String.length s <? 4)%nat || negb (isDigit s 0) then None
  else if isDigit s 1 && isDigit s 2 && isDigit s 3 then
    Some (((digit_at s 0 * 10 + digit_at s 1) * 10 + digit_at s 2) * 10 + digit_at s 3,
          String.substring 4 (String.length s - 4) s)
  else None.

(** [time.Parse(dateFormat, value)]; [None] stands for a non-nil error. *)
Definition Parse (value : string) : option Time :=
  match getyear value with
  | None => None
  | Some (year, value) =>
    match getnum_fixed value with
    | None => None
    | Some (month, value) =>
      if (month <=? 0) || (12 <? month) then None
      else
        match getnum_fixed value with
        | None => None
        | Some (day, value) =>
          if negb (String.length value =? 0)%nat then None
          else if (day <? 1) || (daysIn month year <? day) then None
          else Some (Date year month day)
        end
    end
  end.

End time.

(** ** Package unicode/utf8 *)

Module utf8.

(** A rune is a Unicode code point, an [int32] in Go. *)
Abbreviation rune := Z (only parsing).
Definition RuneError : rune := 65533.

(** The table [first] joined with [acceptRanges]: for a leading byte, the
    length of the encoding and the range allowed for the second byte. *)
Definition first (s0 : Z) : option (Z * Z * Z) :=
  if s0 <? 194 then None
  else if s0 <=? 223 then Some (2, 128, 191)
  else if s0 =? 224 then Some (3, 160, 191)
  else if s0 <=? 236 then Some (3, 128, 191)
  else if s0 =? 237 then Some (3, 128, 159)
  else if s0 <=? 239 then Some (3, 128, 191)
  else if s0 =? 240 then Some (4, 144, 191)
  else if s0 <=? 243 then Some (4, 128, 191)
  else if s0 =? 244 then Some (4, 128, 143)
  else None.

Definition cont (b : Z) : bool := (128 <=? b) && (b <=? 191).

(** The runes that reading a byte string yields, one [DecodeRune] after the
    other; a byte that starts no valid encoding reads as [RuneError] and
    has width 1. *)
Fixpoint decode (s : list Z) : list rune :=
  match s with
  | [] => []
  | s0 :: t0 =>
    if s0 <? 128 then s0 :: decode t0
    else
      match first s0 with
      | None => RuneError :: decode t0
      | Some (sz, lo, hi) =>
        match t0 with
        | [] => [RuneError]
        | s1 :: t1 =>
          if (Z.of_nat (List.length s) <? sz) || (s1 <? lo) || (hi <? s1)
          then RuneError :: decode t0
          else if sz <=? 2
          then Z.lor (Z.shiftl (Z.land s0 31) 6) (Z.land s1 63) :: decode t1
          else
            match t1 with
            | [] => RuneError :: decode t0
            | s2 :: t2 =>
              if negb (cont s2) then RuneError :: decode t0
              else if sz <=? 3
              then Z.lor (Z.lor (Z.shiftl (Z.land s0 15) 12)
                                (Z.shiftl (Z.land s1 63) 6))
                         (Z.land s2 63) :: decode t2
              else
                match t2 with
                | [] => RuneError :: decode t0
                | s3 :: t3 =>
                  if negb (cont s3) then RuneError :: decode t0
                  else Z.lor (Z.lor (Z.lor (Z.shiftl (Z.land s0 7) 18)
                                           (Z.shiftl (Z.land s1 63) 12))
                                    (Z.shiftl (Z.land s2 63) 6))
                             (Z.land s3 63) :: decode t3
                end
            end
        end
      end
  end.

(** [AppendRune] to an empty buffer. *)
Definition encode (r : rune) : list Z :=
  if (0 <=? r) && (r <=? 127) then [r]
  else if (0 <=? r) && (r <=? 2047) then
    [Z.lor 192 (Z.shiftr r 6); Z.lor 128 (Z.land r 63)]
  else
    let r3 := if (r <? 0) || (1114111 <? r) || ((55296 <=? r) && (r <=? 57343))
              then RuneError else r in
    if r3 <=? 65535 then
      [Z.lor 224 (Z.shiftr r3 12); Z.lor 128 (Z.land (Z.shiftr r3 6) 63);
       Z.lor 128 (Z.land r3 63)]
    else
      [Z.lor 240 (Z.shiftr r3 18); Z.lor 128 (Z.land (Z.shiftr r3 12) 63);
       Z.lor 128 (Z.land (Z.shiftr r3 6) 63); Z.lor 128 (Z.land r3 63)].

Definition bytes (s : string) : list Z := map byte_val (list_ascii_of_string s).
Definition of_bytes (l : list Z) : string := string_of_list_ascii (map byte_chr l).

Definition runes (s : string) : list rune := decode (bytes s).
Definition of_runes (rs : list rune) : string := of_bytes (flat_map encode rs).

End utf8.

(** ** Package strconv *)

Module strconv.

Definition is_digit (c : ascii) : bool := (48 <=? byte_val c) && (byte_val c <=? 57).

(** The value of a run of decimal digits, most significant first. *)
Fixpoint digits_value (acc : Z) (s : string) : Z :=
  match s with
  | "" => acc
  | String c s' => digits_value (acc * 10 + (byte_val c - 48)) s'
  end.

Fixpoint all_digits (s : string) : bool :=
  match s with
  | "" => true
  | String c s' => is_digit c && all_digits s'
  end.

(** [ParseUint(s, 10, 64)]. *)
Definition ParseUint (s : string) : result string Z :=
  match s with
  | "" => Err "invalid syntax"
  | _ =>
    if negb (all_digits s) then Err "invalid syntax"
    else
      let un := digits_value 0 s in
      if 18446744073709551615 <? un then Err "value out of range" else Ok un
  end.

(** [ParseInt(s, 10, 64)]. *)
Definition ParseInt (s : string) : result string Z :=
  match s with
  | "" => Err "invalid syntax"
  | String c s' =>
    let neg := Ascii.eqb c "-" in
    let s1 := if Ascii.eqb c "+" || neg then s' else s in
    un <- ParseUint s1;;
    if negb neg && (9223372036854775808 <=? un) then Err "value out of range"
    else if neg && (9223372036854775808 <? un) then Err "value out of range"
    else Ok (if neg then - un else un)
  end.

(** [Atoi(s)] is [ParseInt(s, 10, 0)] converted to [int] (64 bits), which
    its fast path for short strings computes directly. *)
Definition Atoi (s : string) : result string Z := ParseInt s.

(** [Itoa(n)]. *)
Definition Itoa (n : Z) : string :=
  String.append (if n <? 0 then "-" else "") (time.decimal (Z.abs n)).

(** [FormatInt(i, 10)], which [Itoa] calls. *)
Definition FormatInt (i : Z) : string := Itoa i.

End strconv.

(** ** Package strings *)

Module strings.

Definition HasPrefix (s prefix : string) : bool := String.prefix prefix s.

(** [Split(s, sep)] for a separator of one byte: the pieces between the
    separators, [Count(s, sep) + 1] of them. *)
Fixpoint Split (s : string) (sep : ascii) : list string :=
  match s with
  | "" => [""]
  | String c s' =>
    if Ascii.eqb c sep then "" :: Split s' sep
    else
      match Split s' sep with
      | piece :: rest => String c piece :: rest
      | [] => [String c ""]
      end
  end.

(** [Join(elems, sep)]. *)
Definition Join (elems : list string) (sep : string) : string :=
  String.concat sep elems.

End strings.

(** ** Package fmt: scanning *)

Module fmt.

Import utf8.

(** The white space of the scanner. *)
Definition space : list (Z * Z) :=
  [(9, 13); (32, 32); (133, 133); (160, 160); (5760, 5760); (8192, 8202);
   (8232, 8233); (8239, 8239); (8287, 8287); (12288, 12288)].

Fixpoint in_ranges (rx : Z) (rngs : list (Z * Z)) : bool :=
  match rngs with
  | [] => false
  | (lo, hi) :: rest =>
    if rx <? lo then false
    else if rx <=? hi then true
    else in_ranges rx rest
  end.

Definition isSpace (r : rune) : bool :=
  if 65536 <=? r then false else in_ranges r space.

Definition notSpace (r : rune) : bool := negb (isSpace r).

(** The scanner state is the input still to be read; [UnreadRune] is
    rendered by handing back the list before the read. *)
Definition scan (A : Type) : Type := result string A.

(** [peek("\n")]. *)
Definition peek_newline (rs : list rune) : bool :=
  match rs with
  | r :: _ => r =? 10
  | [] => false
  end.

(** [SkipSpace] of [Sscanf], for which a newline is not a space. *)
Fixpoint SkipSpace (rs : list rune) : scan (list rune) :=
  match rs with
  | [] => Ok []
  | r :: rest =>
    if (r =? 13) && peek_newline rest then SkipSpace rest
    else if r =? 10 then Err "unexpected newline"
    else if negb (isSpace r) then Ok rs
    else SkipSpace rest
  end.

Definition notEOF (rs : list rune) : scan unit :=
  match rs with
  | [] => Err "EOF"
  | _ => Ok tt
  end.

(** [advance] on a literal character of the format. *)
Definition literal (c : rune) (rs : list rune) : scan (list rune) :=
  match rs with
  | [] => Err "unexpected EOF"
  | r :: rest => if r =? c then Ok rest else Err "input does not match format"
  end.

Fixpoint skip_blanks (rs : list rune) : list rune :=
  match rs with
  | [] => []
  | r :: rest => if isSpace r && negb (r =? 10) then skip_blanks rest else rs
  end.

(** [advance] on a single space of the format: one or more spaces of the
    input, or its end. *)
Definition format_space (rs : list rune) : scan (list rune) :=
  match rs with
  | [] => Ok []
  | r :: rest =>
    if negb (isSpace r) then Err "expected space in input to match format"
    else if r =? 10 then Err "newline in input does not match format"
    else Ok (skip_blanks rest)
  end.

(** [accept(ok)]: the next rune when it is one of [ok]. *)
Definition accept (ok : list rune) (rs : list rune) : option (rune * list rune) :=
  match rs with
  | r :: rest => if existsb (Z.eqb r) ok then Some (r, rest) else None
  | [] => None
  end.

(** [for s.accept(ok) {}]: the run accepted and the input after it. *)
Fixpoint accept_all (ok : list rune) (rs : list rune) : list rune * list rune :=
  match rs with
  | r :: rest =>
    if existsb (Z.eqb r) ok then
      let (tok, rest') := accept_all ok rest in (r :: tok, rest')
    else ([], rs)
  | [] => ([], [])
  end.

Definition sign : list rune := [43; 45].
Definition decimalDigits : list rune := [48; 49; 50; 51; 52; 53; 54; 55; 56; 57].

(** [scanNumber(digits, false)], after the sign already in the buffer. *)
Definition scanNumber (buf : list rune) (rs : list rune) : scan (list rune * list rune) :=
  _ <- notEOF rs;;
  match accept decimalDigits rs with
  | None => Err "expected integer"
  | Some (r, rest) =>
    let (tok, rest') := accept_all decimalDigits rest in
    Ok (buf ++ r :: tok, rest')%list
  end.

(** [scanInt('d', 64)]. *)
Definition scanInt (rs : list rune) : scan (Z * list rune) :=
  rs <- SkipSpace rs;;
  _ <- notEOF rs;;
  let (buf, rs) := match accept sign rs with
                   | Some (r, rest) => ([r], rest)
                   | None => ([], rs)
                   end in
  '(tok, rs) <- scanNumber buf rs;;
  i <- strconv.ParseInt (of_runes tok);;
  Ok (i, rs).

(** [token(true, notSpace)]. *)
Fixpoint read_while (f : rune -> bool) (rs : list rune) : list rune * list rune :=
  match rs with
  | r :: rest =>
    if f r then let (tok, rest') := read_while f rest in (r :: tok, rest')
    else ([], rs)
  | [] => ([], [])
  end.

Definition token (rs : list rune) : scan (list rune * list rune) :=
  rs <- SkipSpace rs;;
  Ok (read_while notSpace rs).

(** [convertString('s')]. *)
Definition convertString (rs : list rune) : scan (string * list rune) :=
  rs <- SkipSpace rs;;
  _ <- notEOF rs;;
  '(tok, rs) <- token rs;;
  Ok (of_runes tok, rs).

(** [Sscanf(str, "d %d", &days)]: the literal, the space, then the verb,
    before which [doScanf] skips spaces. Input left over is not an error. *)
Definition Sscanf_d (str : string) : scan Z :=
  rs <- literal 100 (runes str);;
  rs <- format_space rs;;
  rs <- SkipSpace rs;;
  '(days, _) <- scanInt rs;;
  Ok days.

(** [Sscanf(str, "w %s", &daysOfWeek)]. *)
Definition Sscanf_w (str : string) : scan string :=
  rs <- literal 119 (runes str);;
  rs <- format_space rs;;
  rs <- SkipSpace rs;;
  '(daysOfWeek, _) <- convertString rs;;
  Ok daysOfWeek.

End fmt.

(** ** main.go *)

Module main.

(** The four errors of [NextDate], told apart by their message:
    "invalid date format: ...", "repeat rule is empty",
    "invalid repeat rule: ..." and "unsupported repeat rule: ...". *)
Inductive error : Type :=
| InvalidDateFormat
| EmptyRule
| InvalidRepeatCount
| UnsupportedRule.

(** [for d.Format(dateFormat) <= now.Format(dateFormat) { d = step(d) }]:
    the date the loop leaves in [d], [None] when [fuel] iterations do not
    reach the exit. *)
Fixpoint advance (fuel : nat) (step : time.Time -> time.Time)
    (now d : time.Time) : option time.Time :=
  match fuel with
  | O => None
  | S fuel' =>
    if String.leb (time.Format d) (time.Format now)
    then advance fuel' step now (step d)
    else Some d
  end.

(** The range loop over the weekday tokens. *)
Fixpoint check_days (days : list string) : bool :=
  match days with
  | [] => true
  | day :: rest =>
    match strconv.Atoi day with
    | Err _ => false
    | Ok dayInt => if (dayInt <? 1) || (dayInt >? 7) then false else check_days rest
    end
  end.

Definition NextDate (fuel : nat) (now : time.Time) (date repeat : string)
  : option (result error string) :=
  match time.Parse date with
  | None => Some (Err InvalidDateFormat)
  | Some d =>
    if String.eqb repeat "" then Some (Err EmptyRule)
    else if String.eqb repeat "y" then
      let step := fun d => time.AddDate d 1 0 0 in
      option_map (fun d => Ok (time.Format d)) (advance fuel step now (step d))
    else if strings.HasPrefix repeat "d " then
      match fmt.Sscanf_d repeat with
      | Err _ => Some (Err InvalidRepeatCount)
      | Ok days =>
        if (days <=? 0) || (days >? 400) then Some (Err InvalidRepeatCount)
        else
          let step := fun d => time.AddDate d 0 0 days in
          option_map (fun d => Ok (time.Format d)) (advance fuel step now (step d))
      end
    else if strings.HasPrefix repeat "w " then
      match fmt.Sscanf_w repeat with
      | Err _ => Some (Err InvalidRepeatCount)
      | Ok daysOfWeek =>
        if negb (check_days (strings.Split daysOfWeek ",")) then Some (Err InvalidRepeatCount)
        else
          let step := fun d => time.AddDate d 0 0 1 in
          option_map (fun d => Ok (time.Format d)) (advance fuel step now (step d))
      end
    else Some (Err UnsupportedRule)
  end.

(** [err.Error()] for an error of [NextDate]; the detail that [time.Parse]
    appends to the first message is left out. *)
Definition Error (e : error) (repeat : string) : string :=
  match e with
  | InvalidDateFormat => "invalid date format: "
  | EmptyRule => "repeat rule is empty"
  | InvalidRepeatCount => String.append "invalid repeat rule: " repeat
  | UnsupportedRule => String.append "unsupported repeat rule: " repeat
  end.

Record Task : Type := mkTask {
  ID : Z;
  Date : string;
  Title : string;
  Comment : string;
  Repeat : string
}.

Definition with_Date (task : Task) (date : string) : Task :=
  mkTask (ID task) date (Title task) (Comment task) (Repeat task).

(** What a handler answers with: [http.Error] with the message of its JSON
    body and its status, or the JSON body it encodes. *)
Inductive response : Type :=
| HttpError (msg : string) (status : Z)
| JsonId (id : Z)
| JsonEmpty
| JsonNextDate (next_date : string).

(** The date block of [addTaskHandler] (lines 154-175), from [now] and the
    decoded task to the task that is inserted. *)
Definition addTask_date (fuel : nat) (now : time.Time) (task : Task)
  : option (result response Task) :=
  if String.eqb (Date task) "" then Some (Ok (with_Date task (time.Format now)))
  else
    match time.Parse (Date task) with
    | None => Some (Err (HttpError "Invalid date format" 400))
    | Some parsedDate =>
      if String.ltb (time.Format parsedDate) (time.Format now) then
        if String.eqb (Repeat task) "" then Some (Ok (with_Date task (time.Format now)))
        else
          match NextDate fuel now (Date task) (Repeat task) with
          | None => None
          | Some (Err e) =>
              Some (Err (HttpError (String.append "Invalid repeat rule: "
                                      (Error e (Repeat task))) 400))
          | Some (Ok nextDate) => Some (Ok (with_Date task nextDate))
          end
      else Some (Ok task)
    end.

(** The same block of [updateTaskHandler] (lines 283-304). *)
Definition updateTask_date (fuel : nat) (now : time.Time) (task : Task)
  : option (result response Task) :=
  if String.eqb (Date task) "" then Some (Ok (with_Date task (time.Format now)))
  else
    match time.Parse (Date task) with
    | None => Some (Err (HttpError "Invalid date format" 400))
    | Some parsedDate =>
      if String.ltb (time.Format parsedDate) (time.Format now) then
        if String.eqb (Repeat task) "" then Some (Ok (with_Date task (time.Format now)))
        else
          match NextDate fuel now (Date task) (Repeat task) with
          | None => None
          | Some (Err e) =>
              Some (Err (HttpError (String.append "Invalid repeat rule: "
                                      (Error e (Repeat task))) 400))
          | Some (Ok nextDate) => Some (Ok (with_Date task nextDate))
          end
      else Some (Ok task)
    end.

(** The table [scheduler]: its rows and the last id AUTOINCREMENT gave. *)
Record DB : Type := mkDB { rows : list Task; lastID : Z }.

(** What the database driver reports on the calls of one request. Every
    call of [database/sql] returns an error value that the handlers test;
    [None] is the nil error. *)
Record driver : Type := mkDriver {
  (** [db.Exec]: the statement fails and changes nothing. *)
  exec_error : option string;
  (** [res.LastInsertId()] and [res.RowsAffected()], after the statement
      has run. *)
  result_error : option string;
  (** [db.Query], and [db.QueryRow], which keeps the error for [Scan]. *)
  query_error : option string;
  (** [Scan] of the row of this index. *)
  scan_error : nat -> option string;
  (** [rows.Next()] ends the iteration after this many rows, on an error
      that only [rows.Err()] would show. *)
  next_stop : option nat
}.

(** [addTaskHandler] on a POST whose body decodes to [task]; the INSERT
    stores date, title, comment and repeat under a fresh id. *)
Definition addTaskHandler (fuel : nat) (now : time.Time) (drv : driver) (db : DB)
    (task : Task) : option (DB * response) :=
  if String.eqb (Title task) "" then Some (db, HttpError "Title is required" 400)
  else
    match addTask_date fuel now task with
    | None => None
    | Some (Err resp) => Some (db, resp)
    | Some (Ok task) =>
      match exec_error drv with
      | Some err =>
          Some (db, HttpError (String.append "Failed to insert task: " err) 500)
      | None =>
        let id := lastID db + 1 in
        let row := mkTask id (Date task) (Title task) (Comment task) (Repeat task) in
        let db := mkDB (rows db ++ [row]) id in
        match result_error drv with
        | Some err =>
            Some (db, HttpError (String.append "Failed to retrieve last insert ID: "
                                   err) 500)
        | None => Some (db, JsonId id)
        end
      end
    end.

(** [UPDATE scheduler SET ... WHERE id = ?]: the rows after the statement
    and the number of rows it changed. *)
Fixpoint update_rows (rs : list Task) (task : Task) : list Task * Z :=
  match rs with
  | [] => ([], 0)
  | r :: rest =>
    let (rest', n) := update_rows rest task in
    if ID r =? ID task then (task :: rest', n + 1) else (r :: rest', n)
  end.

(** [updateTaskHandler] on a body that decodes to [task]. *)
Definition updateTaskHandler (fuel : nat) (now : time.Time) (drv : driver) (db : DB)
    (task : Task) : option (DB * response) :=
  if ID task =? 0 then Some (db, HttpError "ID is required" 400)
  else if String.eqb (Title task) "" then Some (db, HttpError "Title is required" 400)
  else
    match updateTask_date fuel now task with
    | None => None
    | Some (Err resp) => Some (db, resp)
    | Some (Ok task) =>
      match exec_error drv with
      | Some err =>
          Some (db, HttpError (String.append "Failed to update task: " err) 500)
      | None =>
        let (rows', rowsAffected) := update_rows (rows db) task in
        let db := mkDB rows' (lastID db) in
        match result_error drv with
        | Some err =>
            Some (db, HttpError (String.append "Failed to retrieve rows affected: "
                                   err) 500)
        | None =>
          if rowsAffected =? 0 then Some (db, HttpError "Задача не найдена" 404)
          else Some (db, JsonEmpty)
        end
      end
    end.

(** [nextDateHandler] on the form values now, date and repeat. *)
Definition nextDateHandler (fuel : nat) (nowStr dateStr repeatStr : string)
  : option response :=
  match time.Parse nowStr with
  | None => Some (HttpError "invalid now date format" 400)
  | Some now =>
    match NextDate fuel now dateStr repeatStr with
    | None => None
    | Some (Err e) => Some (HttpError (Error e repeatStr) 400)
    | Some (Ok nextDate) => Some (JsonNextDate nextDate)
    end
  end.

(** *** The handlers that read the table *)

(** The map literal that [getTasksHandler] (lines 211-217) and
    [getTaskHandler] (lines 254-260) build for a row, its keys in the
    order of the source. *)
Definition taskMap (task : Task) : list (string * string) :=
  [("id", strconv.FormatInt (ID task)); ("date", Date task);
   ("title", Title task); ("comment", Comment task); ("repeat", Repeat task)].

(** A Go slice: [None] is nil, which JSON encodes as null. *)
Definition slice (A : Type) : Type := option (list A).

(** The builtin [append] with one element. *)
Definition append_slice {A : Type} (s : slice A) (x : A) : slice A :=
  match s with
  | None => Some [x]
  | Some l => Some (l ++ [x])%list
  end.

(** What any handler answers with: an answer of the writing handlers, or
    the JSON body of a reading one. *)
Inductive reply : Type :=
| Answer (r : response)
| JsonTask (task : list (string * string))
| JsonTasks (tasks : slice (list (string * string))).

(** [ORDER BY date ASC]: the rows by ascending date, the TEXT values
    compared byte by byte. Rows of one date stay in the order of the
    table, that of their ids, as a walk of the index idx_date yields them
    (SQL itself leaves the order of such rows open). *)
Fixpoint insert_by_date (r : Task) (sorted : list Task) : list Task :=
  match sorted with
  | [] => [r]
  | r' :: rest =>
    if String.leb (Date r) (Date r') then r :: sorted
    else r' :: insert_by_date r rest
  end.

Definition order_by_date (rs : list Task) : list Task :=
  fold_right insert_by_date [] rs.

(** The rows that the loop over
    [db.Query("SELECT ... FROM scheduler ORDER BY date ASC LIMIT 50")]
    sees. *)
Definition query_tasks (drv : driver) (db : DB) : list Task :=
  let selected := firstn 50 (order_by_date (rows db)) in
  match next_stop drv with
  | None => selected
  | Some n => firstn n selected
  end.

(** [for rows.Next() { ...; tasks = append(tasks, taskMap) }], from the
    row of index [i] on; an error of [rows.Scan] ends the handler. *)
Fixpoint scan_rows (drv : driver) (i : nat) (rs : list Task)
    (tasks : slice (list (string * string)))
  : result string (slice (list (string * string))) :=
  match rs with
  | [] => Ok tasks
  | task :: rest =>
    match scan_error drv i with
    | Some err => Err err
    | None => scan_rows drv (S i) rest (append_slice tasks (taskMap task))
    end
  end.

Definition getTasksHandler (drv : driver) (db : DB) : reply :=
  match query_error drv with
  | Some err => Answer (HttpError (String.append "Failed to query tasks: " err) 500)
  | None =>
    match scan_rows drv 0 (query_tasks drv db) None with
    | Err err => Answer (HttpError (String.append "Failed to scan task: " err) 500)
    | Ok tasks =>
      let tasks := match tasks with
                   | None => Some []
                   | Some _ => tasks
                   end in
      JsonTasks tasks
    end
  end.

(** The row of [db.QueryRow("SELECT ... FROM scheduler WHERE id = ?", id)]:
    the first row of that id, [None] for [sql.ErrNoRows]. *)
Definition query_row (db : DB) (id : Z) : option Task :=
  find (fun r => ID r =? id) (rows db).

(** [getTaskHandler] on the value of the query parameter id, empty when
    the parameter is absent. *)
Definition getTaskHandler (drv : driver) (db : DB) (idStr : string) : reply :=
  if String.eqb idStr "" then Answer (HttpError "Не указан идентификатор" 400)
  else
    match strconv.ParseInt idStr with
    | Err _ => Answer (HttpError "Неверный формат идентификатора" 400)
    | Ok id =>
      match query_error drv with
      | Some err =>
          Answer (HttpError (String.append "Ошибка при поиске задачи: " err) 500)
      | None =>
        match query_row db id with
        | None => Answer (HttpError "Задача не найдена" 404)
        | Some task =>
          match scan_error drv 0 with
          | Some err =>
              Answer (HttpError (String.append "Ошибка при поиске задачи: " err) 500)
          | None => JsonTask (taskMap task)
          end
        end
      end
    end.

(** *** The handlers from the request

    The body of a request is kept as what [json.Decode] makes of it: the
    [Task] it fills, or the error it reports. *)

(** [addTaskHandler] from its first line: the method check (lines
    137-140) and the decoding (lines 142-147). *)
Definition addTaskRequest (fuel : nat) (now : time.Time) (drv : driver) (db : DB)
    (method : string) (body : result string Task) : option (DB * response) :=
  if negb (String.eqb method "POST")
  then Some (db, HttpError "Method Not Allowed" 405)
  else
    match body with
    | Err err => Some (db, HttpError (String.append "Error decoding JSON: " err) 400)
    | Ok task => addTaskHandler fuel now drv db task
    end.

(** [updateTaskHandler] from its first line (lines 266-271). *)
Definition updateTaskRequest (fuel : nat) (now : time.Time) (drv : driver) (db : DB)
    (body : result string Task) : option (DB * response) :=
  match body with
  | Err err => Some (db, HttpError (String.append "Error decoding JSON: " err) 400)
  | Ok task => updateTaskHandler fuel now drv db task
  end.

Definition answer (r : option (DB * response)) : option (DB * reply) :=
  match r with
  | Some (db, resp) => Some (db, Answer resp)
  | None => None
  end.

(** [taskHandler]: GET reads a task, PUT updates one. *)
Definition taskHandler (fuel : nat) (now : time.Time) (drv : driver) (db : DB)
    (method idStr : string) (body : result string Task) : option (DB * reply) :=
  if String.eqb method "GET" then Some (db, getTaskHandler drv db idStr)
  else if String.eqb method "PUT"
  then answer (updateTaskRequest fuel now drv db body)
  else Some (db, Answer (HttpError "Method Not Allowed" 405)).

(** A request to one of the four routes that [main] registers under /api
    (lines 345-348), with what its handler reads of it. *)
Inductive request : Type :=
| NextDateRequest (nowStr dateStr repeatStr : string)
| AddTaskRequest (method : string) (body : result string Task)
| TasksRequest
| TaskRequest (method idStr : string) (body : result string Task).

(** The server on one request, at the day [now] of [time.Now()] and with
    the database driver behaving as [drv]. *)
Definition serve (fuel : nat) (now : time.Time) (drv : driver) (db : DB)
    (req : request) : option (DB * reply) :=
  match req with
  | NextDateRequest nowStr dateStr repeatStr =>
      match nextDateHandler fuel nowStr dateStr repeatStr with
      | Some resp => Some (db, Answer resp)
      | None => None
      end
  | AddTaskRequest method body =>
      answer (addTaskRequest fuel now drv db method body)
  | TasksRequest => Some (db, getTasksHandler drv db)
  | TaskRequest method idStr body => taskHandler fuel now drv db method idStr body
  end.

End main.

Import main.

(** ** The vocabulary of the specification *)

(** The recurrence rules of the specification and their text (its rule
    grammar); the code itself only ever sees the text. *)
Inductive RecurrenceRule : Type :=
| NoRule
| Yearly
| EveryNDays (days : Z)
| WeeklyOnDays (daysOfWeek : list Z).

Definition rule_text (rule : RecurrenceRule) : string :=
  match rule with
  | NoRule => ""
  | Yearly => "y"
  | EveryNDays days => String.append "d " (strconv.Itoa days)
  | WeeklyOnDays daysOfWeek =>
      String.append "w " (strings.Join (map strconv.Itoa daysOfWeek) ",")
  end.

(** A rule within the bounds of the grammar; a weekly rule lists at least
    one day. *)
Definition well_formed (rule : RecurrenceRule) : Prop :=
  match rule with
  | NoRule => False
  | Yearly => True
  | EveryNDays days => 1 <= days <= 400
  | WeeklyOnDays daysOfWeek =>
      daysOfWeek <> [] /\ Forall (fun d => 1 <= d <= 7) daysOfWeek
  end.

(** The fixed step of a rule. *)
Definition rule_step (rule : RecurrenceRule) (d : time.Time) : time.Time :=
  match rule with
  | NoRule => d
  | Yearly => time.AddDate d 1 0 0
  | EveryNDays days => time.AddDate d 0 0 days
  | WeeklyOnDays _ => time.AddDate d 0 0 1
  end.

(** A date that the canonical eight-character form can hold. *)
Definition calendar_date (t : time.Time) : Prop :=
  time.valid t /\ 0 <= time.Year t <= 9999.

(** [NextDate] returns [res]: some number of loop iterations suffices. *)
Definition NextDate_returns (now : time.Time) (date repeat : string)
    (res : result error string) : Prop :=
  exists fuel, NextDate fuel now date repeat = Some res.

(** Iterations that are enough for every input of [NextDate]. *)
Definition enough_fuel : nat := Z.to_nat 37200000.

(** *** The engine with calendar comparison

    The loop as the specification words it: dates are compared by calendar
    value (year, then month, then day) instead of by their formatted
    strings. Everything else is [NextDate]. *)
Fixpoint advance_chrono (fuel : nat) (step : time.Time -> time.Time)
    (now d : time.Time) : option time.Time :=
  match fuel with
  | O => None
  | S fuel' =>
    match time.Compare d now with
    | Gt => Some d
    | _ => advance_chrono fuel' step now (step d)
    end
  end.

Definition NextDate_chrono (fuel : nat) (now : time.Time) (date repeat : string)
  : option (result error string) :=
  match time.Parse date with
  | None => Some (Err InvalidDateFormat)
  | Some d =>
    if String.eqb repeat "" then Some (Err EmptyRule)
    else if String.eqb repeat "y" then
      let step := fun d => time.AddDate d 1 0 0 in
      option_map (fun d => Ok (time.Format d)) (advance_chrono fuel step now (step d))
    else if strings.HasPrefix repeat "d " then
      match fmt.Sscanf_d repeat with
      | Err _ => Some (Err InvalidRepeatCount)
      | Ok days =>
        if (days <=? 0) || (days >? 400) then Some (Err InvalidRepeatCount)
        else
          let step := fun d => time.AddDate d 0 0 days in
          option_map (fun d => Ok (time.Format d)) (advance_chrono fuel step now (step d))
      end
    else if strings.HasPrefix repeat "w " then
      match fmt.Sscanf_w repeat with
      | Err _ => Some (Err InvalidRepeatCount)
      | Ok daysOfWeek =>
        if negb (check_days (strings.Split daysOfWeek ",")) then Some (Err InvalidRepeatCount)
        else
          let step := fun d => time.AddDate d 0 0 1 in
          option_map (fun d => Ok (time.Format d)) (advance_chrono fuel step now (step d))
      end
    else Some (Err UnsupportedRule)
  end.

(** *** Reading the count of a rule text

    What the text after the two-character prefix of a "d " or "w " rule
    holds, said without the scanner: blanks are spaces other than the
    newline. *)
Definition blank (r : utf8.rune) : bool := fmt.isSpace r && negb (r =? 10).

Fixpoint drop_while {A : Type} (f : A -> bool) (l : list A) : list A :=
  match l with
  | [] => []
  | x :: l' => if f x then drop_while f l' else l
  end.

Fixpoint take_while {A : Type} (f : A -> bool) (l : list A) : list A :=
  match l with
  | [] => []
  | x :: l' => if f x then x :: take_while f l' else []
  end.

Definition digit_rune (r : utf8.rune) : bool := (48 <=? r) && (r <=? 57).

Definition runes_value (ds : list utf8.rune) : Z :=
  fold_left (fun acc r => acc * 10 + (r - 48)) ds 0.

(** The integer that leads a text: an optional sign and the longest run of
    decimal digits. *)
Definition leading_int (rs : list utf8.rune) : option Z :=
  let (neg, rs) := match rs with
                   | r :: rest => if r =? 45 then (true, rest)
                                  else if r =? 43 then (false, rest)
                                  else (false, rs)
                   | [] => (false, rs)
                   end in
  match take_while digit_rune rs with
  | [] => None
  | ds => Some (if neg then - runes_value ds else runes_value ds)
  end.

(** The count of a "d " rule: the integer that leads the text after the
    prefix and its blanks. *)
Definition day_count (repeat : string) : option Z :=
  leading_int (drop_while blank (skipn 2 (utf8.runes repeat))).

Definition day_count_ok (repeat : string) : bool :=
  match day_count repeat with
  | Some n => (1 <=? n) && (n <=? 400)
  | None => false
  end.

(** The first word after the prefix and its blanks. *)
Definition weekday_word (repeat : string) : list utf8.rune :=
  take_while fmt.notSpace (drop_while blank (skipn 2 (utf8.runes repeat))).

Fixpoint strip_zeros (s : string) : string :=
  match s with
  | String c s' => if Ascii.eqb c "0" then strip_zeros s' else s
  | "" => ""
  end.

(** A decimal integer between 1 and 7: an optional plus sign, zeros, and
    one digit from 1 to 7. *)
Definition weekday_item (item : string) : bool :=
  let s := match item with
           | String c s' => if Ascii.eqb c "+" then s' else item
           | "" => item
           end in
  match strip_zeros s with
  | String c "" => (49 <=? byte_val c) && (byte_val c <=? 55)
  | _ => false
  end.

Definition weekdays_ok (repeat : string) : bool :=
  match weekday_word repeat with
  | [] => false
  | word => forallb weekday_item (strings.Split (utf8.of_runes word) ",")
  end.

(** The strict reading of a day count: the whole text after "d " is an
    integer, as [strconv.Atoi] reads one. *)
Definition count_text (repeat : string) : string :=
  String.substring 2 (String.length repeat - 2) repeat.

Definition numeric (s : string) : bool :=
  match strconv.Atoi s with
  | Ok _ => true
  | Err _ => false
  end.

(** ** Measures used in the proofs *)

(** A key that orders the dates of the calendar like [Compare] does. *)
Definition rank (t : time.Time) : Z :=
  372 * time.Year t + 31 * (time.Month t - 1) + (time.Day t - 1).

(** The number that the eight digits of a formatted date spell. *)
Definition dateNum (t : time.Time) : Z :=
  time.Year t * 10000 + time.Month t * 100 + time.Day t.

(** [n] days later. *)
Definition add_days (n : nat) (t : time.Time) : time.Time :=
  Nat.iter n time.next_day t.

(** One year later, as [AddDate(1, 0, 0)] normalises it: February 29
    becomes March 1 when the next year is not a leap year. *)
Definition add_year (t : time.Time) : time.Time :=
  if time.Day t <=? time.daysIn (time.Month t) (time.Year t + 1)
  then time.mkTime (time.Year t + 1) (time.Month t) (time.Day t)
  else time.mkTime (time.Year t + 1) 3 1.

(** The string of a list of decimal digits, and the number it spells. *)
Definition digits_string (l : list Z) : string :=
  string_of_list_ascii (map time.digit l).

Fixpoint hval (acc : Z) (l : list Z) : Z :=
  match l with
  | [] => acc
  | d :: l' => hval (acc * 10 + d) l'
  end.

Definition digits4 (x : Z) : list Z :=
  [x / 1000; x / 100 mod 10; x / 10 mod 10; x mod 10].

Definition digits2 (x : Z) : list Z := [x / 10; x mod 10].

Definition date_digits (t : time.Time) : list Z :=
  (digits4 (time.Year t) ++ digits2 (time.Month t) ++ digits2 (time.Day t))%list.

Definition is_digit_val (d : Z) : bool := (0 <=? d) && (d <=? 9).

Definition char_is_digit (c : ascii) : Prop := 48 <= byte_val c <= 57.

(** A rank that the loop of [NextDate] never reaches. *)
Definition loop_bound : Z := 372 * 99992 + 1600.

(** A byte of a word: printable ASCII other than the space. *)
Definition word_byte (b : Z) : bool := (33 <=? b) && (b <=? 126).

(** The value [NextDate] returns for the date its loop leaves. *)
Definition returned (r : option time.Time) : option (result error string) :=
  option_map (fun d => Ok (time.Format d)) r.

(** The leap years from year 0 up to, and without, year [y]. *)
Definition leaps_before (y : Z) : Z :=
  (y + 3) / 4 - (y + 99) / 100 + (y + 399) / 400.

(** The days from January 1 of year 0 to [t], counted as [time.Date] counts
    the days since its epoch: whole years, the months before through
    [daysBefore], one more from March of a leap year on, and the days of
    the month. *)
Definition dayNumber (t : time.Time) : Z :=
  365 * time.Year t + leaps_before (time.Year t)
  + nth (Z.to_nat (time.Month t - 1)) time.daysBefore 0
  + (if time.isLeap (time.Year t) && (3 <=? time.Month t) then 1 else 0)
  + (time.Day t - 1).

(** ** The table of tasks *)

(** The table that [initDB] creates in a new database file. *)
Definition empty_table : DB := mkDB [] 0.

(** The tables that requests can lead to from the empty one, each request
    served at some day [now] within the years of the date format, whatever
    the driver reports. *)
Inductive reachable : DB -> Prop :=
| reachable_empty : reachable empty_table
| reachable_serve (db db' : DB) (fuel : nat) (now : time.Time) (drv : driver)
    (req : request) (resp : reply) :
    reachable db -> calendar_date now ->
    serve fuel now drv db req = Some (db', resp) -> reachable db'.

(** A driver that reports no error. *)
Definition healthy : driver := mkDriver None None None (fun _ => None) None.

(** The five decimal digits of a year from 10000 to 99999. *)
Definition digits5 (x : Z) : list Z :=
  [x / 10000; x / 1000 mod 10; x / 100 mod 10; x / 10 mod 10; x mod 10].

(** The ids 1, 2, ..., [n]. *)
Definition ids_upto (n : Z) : list Z := map Z.of_nat (seq 1 (Z.to_nat n)).

(** A date column holds the formatted form of a day of the calendar. *)
Definition date_text (s : string) : Prop :=
  exists t : time.Time, time.valid t /\ 0 <= time.Year t /\ s = time.Format t.

(** The rows by ascending date. *)
Fixpoint sorted_by_date (l : list Task) : Prop :=
  match l with
  | [] => True
  | r :: rest =>
    Forall (fun r' => String.leb (Date r) (Date r') = true) rest
    /\ sorted_by_date rest
  end.

(** The month and day that the yearly rule gives an anchor: its own, or
    March 1 for an anchor on February 29. *)
Definition yearly_day (a t : time.Time) : Prop :=
  if (time.Month a =? 2) && (time.Day a =? 29)
  then time.Month t = 3 /\ time.Day t = 1
  else time.Month t = time.Month a /\ time.Day t = time.Day a.

(** What a table holds after any run of requests: the ids are 1 to
    [lastID], each once and in this order, no title is empty, and every
    date is the formatted form of a day of the calendar. *)
Definition table_ok (db : DB) : Prop :=
  0 <= lastID db
  /\ map ID (rows db) = ids_upto (lastID db)
  /\ Forall (fun r => Title r <> "" /\ date_text (Date r)) (rows db).

(** The row that an update writes over the rows of its id. *)
Definition replace_row (task : Task) (r : Task) : Task :=
  if ID r =? ID task then task else r.
(** * Properties *)

Import time.
Import main.

(** ** The calendar *)

Ltac month_cases m :=
  let H := fresh "Hm" in
  assert (H : m = 1 \/ m = 2 \/ m = 3 \/ m = 4 \/ m = 5 \/ m = 6 \/ m = 7
              \/ m = 8 \/ m = 9 \/ m = 10 \/ m = 11 \/ m = 12) by lia;
  repeat (destruct H as [H | H]); subst m.

Lemma daysIn_bounds (m y : Z) : 1 <= m <= 12 -> 28 <= daysIn m y <= 31.
Proof.
  intros Hm. month_cases m; unfold daysIn; simpl;
    try destruct (isLeap y); simpl; lia.
Qed.

Lemma daysIn_not_feb (m y y' : Z) : m <> 2 -> daysIn m y = daysIn m y'.
Proof.
  intros Hm. unfold daysIn.
  replace (m =? 2) with false by (symmetry; apply Z.eqb_neq; exact Hm).
  reflexivity.
Qed.

Lemma daysIn_feb (y : Z) : daysIn 2 y = if isLeap y then 29 else 28.
Proof. unfold daysIn. simpl. destruct (isLeap y); reflexivity. Qed.

Lemma isLeap_succ (y : Z) : isLeap y = true -> isLeap (y + 1) = false.
Proof.
  unfold isLeap. intros H.
  apply andb_true_iff in H. destruct H as [H4 _].
  apply Z.eqb_eq in H4.
  apply andb_false_iff. left. apply Z.eqb_neq.
  intros H'. 
  pose proof (Z.div_mod y 4 ltac:(lia)).
  pose proof (Z.div_mod (y + 1) 4 ltac:(lia)).
  lia.
Qed.

Lemma validb_spec (t : Time) : validb t = true <-> valid t.
Proof.
  unfold validb, valid. rewrite !andb_true_iff, !Z.leb_le. tauto.
Qed.

Lemma valid_day_le_31 (t : Time) : valid t -> 1 <= Day t <= 31.
Proof.
  intros [Hm Hd]. pose proof (daysIn_bounds (Month t) (Year t) Hm). lia.
Qed.

Lemma next_day_valid (t : Time) : valid t -> valid (next_day t).
Proof.
  intros [Hm Hd]. unfold next_day.
  destruct (Day t <? daysIn (Month t) (Year t)) eqn:E.
  - apply Z.ltb_lt in E. split; simpl; lia.
  - destruct (Month t <? 12) eqn:E2.
    + apply Z.ltb_lt in E2. split; simpl; [lia|].
      pose proof (daysIn_bounds (Month t + 1) (Year t)). lia.
    + split; simpl; [lia|].
      pose proof (daysIn_bounds 1 (Year t + 1)). lia.
Qed.

Lemma next_day_year (t : Time) : Year t <= Year (next_day t) <= Year t + 1.
Proof.
  unfold next_day.
  destruct (Day t <? _); [simpl; lia|].
  destruct (Month t <? 12); simpl; lia.
Qed.

Lemma next_day_rank (t : Time) :
  valid t -> rank t + 1 <= rank (next_day t) <= rank t + 4.
Proof.
  intros [Hm Hd]. pose proof (daysIn_bounds _ (Year t) Hm) as Hb.
  unfold next_day, rank.
  destruct (Day t <? daysIn (Month t) (Year t)) eqn:E.
  - cbn [Year Month Day]. lia.
  - apply Z.ltb_ge in E.
    destruct (Month t <? 12) eqn:E2; cbn [Year Month Day].
    + apply Z.ltb_lt in E2. lia.
    + apply Z.ltb_ge in E2.
      assert (Month t = 12) by lia.
      assert (daysIn (Month t) (Year t) = 31)
        by (rewrite H; unfold daysIn; reflexivity).
      lia.
Qed.

(** [Compare] through the two numeric keys. *)
Lemma Compare_rank (t u : Time) :
  valid t -> valid u -> Compare t u = (rank t ?= rank u).
Proof.
  intros Ht Hu.
  pose proof (valid_day_le_31 t Ht). pose proof (valid_day_le_31 u Hu).
  destruct Ht as [Ht _], Hu as [Hu _].
  unfold Compare, rank.
  destruct (Year t ?= Year u) eqn:Ey.
  - apply Z.compare_eq in Ey.
    destruct (Month t ?= Month u) eqn:Em.
    + apply Z.compare_eq in Em. rewrite Ey, Em.
      destruct (Day t ?= Day u) eqn:Ed; symmetry.
      * apply Z.compare_eq in Ed. apply Z.compare_eq_iff. lia.
      * rewrite Z.compare_lt_iff in *. lia.
      * rewrite Z.compare_gt_iff in *. lia.
    + symmetry. rewrite Z.compare_lt_iff in *. lia.
    + symmetry. rewrite Z.compare_gt_iff in *. lia.
  - symmetry. rewrite Z.compare_lt_iff in *. lia.
  - symmetry. rewrite Z.compare_gt_iff in *. lia.
Qed.

Lemma Compare_dateNum (t u : Time) :
  valid t -> valid u -> Compare t u = (dateNum t ?= dateNum u).
Proof.
  intros Ht Hu.
  pose proof (valid_day_le_31 t Ht). pose proof (valid_day_le_31 u Hu).
  destruct Ht as [Ht _], Hu as [Hu _].
  unfold Compare, dateNum.
  destruct (Year t ?= Year u) eqn:Ey.
  - apply Z.compare_eq in Ey.
    destruct (Month t ?= Month u) eqn:Em.
    + apply Z.compare_eq in Em. rewrite Ey, Em.
      destruct (Day t ?= Day u) eqn:Ed; symmetry.
      * apply Z.compare_eq in Ed. apply Z.compare_eq_iff. lia.
      * rewrite Z.compare_lt_iff in *. lia.
      * rewrite Z.compare_gt_iff in *. lia.
    + symmetry. rewrite Z.compare_lt_iff in *. lia.
    + symmetry. rewrite Z.compare_gt_iff in *. lia.
  - symmetry. rewrite Z.compare_lt_iff in *. lia.
  - symmetry. rewrite Z.compare_gt_iff in *. lia.
Qed.

Lemma rank_inj (t u : Time) : valid t -> valid u -> rank t = rank u -> t = u.
Proof.
  intros Ht Hu E.
  pose proof (valid_day_le_31 t Ht). pose proof (valid_day_le_31 u Hu).
  destruct Ht as [Ht _], Hu as [Hu _].
  destruct t as [y m d], u as [y' m' d']. unfold rank in E. cbn [Year Month Day] in *.
  assert (y = y') by lia. assert (m = m') by lia. assert (d = d') by lia.
  subst. reflexivity.
Qed.

Lemma Before_rank (t u : Time) :
  valid t -> valid u -> (Before t u <-> rank t < rank u).
Proof.
  intros Ht Hu. unfold Before. rewrite (Compare_rank t u Ht Hu).
  apply Z.compare_lt_iff.
Qed.

Lemma NotAfter_rank (t u : Time) :
  valid t -> valid u -> (NotAfter t u <-> rank t <= rank u).
Proof.
  intros Ht Hu. unfold NotAfter. rewrite (Compare_rank t u Ht Hu).
  rewrite Z.compare_gt_iff. lia.
Qed.

(** The day after [t] is the least date after [t]. *)
Lemma next_day_least (t u : Time) :
  valid t -> valid u -> rank t < rank u -> rank (next_day t) <= rank u.
Proof.
  intros Ht Hu Hlt.
  pose proof (valid_day_le_31 t Ht). pose proof (valid_day_le_31 u Hu).
  destruct Ht as [Htm Htd], Hu as [Hum Hud].
  unfold next_day, rank in *.
  destruct (Day t <? daysIn (Month t) (Year t)) eqn:E.
  - cbn [Year Month Day]. lia.
  - apply Z.ltb_ge in E.
    destruct (Month t <? 12) eqn:E2; cbn [Year Month Day].
    + apply Z.ltb_lt in E2.
      destruct (Z.eq_dec (Year t) (Year u)) as [Ey|Ey]; [|lia].
      destruct (Z.eq_dec (Month t) (Month u)) as [Em|Em]; [|lia].
      rewrite Ey, Em in *. lia.
    + apply Z.ltb_ge in E2.
      destruct (Z.eq_dec (Year t) (Year u)) as [Ey|Ey]; [|lia].
      destruct (Z.eq_dec (Month t) (Month u)) as [Em|Em]; [|lia].
      rewrite Ey, Em in *. lia.
Qed.

(** ** [Date] and [AddDate] on dates of the calendar *)

Lemma iter_next_day_in_month (k : nat) (y m d : Z) :
  1 <= d -> d + Z.of_nat k <= daysIn m y ->
  Nat.iter k next_day (mkTime y m d) = mkTime y m (d + Z.of_nat k).
Proof.
  induction k as [|k IH]; intros Hd Hk.
  - simpl. f_equal. lia.
  - rewrite Nat.iter_succ, IH by lia.
    unfold next_day. simpl Day. simpl Month. simpl Year.
    replace (d + Z.of_nat k <? daysIn m y) with true
      by (symmetry; apply Z.ltb_lt; lia).
    f_equal. lia.
Qed.

Lemma Z_iter_nat {A : Type} (n : Z) (f : A -> A) (x : A) :
  0 <= n -> Z.iter n f x = Nat.iter (Z.to_nat n) f x.
Proof.
  intros Hn. rewrite Zmisc.iter_nat_of_Z by exact Hn.
  rewrite Zabs2Nat.abs_nat_nonneg by exact Hn. reflexivity.
Qed.

Lemma Date_first (y m d : Z) :
  1 <= m <= 12 -> 1 <= d ->
  time.Date y m d = Nat.iter (Z.to_nat (d - 1)) next_day (mkTime y m 1).
Proof.
  intros Hm Hd. unfold time.Date.
  replace ((m - 1) / 12) with 0 by (symmetry; apply Z.div_small; lia).
  replace ((m - 1) mod 12) with (m - 1) by (symmetry; apply Z.mod_small; lia).
  replace (1 <=? d) with true by (symmetry; apply Z.leb_le; lia).
  rewrite Z_iter_nat by lia. f_equal. f_equal; lia.
Qed.

Lemma Date_valid (y m d : Z) :
  valid (mkTime y m d) -> time.Date y m d = mkTime y m d.
Proof.
  intros [Hm Hd]. simpl in *.
  rewrite Date_first by lia.
  rewrite iter_next_day_in_month by lia.
  f_equal. lia.
Qed.

Lemma AddDate_days (t : Time) (n : Z) :
  valid t -> 0 <= n -> AddDate t 0 0 n = add_days (Z.to_nat n) t.
Proof.
  intros [Hm Hd] Hn. unfold AddDate, add_days.
  rewrite !Z.add_0_r. rewrite Date_first by lia.
  replace (Z.to_nat (Day t + n - 1))
    with (Z.to_nat n + Z.to_nat (Day t - 1))%nat by lia.
  rewrite Nat.iter_add. f_equal.
  rewrite iter_next_day_in_month by lia.
  destruct t as [y m d]. cbn [Year Month Day] in *. f_equal. lia.
Qed.

Lemma AddDate_year (t : Time) : valid t -> AddDate t 1 0 0 = add_year t.
Proof.
  intros [Hm Hd]. unfold AddDate, add_year.
  rewrite !Z.add_0_r.
  destruct (Day t <=? daysIn (Month t) (Year t + 1)) eqn:E.
  - apply Z.leb_le in E. apply Date_valid. split; simpl; lia.
  - apply Z.leb_gt in E.
    assert (Month t = 2).
    { destruct (Z.eq_dec (Month t) 2) as [H2|H2]; [exact H2|].
      rewrite (daysIn_not_feb _ (Year t + 1) (Year t) H2) in E. lia. }
    rewrite H in *. rewrite daysIn_feb in *.
    destruct (isLeap (Year t)) eqn:L.
    + rewrite (isLeap_succ _ L) in E.
      assert (Day t = 29) by lia.
      rewrite Date_first by lia. rewrite H0.
      change (Z.to_nat (29 - 1)) with (S 27).
      rewrite Nat.iter_succ.
      rewrite iter_next_day_in_month
        by (rewrite ?daysIn_feb, ?(isLeap_succ _ L); simpl; lia).
      unfold next_day. simpl Day. simpl Month. simpl Year.
      rewrite daysIn_feb, (isLeap_succ _ L). reflexivity.
    + destruct (isLeap (Year t + 1)); lia.
Qed.

Lemma add_days_valid (n : nat) (t : Time) : valid t -> valid (add_days n t).
Proof.
  intros Ht. unfold add_days. induction n as [|n IH].
  - exact Ht.
  - rewrite Nat.iter_succ. apply next_day_valid. exact IH.
Qed.

Lemma add_days_rank (n : nat) (t : Time) :
  valid t ->
  rank t + Z.of_nat n <= rank (add_days n t) <= rank t + 4 * Z.of_nat n.
Proof.
  intros Ht. unfold add_days. induction n as [|n IH].
  - simpl. lia.
  - rewrite Nat.iter_succ.
    pose proof (next_day_rank _ (add_days_valid n t Ht)) as Hr.
    unfold add_days in Hr. lia.
Qed.

Lemma add_year_valid (t : Time) : valid t -> valid (add_year t).
Proof.
  intros [Hm Hd]. unfold add_year.
  destruct (Day t <=? daysIn (Month t) (Year t + 1)) eqn:E.
  - apply Z.leb_le in E. split; simpl; lia.
  - split; simpl; [lia|]. unfold daysIn. simpl. lia.
Qed.

Lemma add_year_rank (t : Time) :
  valid t -> rank t + 372 <= rank (add_year t) <= rank t + 375.
Proof.
  intros [Hm Hd]. unfold add_year.
  destruct (Day t <=? daysIn (Month t) (Year t + 1)) eqn:E.
  - unfold rank. cbn [Year Month Day]. lia.
  - apply Z.leb_gt in E.
    assert (Month t = 2).
    { destruct (Z.eq_dec (Month t) 2) as [H2|H2]; [exact H2|].
      rewrite (daysIn_not_feb _ (Year t + 1) (Year t) H2) in E. lia. }
    rewrite H in *. rewrite daysIn_feb in *.
    unfold rank. cbn [Year Month Day]. rewrite H.
    destruct (isLeap (Year t)); destruct (isLeap (Year t + 1)); lia.
Qed.

Lemma add_year_year (t : Time) : Year (add_year t) = Year t + 1.
Proof. unfold add_year. destruct (_ <=? _); reflexivity. Qed.

(** Both steps keep the order of dates. *)
Lemma next_day_mono (t u : Time) :
  valid t -> valid u -> rank t <= rank u -> rank (next_day t) <= rank (next_day u).
Proof.
  intros Ht Hu Hle.
  destruct (Z.eq_dec (rank t) (rank u)) as [E|E].
  - rewrite (rank_inj t u Ht Hu E). lia.
  - pose proof (next_day_least t u Ht Hu ltac:(lia)).
    pose proof (next_day_rank u Hu). lia.
Qed.

Lemma add_days_mono (n : nat) (t u : Time) :
  valid t -> valid u -> rank t <= rank u ->
  rank (add_days n t) <= rank (add_days n u).
Proof.
  intros Ht Hu Hle. induction n as [|n IH].
  - exact Hle.
  - unfold add_days in *. rewrite !Nat.iter_succ.
    apply next_day_mono; try exact IH; apply add_days_valid; assumption.
Qed.

Lemma add_year_mono (t u : Time) :
  valid t -> valid u -> rank t <= rank u ->
  rank (add_year t) <= rank (add_year u).
Proof.
  intros Ht Hu Hle.
  pose proof (valid_day_le_31 t Ht). pose proof (valid_day_le_31 u Hu).
  destruct Ht as [Htm Htd], Hu as [Hum Hud].
  pose proof (daysIn_bounds _ (Year t + 1) Htm).
  pose proof (daysIn_bounds _ (Year u + 1) Hum).
  unfold add_year, rank in *.
  destruct (Day t <=? daysIn (Month t) (Year t + 1)) eqn:E1;
  destruct (Day u <=? daysIn (Month u) (Year u + 1)) eqn:E2; cbn [Year Month Day].
  - lia.
  - apply Z.leb_gt in E2.
    assert (Month u = 2).
    { destruct (Z.eq_dec (Month u) 2) as [Hf|Hf]; [exact Hf|].
      rewrite (daysIn_not_feb _ (Year u + 1) (Year u) Hf) in E2. lia. }
    lia.
  - apply Z.leb_gt in E1.
    assert (Month t = 2).
    { destruct (Z.eq_dec (Month t) 2) as [Hf|Hf]; [exact Hf|].
      rewrite (daysIn_not_feb _ (Year t + 1) (Year t) Hf) in E1. lia. }
    match goal with Hx : Month t = 2 |- _ => rewrite Hx in * end. rewrite daysIn_feb in *.
    destruct (isLeap (Year t)) eqn:L; [|destruct (isLeap (Year t + 1)); lia].
    rewrite (isLeap_succ _ L) in E1.
    assert (Day t = 29) by lia.
    destruct (Z.eq_dec (Year t) (Year u)) as [Ey|Ey]; [|lia].
    destruct (Z.eq_dec (Month u) 2) as [Em|Em]; [|lia].
    exfalso. rewrite Em, <- Ey in *. apply Z.leb_le in E2.
    rewrite daysIn_feb, (isLeap_succ _ L) in E2. lia.
  - lia.
Qed.

(** ** Formatted dates *)

(** A property checked on every number below [n] holds below [n]. *)
Lemma forall_below (P : Z -> bool) (n : Z) :
  forallb P (map Z.of_nat (seq 0 (Z.to_nat n))) = true ->
  forall x, 0 <= x < n -> P x = true.
Proof.
  intros H x Hx. rewrite forallb_forall in H. apply H.
  apply in_map_iff. exists (Z.to_nat x). split; [lia|].
  apply in_seq. lia.
Qed.

Lemma appendInt_4 (x : Z) :
  0 <= x < 10000 -> appendInt x 4 = digits_string (digits4 x).
Proof.
  intros Hx. apply String.eqb_eq.
  apply (forall_below
           (fun x => String.eqb (appendInt x 4) (digits_string (digits4 x)))
           10000).
  - vm_compute. reflexivity.
  - lia.
Qed.

Lemma appendInt_2 (x : Z) :
  0 <= x < 100 -> appendInt x 2 = digits_string (digits2 x).
Proof.
  intros Hx. apply String.eqb_eq.
  apply (forall_below
           (fun x => String.eqb (appendInt x 2) (digits_string (digits2 x)))
           100).
  - vm_compute. reflexivity.
  - lia.
Qed.

Lemma digits_string_app (l l' : list Z) :
  digits_string (l ++ l') = digits_string l ++ digits_string l'.
Proof.
  unfold digits_string. induction l as [|d l IH]; simpl.
  - reflexivity.
  - f_equal. exact IH.
Qed.

Lemma Format_month_day (t : Time) :
  valid t ->
  Format t = appendInt (Year t) 4
             ++ digits_string (digits2 (Month t) ++ digits2 (Day t)).
Proof.
  intros Ht. pose proof (valid_day_le_31 t Ht). destruct Ht as [Hm _].
  unfold Format. rewrite !appendInt_2 by lia.
  rewrite digits_string_app. reflexivity.
Qed.

Lemma Format_digits (t : Time) :
  calendar_date t -> Format t = digits_string (date_digits t).
Proof.
  intros [Ht Hy]. rewrite (Format_month_day t Ht).
  rewrite appendInt_4 by lia. unfold date_digits.
  rewrite <- digits_string_app. reflexivity.
Qed.

Lemma digits4_ok (x : Z) :
  0 <= x < 10000 -> forallb is_digit_val (digits4 x) = true.
Proof.
  intros Hx. unfold digits4, is_digit_val. cbn [forallb].
  rewrite !andb_true_iff, !Z.leb_le.
  pose proof (Z.div_pos x 1000). 
  assert (x / 1000 < 10) by (apply Z.div_lt_upper_bound; lia).
  pose proof (Z.mod_pos_bound (x / 100) 10).
  pose proof (Z.mod_pos_bound (x / 10) 10).
  pose proof (Z.mod_pos_bound x 10).
  repeat split; lia.
Qed.

Lemma digits2_ok (x : Z) :
  0 <= x < 100 -> forallb is_digit_val (digits2 x) = true.
Proof.
  intros Hx. unfold digits2, is_digit_val. cbn [forallb].
  rewrite !andb_true_iff, !Z.leb_le.
  pose proof (Z.div_pos x 10).
  assert (x / 10 < 10) by (apply Z.div_lt_upper_bound; lia).
  pose proof (Z.mod_pos_bound x 10).
  repeat split; lia.
Qed.

Lemma hval_digits4 (acc x : Z) :
  hval acc (digits4 x) = acc * 10000 + x.
Proof.
  unfold digits4. cbn [hval].
  pose proof (Z.div_mod x 10 ltac:(lia)).
  pose proof (Z.div_mod (x / 10) 10 ltac:(lia)).
  pose proof (Z.div_mod (x / 100) 10 ltac:(lia)).
  assert (x / 10 / 10 = x / 100) by (rewrite Z.div_div by lia; reflexivity).
  assert (x / 100 / 10 = x / 1000) by (rewrite Z.div_div by lia; reflexivity).
  lia.
Qed.

Lemma hval_digits2 (acc x : Z) : hval acc (digits2 x) = acc * 100 + x.
Proof.
  unfold digits2. cbn [hval].
  pose proof (Z.div_mod x 10 ltac:(lia)). lia.
Qed.

Lemma hval_app (acc : Z) (l l' : list Z) :
  hval acc (l ++ l') = hval (hval acc l) l'.
Proof.
  revert acc. induction l as [|d l IH]; intros acc; simpl.
  - reflexivity.
  - apply IH.
Qed.

Lemma hval_date_digits (t : Time) : hval 0 (date_digits t) = dateNum t.
Proof.
  unfold date_digits, dateNum.
  rewrite !hval_app, hval_digits4, !hval_digits2. lia.
Qed.

Lemma date_digits_ok (t : Time) :
  calendar_date t -> forallb is_digit_val (date_digits t) = true.
Proof.
  intros [Ht Hy]. pose proof (valid_day_le_31 t Ht). destruct Ht as [Hm _].
  unfold date_digits. rewrite !forallb_app.
  rewrite digits4_ok, !digits2_ok by lia. reflexivity.
Qed.

(** *** Comparing strings of digits *)

Lemma digit_compare (a b : Z) :
  is_digit_val a = true -> is_digit_val b = true ->
  Ascii.compare (digit a) (digit b) = (a ?= b).
Proof.
  unfold is_digit_val. rewrite !andb_true_iff, !Z.leb_le.
  intros Ha Hb.
  assert (Ha' : a = 0 \/ a = 1 \/ a = 2 \/ a = 3 \/ a = 4 \/ a = 5 \/ a = 6
                \/ a = 7 \/ a = 8 \/ a = 9) by lia.
  assert (Hb' : b = 0 \/ b = 1 \/ b = 2 \/ b = 3 \/ b = 4 \/ b = 5 \/ b = 6
                \/ b = 7 \/ b = 8 \/ b = 9) by lia.
  repeat (destruct Ha' as [Ha' | Ha']); subst a;
    repeat (destruct Hb' as [Hb' | Hb']); subst b; reflexivity.
Qed.

(** Digit strings of one length compare like the numbers they spell. *)
Lemma compare_digits (l l' : list Z) (acc acc' : Z) :
  List.length l = List.length l' ->
  forallb is_digit_val l = true -> forallb is_digit_val l' = true ->
  (hval acc l ?= hval acc' l') =
  match acc ?= acc' with
  | Eq => String.compare (digits_string l) (digits_string l')
  | c => c
  end.
Proof.
  revert l' acc acc'. induction l as [|d l IH]; intros [|d' l'] acc acc' Hlen Hl Hl';
    try discriminate.
  - simpl. destruct (acc ?= acc'); reflexivity.
  - cbn [forallb] in Hl, Hl'. apply andb_true_iff in Hl, Hl'.
    destruct Hl as [Hd Hl], Hl' as [Hd' Hl'].
    cbn [hval]. rewrite IH by (try assumption; simpl in Hlen; lia).
    unfold digits_string. cbn [map string_of_list_ascii String.compare].
    rewrite (digit_compare d d' Hd Hd').
    unfold is_digit_val in Hd, Hd'.
    rewrite !andb_true_iff, !Z.leb_le in Hd, Hd'.
    destruct (acc ?= acc') eqn:Ea.
    + apply Z.compare_eq in Ea. subst acc'.
      destruct (d ?= d') eqn:Ed.
      * apply Z.compare_eq in Ed. subst d'. rewrite Z.compare_refl. reflexivity.
      * rewrite Z.compare_lt_iff in Ed.
        replace (acc * 10 + d ?= acc * 10 + d') with Lt
          by (symmetry; apply Z.compare_lt_iff; lia).
        reflexivity.
      * rewrite Z.compare_gt_iff in Ed.
        replace (acc * 10 + d ?= acc * 10 + d') with Gt
          by (symmetry; apply Z.compare_gt_iff; lia).
        reflexivity.
    + rewrite Z.compare_lt_iff in Ea.
      replace (acc * 10 + d ?= acc' * 10 + d') with Lt
        by (symmetry; apply Z.compare_lt_iff; lia).
      reflexivity.
    + rewrite Z.compare_gt_iff in Ea.
      replace (acc * 10 + d ?= acc' * 10 + d') with Gt
        by (symmetry; apply Z.compare_gt_iff; lia).
      reflexivity.
Qed.

Lemma date_digits_length (t : Time) : List.length (date_digits t) = 8%nat.
Proof. reflexivity. Qed.

(** On dates of the canonical form, the order of the formatted strings is
    the order of the calendar. *)
Lemma compare_Format (t u : Time) :
  calendar_date t -> calendar_date u ->
  String.compare (Format t) (Format u) = Compare t u.
Proof.
  intros Ht Hu.
  rewrite (Format_digits t Ht), (Format_digits u Hu).
  rewrite (Compare_dateNum t u (proj1 Ht) (proj1 Hu)).
  rewrite <- !hval_date_digits.
  rewrite (compare_digits (date_digits t) (date_digits u) 0 0);
    [reflexivity | reflexivity | apply date_digits_ok; assumption
     | apply date_digits_ok; assumption].
Qed.

Lemma leb_Format (t u : Time) :
  calendar_date t -> calendar_date u ->
  String.leb (Format t) (Format u) = true <-> NotAfter t u.
Proof.
  intros Ht Hu. unfold String.leb, NotAfter.
  rewrite (compare_Format t u Ht Hu).
  destruct (Compare t u); split; congruence.
Qed.

Lemma ltb_Format (t u : Time) :
  calendar_date t -> calendar_date u ->
  String.ltb (Format t) (Format u) = true <-> Before t u.
Proof.
  intros Ht Hu. unfold String.ltb, Before.
  rewrite (compare_Format t u Ht Hu).
  destruct (Compare t u); split; congruence.
Qed.

(** Strings of one length compare first, whatever follows them. *)
Lemma compare_app (s1 s2 r1 r2 : string) :
  String.length s1 = String.length s2 ->
  String.compare (s1 ++ r1) (s2 ++ r2) =
  match String.compare s1 s2 with
  | Eq => String.compare r1 r2
  | c => c
  end.
Proof.
  revert s2. induction s1 as [|c1 s1 IH]; intros [|c2 s2] Hlen; try discriminate.
  - reflexivity.
  - simpl. destruct (Ascii.compare c1 c2); try reflexivity.
    apply IH. simpl in Hlen. lia.
Qed.

(** ** Parsing *)

Lemma substring_all (s : string) : String.substring 0 (String.length s) s = s.
Proof.
  induction s as [|c s IH]; simpl.
  - reflexivity.
  - f_equal. exact IH.
Qed.

Lemma byte_val_range (c : ascii) : 0 <= byte_val c < 256.
Proof.
  unfold byte_val. pose proof (N_ascii_bounded c). lia.
Qed.

Lemma byte_chr_val (c : ascii) : byte_chr (byte_val c) = c.
Proof.
  unfold byte_chr, byte_val. rewrite N2Z.id. apply ascii_N_embedding.
Qed.

Lemma byte_val_chr (n : Z) : 0 <= n < 256 -> byte_val (byte_chr n) = n.
Proof.
  intros Hn. unfold byte_chr, byte_val.
  rewrite N_ascii_embedding by lia. lia.
Qed.

Lemma digit_of_char (c : ascii) : digit (byte_val c - 48) = c.
Proof.
  unfold digit. replace (48 + (byte_val c - 48)) with (byte_val c) by lia.
  apply byte_chr_val.
Qed.

Lemma byte_val_digit (d : Z) : 0 <= d <= 9 -> byte_val (digit d) = 48 + d.
Proof. intros Hd. unfold digit. apply byte_val_chr. lia. Qed.

Lemma getyear_inv (s : string) (y : Z) (rest : string) :
  getyear s = Some (y, rest) ->
  exists c1 c2 c3 c4,
    s = String c1 (String c2 (String c3 (String c4 rest)))
    /\ char_is_digit c1 /\ char_is_digit c2 /\ char_is_digit c3 /\ char_is_digit c4
    /\ y = (((byte_val c1 - 48) * 10 + (byte_val c2 - 48)) * 10
            + (byte_val c3 - 48)) * 10 + (byte_val c4 - 48).
Proof.
  unfold getyear.
  destruct s as [|c1 [|c2 [|c3 [|c4 s]]]]; try discriminate.
  unfold isDigit, digit_at.
  cbn [String.length String.get Nat.ltb Nat.leb Nat.sub String.substring orb].
  rewrite ?Nat.sub_0_r, substring_all.
  destruct ((48 <=? byte_val c1) && (byte_val c1 <=? 57)) eqn:E1; [|discriminate].
  destruct ((48 <=? byte_val c2) && (byte_val c2 <=? 57)) eqn:E2; [|discriminate].
  destruct ((48 <=? byte_val c3) && (byte_val c3 <=? 57)) eqn:E3; [|discriminate].
  destruct ((48 <=? byte_val c4) && (byte_val c4 <=? 57)) eqn:E4; [|discriminate].
  cbn [negb andb]. intros H. inversion H; subst.
  rewrite andb_true_iff, !Z.leb_le in E1, E2, E3, E4.
  exists c1, c2, c3, c4. unfold char_is_digit. repeat split; lia.
Qed.

Lemma getnum_fixed_inv (s : string) (n : Z) (rest : string) :
  getnum_fixed s = Some (n, rest) ->
  exists c1 c2,
    s = String c1 (String c2 rest)
    /\ char_is_digit c1 /\ char_is_digit c2
    /\ n = (byte_val c1 - 48) * 10 + (byte_val c2 - 48).
Proof.
  unfold getnum_fixed.
  destruct s as [|c1 [|c2 s]]; try discriminate.
  - unfold isDigit. cbn [String.get].
    destruct ((48 <=? byte_val c1) && (byte_val c1 <=? 57)); discriminate.
  - unfold isDigit, digit_at.
    cbn [String.length String.get Nat.sub String.substring].
    rewrite ?Nat.sub_0_r, substring_all.
    destruct ((48 <=? byte_val c1) && (byte_val c1 <=? 57)) eqn:E1; [|discriminate].
    destruct ((48 <=? byte_val c2) && (byte_val c2 <=? 57)) eqn:E2; [|discriminate].
    cbn [negb]. intros H. inversion H; subst.
    rewrite andb_true_iff, !Z.leb_le in E1, E2.
    exists c1, c2. unfold char_is_digit. repeat split; lia.
Qed.

Lemma getyear_digits (v1 v2 v3 v4 : Z) (rest : string) :
  forallb is_digit_val [v1; v2; v3; v4] = true ->
  getyear (digits_string [v1; v2; v3; v4] ++ rest)
  = Some (((v1 * 10 + v2) * 10 + v3) * 10 + v4, rest).
Proof.
  unfold is_digit_val. cbn [forallb].
  rewrite !andb_true_iff, !Z.leb_le. intros H.
  unfold getyear, digits_string, isDigit, digit_at.
  cbn [map string_of_list_ascii String.append String.length String.get
       Nat.ltb Nat.leb Nat.sub String.substring orb].
  rewrite ?Nat.sub_0_r, substring_all, !byte_val_digit by lia.
  repeat match goal with
         | |- context [48 <=? ?x] =>
             replace (48 <=? x) with true by (symmetry; apply Z.leb_le; lia)
         | |- context [?x <=? 57] =>
             replace (x <=? 57) with true by (symmetry; apply Z.leb_le; lia)
         end.
  cbn [andb negb]. do 2 f_equal. lia.
Qed.

Lemma getnum_fixed_digits (v1 v2 : Z) (rest : string) :
  forallb is_digit_val [v1; v2] = true ->
  getnum_fixed (digits_string [v1; v2] ++ rest) = Some (v1 * 10 + v2, rest).
Proof.
  unfold is_digit_val. cbn [forallb].
  rewrite !andb_true_iff, !Z.leb_le. intros H.
  unfold getnum_fixed, digits_string, isDigit, digit_at.
  cbn [map string_of_list_ascii String.append String.length String.get
       Nat.sub String.substring].
  rewrite ?Nat.sub_0_r, substring_all, !byte_val_digit by lia.
  repeat match goal with
         | |- context [48 <=? ?x] =>
             replace (48 <=? x) with true by (symmetry; apply Z.leb_le; lia)
         | |- context [?x <=? 57] =>
             replace (x <=? 57) with true by (symmetry; apply Z.leb_le; lia)
         end.
  cbn [andb negb]. do 2 f_equal. lia.
Qed.

(** A string that parses is the canonical form of the date it yields. *)
Lemma Parse_Some_inv (s : string) (t : Time) :
  Parse s = Some t -> calendar_date t /\ Format t = s.
Proof.
  unfold Parse. intros H.
  destruct (getyear s) as [[y s1]|] eqn:Ey; [|discriminate].
  destruct (getnum_fixed s1) as [[m s2]|] eqn:Em; [|discriminate].
  destruct ((m <=? 0) || (12 <? m)) eqn:Erange; [discriminate|].
  destruct (getnum_fixed s2) as [[d s3]|] eqn:Ed; [|discriminate].
  destruct s3 as [|c s3]; [|discriminate]. cbn [String.length Nat.eqb negb] in H.
  destruct ((d <? 1) || (daysIn m y <? d)) eqn:Eday; [discriminate|].
  apply orb_false_iff in Erange, Eday.
  rewrite Z.leb_gt, Z.ltb_ge in Erange. rewrite !Z.ltb_ge in Eday.
  assert (Hv : valid (mkTime y m d)) by (split; simpl; lia).
  rewrite (Date_valid _ _ _ Hv) in H. inversion H; subst t; clear H.
  apply getyear_inv in Ey. destruct Ey as (c1 & c2 & c3 & c4 & -> & H1 & H2 & H3 & H4 & ->).
  apply getnum_fixed_inv in Em. destruct Em as (c5 & c6 & -> & H5 & H6 & ->).
  apply getnum_fixed_inv in Ed. destruct Ed as (c7 & c8 & -> & H7 & H8 & ->).
  unfold char_is_digit in *.
  match goal with |- calendar_date ?t /\ _ => assert (Hc : calendar_date t) end.
  { split; [exact Hv|]. cbn [Year]. lia. }
  split; [exact Hc|].
  rewrite (Format_digits _ Hc). unfold date_digits, digits4, digits2.
  cbn [Year Month Day].
  set (v1 := byte_val c1 - 48) in *. set (v2 := byte_val c2 - 48) in *.
  set (v3 := byte_val c3 - 48) in *. set (v4 := byte_val c4 - 48) in *.
  set (v5 := byte_val c5 - 48) in *. set (v6 := byte_val c6 - 48) in *.
  set (v7 := byte_val c7 - 48) in *. set (v8 := byte_val c8 - 48) in *.
  set (y := ((v1 * 10 + v2) * 10 + v3) * 10 + v4).
  assert (y / 1000 = v1) by (unfold y; symmetry; apply Z.div_unique with (r := y - 1000 * v1); unfold y; lia).
  assert (y / 100 mod 10 = v2).
  { assert (y / 100 = v1 * 10 + v2)
      by (symmetry; apply Z.div_unique with (r := y - 100 * (v1 * 10 + v2)); unfold y; lia).
    rewrite H0. symmetry. apply Z.mod_unique with (q := v1); lia. }
  assert (y / 10 mod 10 = v3).
  { assert (y / 10 = (v1 * 10 + v2) * 10 + v3)
      by (symmetry; apply Z.div_unique with (r := v4); unfold y; lia).
    rewrite H9. symmetry. apply Z.mod_unique with (q := v1 * 10 + v2); lia. }
  assert (y mod 10 = v4)
    by (symmetry; apply Z.mod_unique with (q := (v1 * 10 + v2) * 10 + v3); unfold y; lia).
  assert ((v5 * 10 + v6) / 10 = v5)
    by (symmetry; apply Z.div_unique with (r := v6); lia).
  assert ((v5 * 10 + v6) mod 10 = v6)
    by (symmetry; apply Z.mod_unique with (q := v5); lia).
  assert ((v7 * 10 + v8) / 10 = v7)
    by (symmetry; apply Z.div_unique with (r := v8); lia).
  assert ((v7 * 10 + v8) mod 10 = v8)
    by (symmetry; apply Z.mod_unique with (q := v7); lia).
  repeat match goal with H : _ = _ |- _ => rewrite H end.
  unfold digits_string. cbn [app map string_of_list_ascii].
  unfold v1, v2, v3, v4, v5, v6, v7, v8. rewrite !digit_of_char. reflexivity.
Qed.

Lemma Parse_Format (t : Time) : calendar_date t -> Parse (Format t) = Some t.
Proof.
  intros Hc. pose proof Hc as [Hv Hy].
  pose proof (valid_day_le_31 t Hv) as Hd. pose proof Hv as [Hm Hdm].
  rewrite (Format_digits t Hc). unfold date_digits.
  rewrite !digits_string_app.
  unfold Parse.
  unfold digits4 at 1. rewrite getyear_digits by (apply digits4_ok; lia).
  unfold digits2 at 1. rewrite getnum_fixed_digits by (apply digits2_ok; lia).
  pose proof (hval_digits4 0 (Year t)) as Ey. unfold digits4 in Ey. cbn [hval] in Ey.
  pose proof (hval_digits2 0 (Month t)) as Em. unfold digits2 in Em. cbn [hval] in Em.
  pose proof (hval_digits2 0 (Day t)) as Ed. unfold digits2 in Ed. cbn [hval] in Ed.
  replace (((Year t / 1000 * 10 + Year t / 100 mod 10) * 10 + Year t / 10 mod 10) * 10
           + Year t mod 10) with (Year t) by lia.
  replace (Month t / 10 * 10 + Month t mod 10) with (Month t) by lia.
  replace ((Month t <=? 0) || (12 <? Month t)) with false
    by (symmetry; apply orb_false_iff; rewrite Z.leb_gt, Z.ltb_ge; lia).
  replace (digits_string (digits2 (Day t)))
    with (digits_string (digits2 (Day t)) ++ "")
    by (clear; induction (digits_string (digits2 (Day t))); simpl; congruence).
  unfold digits2 at 1. rewrite getnum_fixed_digits by (apply digits2_ok; lia).
  replace (Day t / 10 * 10 + Day t mod 10) with (Day t) by lia.
  cbn [String.length Nat.eqb negb].
  replace ((Day t <? 1) || (daysIn (Month t) (Year t) <? Day t)) with false
    by (symmetry; apply orb_false_iff; rewrite !Z.ltb_ge; lia).
  f_equal. destruct t as [y m d]. apply Date_valid. exact Hv.
Qed.

Lemma Parse_iff (s : string) (t : Time) :
  Parse s = Some t <-> calendar_date t /\ Format t = s.
Proof.
  split.
  - apply Parse_Some_inv.
  - intros [Hc <-]. apply Parse_Format. exact Hc.
Qed.

Lemma Format_inj (t u : Time) :
  calendar_date t -> calendar_date u -> Format t = Format u -> t = u.
Proof.
  intros Ht Hu E.
  pose proof (Parse_Format t Ht) as Pt. rewrite E, (Parse_Format u Hu) in Pt.
  congruence.
Qed.

Lemma Format_not_empty (t : Time) : calendar_date t -> Format t <> "".
Proof.
  intros Hc. rewrite (Format_digits t Hc). discriminate.
Qed.

(** ** The advancing loop *)

Lemma rank_year (t : Time) :
  valid t -> 372 * Year t <= rank t <= 372 * Year t + 371.
Proof.
  intros Hv. pose proof (valid_day_le_31 t Hv). destruct Hv as [Hm _].
  unfold rank. lia.
Qed.

Lemma rank_le_year (t u : Time) :
  valid t -> valid u -> rank t <= rank u -> Year t <= Year u.
Proof.
  intros Ht Hu. pose proof (rank_year t Ht). pose proof (rank_year u Hu). lia.
Qed.

Lemma appendInt_wide (y : Z) :
  99992 <= y <= 99999 ->
  appendInt y 4 = digits_string [9; 9; 9; 9; y - 99990].
Proof.
  intros Hy.
  assert (H : y = 99992 \/ y = 99993 \/ y = 99994 \/ y = 99995 \/ y = 99996
              \/ y = 99997 \/ y = 99998 \/ y = 99999) by lia.
  repeat (destruct H as [H | H]); subst y; reflexivity.
Qed.

(** Every date of the years 99992 to 99999 is formatted to a string above
    the canonical form of any date: the loop cannot pass these years. *)
Lemma Format_window (d now : Time) :
  valid d -> 99992 <= Year d <= 99999 -> calendar_date now ->
  String.leb (Format d) (Format now) = false.
Proof.
  intros Hd Hy Hnow.
  rewrite (Format_month_day d Hd), (appendInt_wide _ Hy).
  rewrite (Format_digits now Hnow).
  pose proof (date_digits_ok now Hnow) as Hok.
  unfold date_digits, digits4, digits2 in *. cbn [app] in *.
  match goal with
  | |- String.leb _ (digits_string (?a :: ?b :: ?c :: ?e :: ?m1 :: ?rest)) = _ =>
      change (digits_string (a :: b :: c :: e :: m1 :: rest))
        with (digits_string [a; b; c; e; m1] ++ digits_string rest);
      assert (Hcmp : String.compare (digits_string [9; 9; 9; 9; Year d - 99990])
                                    (digits_string [a; b; c; e; m1]) = Gt)
  end.
  { cbn [forallb] in Hok. rewrite !andb_true_iff in Hok.
    destruct Hok as (H1 & H2 & H3 & H4 & H5 & _).
    pose proof (compare_digits [9; 9; 9; 9; Year d - 99990]
                  [Year now / 1000; Year now / 100 mod 10; Year now / 10 mod 10;
                   Year now mod 10; Month now / 10] 0 0 eq_refl) as E.
    cbn [Z.compare] in E. rewrite <- E.
    - cbn [hval]. apply Z.compare_gt_iff.
      unfold is_digit_val in *. rewrite !andb_true_iff, !Z.leb_le in *.
      destruct Hnow as [[Hm _] _].
      assert (Month now / 10 <= 1)
        by (apply Z.lt_succ_r; apply Z.div_lt_upper_bound; lia).
      lia.
    - cbn [forallb]. unfold is_digit_val.
      rewrite !andb_true_iff, !Z.leb_le. repeat split; lia.
    - cbn [forallb]. rewrite H1, H2, H3, H4, H5. reflexivity. }
  unfold String.leb. rewrite compare_app by reflexivity.
  rewrite Hcmp. reflexivity.
Qed.

(** On a date past the canonical form the string order may be anything,
    yet such a date is after every date of the canonical form. *)
Lemma Format_gt_Before (d now : Time) :
  valid d -> 0 <= Year d -> calendar_date now ->
  String.leb (Format d) (Format now) = false -> Before now d.
Proof.
  intros Hd Hy Hnow Hleb.
  destruct (Z_le_gt_dec (Year d) 9999) as [Hle|Hgt].
  - assert (Hc : calendar_date d) by (split; [exact Hd | lia]).
    unfold String.leb in Hleb. rewrite (compare_Format d now Hc Hnow) in Hleb.
    apply (Before_rank now d (proj1 Hnow) Hd).
    rewrite (Compare_rank d now Hd (proj1 Hnow)) in Hleb.
    destruct (rank d ?= rank now) eqn:E; try discriminate.
    rewrite Z.compare_gt_iff in E. lia.
  - apply (Before_rank now d (proj1 Hnow) Hd).
    pose proof (rank_year d Hd). pose proof (rank_year now (proj1 Hnow)).
    destruct Hnow as [_ Hy']. lia.
Qed.

Section Loop.

Variable step : Time -> Time.
Variable now : Time.

Hypothesis step_valid : forall d, valid d -> valid (step d).
Hypothesis step_rank :
  forall d, valid d -> rank d + 1 <= rank (step d) <= rank d + 1600.
Hypothesis now_date : calendar_date now.

Lemma advance_fuel_mono (fuel fuel' : nat) (d r : Time) :
  advance fuel step now d = Some r -> (fuel <= fuel')%nat ->
  advance fuel' step now d = Some r.
Proof.
  revert fuel' d. induction fuel as [|fuel IH]; intros fuel' d H Hle.
  - discriminate.
  - destruct fuel' as [|fuel']; [lia|].
    simpl in *. destruct (String.leb (Format d) (Format now)).
    + apply IH; [exact H | lia].
    + exact H.
Qed.

(** The loop leaves: the date it holds moves up by at least one rank in
    every iteration and cannot pass the years 99992 to 99999. *)
Lemma advance_terminates (fuel : nat) (d : Time) :
  valid d -> rank d < loop_bound ->
  loop_bound - rank d < Z.of_nat fuel ->
  exists r, advance fuel step now d = Some r.
Proof.
  revert d. induction fuel as [|fuel IH]; intros d Hd Hb Hf.
  - unfold loop_bound in *. lia.
  - simpl. destruct (String.leb (Format d) (Format now)) eqn:E.
    + assert (Hy : ~ 99992 <= Year d <= 99999).
      { intros Hy. rewrite (Format_window d now Hd Hy now_date) in E. discriminate. }
      pose proof (rank_year d Hd). pose proof (step_rank d Hd).
      unfold loop_bound in *.
      apply IH; [apply step_valid; exact Hd | lia | lia].
    + exists d. reflexivity.
Qed.

(** What the loop returns: a date reached by finitely many steps, the
    first of them whose string is above that of [now]. *)
Lemma advance_Some_inv (fuel : nat) (d r : Time) :
  advance fuel step now d = Some r ->
  exists k : nat,
    (k < fuel)%nat
    /\ r = Nat.iter k step d
    /\ String.leb (Format r) (Format now) = false
    /\ forall j : nat, (j < k)%nat ->
         String.leb (Format (Nat.iter j step d)) (Format now) = true.
Proof.
  revert d. induction fuel as [|fuel IH]; intros d H.
  - discriminate.
  - simpl in H. destruct (String.leb (Format d) (Format now)) eqn:E.
    + destruct (IH _ H) as (k & Hk & Hr & Hexit & Hbefore).
      exists (S k). rewrite Nat.iter_succ_r. split; [lia|].
      split; [exact Hr|]. split; [exact Hexit|].
      intros [|j] Hj; [exact E|].
      rewrite Nat.iter_succ_r. apply Hbefore. lia.
    + inversion H; subst r. exists 0%nat. split; [lia|].
      split; [reflexivity|].
      split; [exact E|]. intros j Hj. lia.
Qed.

(** The loop makes exactly as many steps as there are dates at or below
    [now] on its way. *)
Lemma advance_exact (k : nat) (d : Time) :
  (forall j : nat, (j < k)%nat ->
     String.leb (Format (Nat.iter j step d)) (Format now) = true) ->
  String.leb (Format (Nat.iter k step d)) (Format now) = false ->
  forall fuel : nat,
    ((k < fuel)%nat -> advance fuel step now d = Some (Nat.iter k step d))
    /\ ((fuel <= k)%nat -> advance fuel step now d = None).
Proof.
  revert d. induction k as [|k IH]; intros d Hbefore Hexit fuel.
  - split; intros Hf.
    + destruct fuel as [|fuel]; [lia|]. simpl in *. rewrite Hexit. reflexivity.
    + assert (fuel = 0%nat) by lia. subst fuel. reflexivity.
  - destruct fuel as [|fuel].
    + split; intros Hf; [lia | reflexivity].
    + simpl advance. pose proof (Hbefore 0%nat ltac:(lia)) as H0.
      simpl in H0. rewrite H0.
      rewrite Nat.iter_succ_r in Hexit.
      assert (Hb' : forall j : nat, (j < k)%nat ->
                String.leb (Format (Nat.iter j step (step d))) (Format now) = true).
      { intros j Hj. rewrite <- Nat.iter_succ_r. apply Hbefore. lia. }
      destruct (IH (step d) Hb' Hexit fuel) as [IH1 IH2].
      rewrite Nat.iter_succ_r.
      split; intros Hf; [apply IH1 | apply IH2]; lia.
Qed.

Lemma iter_step_valid (k : nat) (d : Time) :
  valid d -> valid (Nat.iter k step d).
Proof.
  intros Hd. induction k as [|k IH]; [exact Hd|].
  rewrite Nat.iter_succ. apply step_valid. exact IH.
Qed.

Lemma iter_step_rank (k : nat) (d : Time) :
  valid d -> rank d <= rank (Nat.iter k step d).
Proof.
  intros Hd. induction k as [|k IH]; [simpl; lia|].
  rewrite Nat.iter_succ.
  pose proof (step_rank _ (iter_step_valid k d Hd)). lia.
Qed.

Lemma advance_valid (fuel : nat) (d r : Time) :
  valid d -> advance fuel step now d = Some r -> valid r /\ rank d <= rank r.
Proof.
  intros Hd H. destruct (advance_Some_inv fuel d r H) as (k & _ & -> & _).
  split; [apply iter_step_valid | apply iter_step_rank]; exact Hd.
Qed.

(** A first date at or below [now] is passed. *)
Lemma advance_passes (fuel : nat) (d r : Time) :
  valid d -> String.leb (Format d) (Format now) = true ->
  advance fuel step now d = Some r -> rank d + 1 <= rank r.
Proof.
  intros Hd Hguard H. destruct fuel as [|fuel]; [discriminate|].
  simpl in H. rewrite Hguard in H.
  destruct (advance_valid fuel (step d) r (step_valid d Hd) H) as [_ Hr].
  pose proof (step_rank d Hd). lia.
Qed.

(** The date returned is after [now], in the calendar and as a string. *)
Lemma advance_after (fuel : nat) (d r : Time) :
  valid d -> 0 <= Year d -> advance fuel step now d = Some r ->
  Before now r /\ String.ltb (Format now) (Format r) = true.
Proof.
  intros Hd Hy H.
  destruct (advance_valid fuel d r Hd H) as [Hr Hrank].
  destruct (advance_Some_inv fuel d r H) as (k & _ & _ & Hexit & _).
  split.
  - apply Format_gt_Before; try assumption.
    pose proof (rank_le_year d r Hd Hr Hrank). lia.
  - unfold String.leb in Hexit. unfold String.ltb.
    rewrite String.compare_antisym.
    destruct (String.compare (Format r) (Format now)); try discriminate.
    reflexivity.
Qed.

(** *** Dates that stay within the canonical form *)

Hypothesis step_mono :
  forall a b, valid a -> valid b -> rank a <= rank b -> rank (step a) <= rank (step b).
Hypothesis step_now_year : Year (step now) <= 9999.

(** While the loop holds a date not after the step of [now], the string
    guard is the calendar guard. *)
Lemma advance_is_chrono (fuel : nat) (d : Time) :
  valid d -> 0 <= Year d -> Year d <= 9999 ->
  (forall r, advance fuel step now d = Some r ->
     rank r <= Z.max (rank d) (rank (step now)))
  /\ advance_chrono fuel step now d = advance fuel step now d.
Proof.
  revert d. induction fuel as [|fuel IH]; intros d Hd Hy0 Hy.
  - split; [discriminate | reflexivity].
  - assert (Hc : calendar_date d) by (split; [exact Hd | lia]).
    simpl. unfold String.leb. rewrite (compare_Format d now Hc now_date).
    pose proof (Compare_rank d now Hd (proj1 now_date)) as Ecmp.
    destruct (Compare d now) eqn:E.
    + symmetry in Ecmp. apply Z.compare_eq in Ecmp.
      pose proof (step_mono d now Hd (proj1 now_date) ltac:(lia)) as Hs.
      pose proof (step_rank d Hd) as Hr.
      pose proof (step_valid d Hd) as Hv.
      pose proof (rank_le_year _ _ Hv (step_valid _ (proj1 now_date)) Hs).
      pose proof (rank_le_year d (step d) Hd Hv ltac:(lia)).
      destruct (IH (step d) Hv ltac:(lia) ltac:(lia)) as [IH1 IH2].
      split; [|exact IH2]. intros r Hret. specialize (IH1 r Hret). lia.
    + symmetry in Ecmp. rewrite Z.compare_lt_iff in Ecmp.
      pose proof (step_mono d now Hd (proj1 now_date) ltac:(lia)) as Hs.
      pose proof (step_rank d Hd) as Hr.
      pose proof (step_valid d Hd) as Hv.
      pose proof (rank_le_year _ _ Hv (step_valid _ (proj1 now_date)) Hs).
      pose proof (rank_le_year d (step d) Hd Hv ltac:(lia)).
      destruct (IH (step d) Hv ltac:(lia) ltac:(lia)) as [IH1 IH2].
      split; [|exact IH2]. intros r Hret. specialize (IH1 r Hret). lia.
    + split; [|reflexivity]. intros r Hret. inversion Hret; subst. lia.
Qed.

Lemma advance_in_form (fuel : nat) (d r : Time) :
  valid d -> 0 <= Year d -> Year d <= 9999 ->
  advance fuel step now d = Some r -> calendar_date r.
Proof.
  intros Hd Hy0 Hy H.
  destruct (advance_valid fuel d r Hd H) as [Hr Hrank].
  destruct (advance_is_chrono fuel d Hd Hy0 Hy) as [Hmax _].
  specialize (Hmax r H).
  pose proof (rank_year d Hd). pose proof (rank_year r Hr).
  pose proof (rank_year _ (step_valid _ (proj1 now_date))).
  split; [exact Hr|]. lia.
Qed.

End Loop.

(** *** The three steps *)

Lemma step_days_valid (n : Z) (d : Time) :
  0 <= n -> valid d -> valid (AddDate d 0 0 n).
Proof.
  intros Hn Hd. rewrite AddDate_days by assumption.
  apply add_days_valid. exact Hd.
Qed.

Lemma step_days_rank (n : Z) (d : Time) :
  1 <= n <= 400 -> valid d ->
  rank d + 1 <= rank (AddDate d 0 0 n) <= rank d + 1600.
Proof.
  intros Hn Hd. rewrite AddDate_days by (try assumption; lia).
  pose proof (add_days_rank (Z.to_nat n) d Hd). lia.
Qed.

Lemma step_days_mono (n : Z) (a b : Time) :
  0 <= n -> valid a -> valid b -> rank a <= rank b ->
  rank (AddDate a 0 0 n) <= rank (AddDate b 0 0 n).
Proof.
  intros Hn Ha Hb Hle. rewrite !AddDate_days by assumption.
  apply add_days_mono; assumption.
Qed.

Lemma step_year_valid (d : Time) : valid d -> valid (AddDate d 1 0 0).
Proof.
  intros Hd. rewrite AddDate_year by assumption. apply add_year_valid. exact Hd.
Qed.

Lemma step_year_rank (d : Time) :
  valid d -> rank d + 1 <= rank (AddDate d 1 0 0) <= rank d + 1600.
Proof.
  intros Hd. rewrite AddDate_year by assumption.
  pose proof (add_year_rank d Hd). lia.
Qed.

Lemma step_year_mono (a b : Time) :
  valid a -> valid b -> rank a <= rank b ->
  rank (AddDate a 1 0 0) <= rank (AddDate b 1 0 0).
Proof.
  intros Ha Hb Hle. rewrite !AddDate_year by assumption.
  apply add_year_mono; assumption.
Qed.

Lemma AddDate_one_day (d : Time) : valid d -> AddDate d 0 0 1 = next_day d.
Proof. intros Hd. rewrite AddDate_days by (try assumption; lia). reflexivity. Qed.

(** ** Scanning the text of a rule *)

Lemma word_byte_not_space (b : Z) : word_byte b = true -> fmt.isSpace b = false.
Proof.
  intros H. unfold word_byte in H. rewrite andb_true_iff, !Z.leb_le in H.
  apply negb_true_iff.
  pose proof (forall_below (fun b => (b <? 33) || negb (fmt.isSpace b)) 127
                ltac:(vm_compute; reflexivity) b ltac:(lia)) as H'.
  cbv beta in H'. apply orb_true_iff in H'. destruct H' as [H'|H']; [|exact H'].
  apply Z.ltb_lt in H'. lia.
Qed.

Lemma decode_ascii (l : list Z) :
  forallb word_byte l = true -> utf8.decode l = l.
Proof.
  induction l as [|b l IH]; intros H; [reflexivity|].
  cbn [forallb] in H. apply andb_true_iff in H. destruct H as [Hb Hl].
  unfold word_byte in Hb. rewrite andb_true_iff, !Z.leb_le in Hb.
  cbn [utf8.decode].
  replace (b <? 128) with true by (symmetry; apply Z.ltb_lt; lia).
  f_equal. apply IH. exact Hl.
Qed.

Lemma encode_ascii (l : list Z) :
  forallb word_byte l = true -> flat_map utf8.encode l = l.
Proof.
  induction l as [|b l IH]; intros H; [reflexivity|].
  cbn [forallb] in H. apply andb_true_iff in H. destruct H as [Hb Hl].
  unfold word_byte in Hb. rewrite andb_true_iff, !Z.leb_le in Hb.
  cbn [flat_map]. unfold utf8.encode at 1.
  replace ((0 <=? b) && (b <=? 127)) with true
    by (symmetry; apply andb_true_iff; rewrite !Z.leb_le; lia).
  cbn [app]. f_equal. apply IH. exact Hl.
Qed.

Lemma of_bytes_bytes (s : string) : utf8.of_bytes (utf8.bytes s) = s.
Proof.
  unfold utf8.of_bytes, utf8.bytes. rewrite map_map.
  rewrite (map_ext _ (fun c => c)) by (intros c; apply byte_chr_val).
  rewrite map_id. apply string_of_list_ascii_of_string.
Qed.

Lemma read_while_all (l : list Z) :
  forallb word_byte l = true -> fmt.read_while fmt.notSpace l = (l, []).
Proof.
  induction l as [|b l IH]; intros H; [reflexivity|].
  cbn [forallb] in H. apply andb_true_iff in H. destruct H as [Hb Hl].
  cbn [fmt.read_while]. unfold fmt.notSpace at 1.
  rewrite (word_byte_not_space b Hb). cbn [negb].
  rewrite (IH Hl). reflexivity.
Qed.

Lemma SkipSpace_word (b : Z) (l : list Z) :
  word_byte b = true -> fmt.SkipSpace (b :: l) = Ok (b :: l).
Proof.
  intros Hb. cbn [fmt.SkipSpace].
  rewrite (word_byte_not_space b Hb).
  unfold word_byte in Hb. rewrite andb_true_iff, !Z.leb_le in Hb.
  replace (b =? 13) with false by (symmetry; apply Z.eqb_neq; lia).
  replace (b =? 10) with false by (symmetry; apply Z.eqb_neq; lia).
  reflexivity.
Qed.

Lemma skip_blanks_word (b : Z) (l : list Z) :
  word_byte b = true -> fmt.skip_blanks (b :: l) = b :: l.
Proof.
  intros Hb. cbn [fmt.skip_blanks].
  rewrite (word_byte_not_space b Hb). reflexivity.
Qed.

(** A "w " followed by one word of printable ASCII scans to that word. *)
Lemma Sscanf_w_word (body : string) :
  body <> "" -> forallb word_byte (utf8.bytes body) = true ->
  fmt.Sscanf_w (String "w" (String " " body)) = Ok body.
Proof.
  intros Hne Hw. unfold fmt.Sscanf_w, utf8.runes.
  change (utf8.bytes (String "w" (String " " body)))
    with (119 :: 32 :: utf8.bytes body).
  cbn [utf8.decode]. change (119 <? 128) with true. change (32 <? 128) with true.
  cbv iota. rewrite (decode_ascii _ Hw).
  destruct (utf8.bytes body) as [|b l] eqn:Eb.
  - exfalso. apply Hne. rewrite <- (of_bytes_bytes body), Eb. reflexivity.
  - cbn [forallb] in Hw. pose proof Hw as Hw'.
    apply andb_true_iff in Hw'. destruct Hw' as [Hb Hl].
    cbn [fmt.literal]. change (119 =? 119) with true. cbv iota.
    cbn [bind fmt.format_space]. change (fmt.isSpace 32) with true.
    change (32 =? 10) with false. cbn [negb]. cbv iota.
    rewrite (skip_blanks_word b l Hb). cbn [bind].
    rewrite (SkipSpace_word b l Hb). cbn [bind].
    unfold fmt.convertString. rewrite (SkipSpace_word b l Hb). cbn [bind fmt.notEOF].
    unfold fmt.token. rewrite (SkipSpace_word b l Hb). cbn [bind].
    rewrite (read_while_all (b :: l)) by exact Hw.
    unfold utf8.of_runes. rewrite (encode_ascii (b :: l)) by exact Hw.
    rewrite <- Eb, of_bytes_bytes. reflexivity.
Qed.

(** *** The text of an "every N days" rule *)

Lemma rule_text_days (n : Z) :
  1 <= n <= 400 ->
  let text := rule_text (EveryNDays n) in
  String.eqb text "" = false /\ String.eqb text "y" = false
  /\ strings.HasPrefix text "d " = true /\ fmt.Sscanf_d text = Ok n.
Proof.
  intros Hn text.
  pose proof (forall_below
    (fun n => (n =? 0)
              || (negb (String.eqb (rule_text (EveryNDays n)) "")
                  && negb (String.eqb (rule_text (EveryNDays n)) "y")
                  && strings.HasPrefix (rule_text (EveryNDays n)) "d "
                  && match fmt.Sscanf_d (rule_text (EveryNDays n)) with
                     | Ok m => m =? n
                     | Err _ => false
                     end)) 401 ltac:(vm_compute; reflexivity) n ltac:(lia)) as H.
  cbv beta in H. fold text in H.
  apply orb_true_iff in H. destruct H as [H|H]; [apply Z.eqb_eq in H; lia|].
  rewrite !andb_true_iff, !negb_true_iff in H.
  destruct H as [[[H1 H2] H3] H4].
  repeat split; try assumption.
  destruct (fmt.Sscanf_d text) as [m|e]; [|discriminate].
  apply Z.eqb_eq in H4. subst m. reflexivity.
Qed.

(** *** The text of a weekly rule *)

Lemma Itoa_weekday (d : Z) :
  1 <= d <= 7 -> strconv.Itoa d = String (digit d) "".
Proof.
  intros Hd.
  assert (H : d = 1 \/ d = 2 \/ d = 3 \/ d = 4 \/ d = 5 \/ d = 6 \/ d = 7) by lia.
  repeat (destruct H as [H | H]); subst d; reflexivity.
Qed.

Lemma Atoi_weekday (d : Z) :
  1 <= d <= 7 -> strconv.Atoi (String (digit d) "") = Ok d.
Proof.
  intros Hd.
  assert (H : d = 1 \/ d = 2 \/ d = 3 \/ d = 4 \/ d = 5 \/ d = 6 \/ d = 7) by lia.
  repeat (destruct H as [H | H]); subst d; reflexivity.
Qed.

Lemma weekday_byte (d : Z) : 1 <= d <= 7 -> word_byte (byte_val (digit d)) = true.
Proof.
  intros Hd. rewrite byte_val_digit by lia.
  unfold word_byte. apply andb_true_iff. rewrite !Z.leb_le. lia.
Qed.

Lemma weekday_not_comma (d : Z) : 1 <= d <= 7 -> Ascii.eqb (digit d) "," = false.
Proof.
  intros Hd.
  assert (H : d = 1 \/ d = 2 \/ d = 3 \/ d = 4 \/ d = 5 \/ d = 6 \/ d = 7) by lia.
  repeat (destruct H as [H | H]); subst d; reflexivity.
Qed.

Lemma weekdays_text (d : Z) (ds : list Z) :
  Forall (fun d => 1 <= d <= 7) (d :: ds) ->
  let body := strings.Join (map strconv.Itoa (d :: ds)) "," in
  body <> "" /\ forallb word_byte (utf8.bytes body) = true
  /\ strings.Split body "," = map (fun d => String (digit d) "") (d :: ds).
Proof.
  revert d. induction ds as [|d' ds IH]; intros d Hall body.
  - inversion Hall as [|? ? Hd _]; subst. subst body.
    unfold strings.Join. cbn [map String.concat].
    rewrite (Itoa_weekday d Hd).
    split; [discriminate|]. split.
    + unfold utf8.bytes. cbn [list_ascii_of_string map forallb].
      rewrite (weekday_byte d Hd). reflexivity.
    + cbn [strings.Split]. rewrite (weekday_not_comma d Hd). reflexivity.
  - inversion Hall as [|? ? Hd Hrest]; subst.
    destruct (IH d' Hrest) as (IH1 & IH2 & IH3).
    subst body. unfold strings.Join in *.
    change (String.concat "," (map strconv.Itoa (d :: d' :: ds)))
      with (strconv.Itoa d ++ "," ++ String.concat "," (map strconv.Itoa (d' :: ds))).
    rewrite (Itoa_weekday d Hd).
    set (rest := String.concat "," (map strconv.Itoa (d' :: ds))) in *.
    cbn [String.append].
    split; [discriminate|]. split.
    + unfold utf8.bytes in *. cbn [list_ascii_of_string map forallb].
      rewrite (weekday_byte d Hd). rewrite IH2. reflexivity.
    + cbn [strings.Split]. rewrite (weekday_not_comma d Hd).
      change (Ascii.eqb "," ",") with true. cbv iota.
      rewrite IH3. reflexivity.
Qed.

Lemma check_days_weekdays (ds : list Z) :
  Forall (fun d => 1 <= d <= 7) ds ->
  check_days (map (fun d => String (digit d) "") ds) = true.
Proof.
  induction 1 as [|d ds Hd _ IH]; [reflexivity|].
  cbn [map check_days]. rewrite (Atoi_weekday d Hd).
  replace ((d <? 1) || (d >? 7)) with false.
  - exact IH.
  - symmetry. apply orb_false_iff. split; [apply Z.ltb_ge; lia|].
    rewrite Z.gtb_ltb. apply Z.ltb_ge. lia.
Qed.

Lemma rule_text_week (ds : list Z) :
  well_formed (WeeklyOnDays ds) ->
  exists daysOfWeek,
    rule_text (WeeklyOnDays ds) = String "w" (String " " daysOfWeek)
    /\ fmt.Sscanf_w (rule_text (WeeklyOnDays ds)) = Ok daysOfWeek
    /\ check_days (strings.Split daysOfWeek ",") = true.
Proof.
  intros [Hne Hall]. destruct ds as [|d ds]; [congruence|].
  destruct (weekdays_text d ds Hall) as (H1 & H2 & H3).
  exists (strings.Join (map strconv.Itoa (d :: ds)) ",").
  split; [reflexivity|]. split.
  - apply Sscanf_w_word; assumption.
  - rewrite H3. apply check_days_weekdays. exact Hall.
Qed.

(** *** [NextDate] on the three kinds of rule *)

Lemma NextDate_yearly (fuel : nat) (now d : Time) (date : string) :
  Parse date = Some d ->
  NextDate fuel now date "y"
  = returned (advance fuel (fun d => AddDate d 1 0 0) now (AddDate d 1 0 0)).
Proof. intros H. unfold NextDate. rewrite H. reflexivity. Qed.

Lemma NextDate_days (fuel : nat) (now d : Time) (date : string) (n : Z) :
  Parse date = Some d -> 1 <= n <= 400 ->
  NextDate fuel now date (rule_text (EveryNDays n))
  = returned (advance fuel (fun d => AddDate d 0 0 n) now (AddDate d 0 0 n)).
Proof.
  intros H Hn. destruct (rule_text_days n Hn) as (H1 & H2 & H3 & H4).
  unfold NextDate. rewrite H, H1, H2, H3, H4.
  replace ((n <=? 0) || (n >? 400)) with false; [reflexivity|].
  symmetry. apply orb_false_iff. split; [apply Z.leb_gt; lia|].
  rewrite Z.gtb_ltb. apply Z.ltb_ge. lia.
Qed.

Lemma NextDate_week (fuel : nat) (now d : Time) (date : string) (ds : list Z) :
  Parse date = Some d -> well_formed (WeeklyOnDays ds) ->
  NextDate fuel now date (rule_text (WeeklyOnDays ds))
  = returned (advance fuel (fun d => AddDate d 0 0 1) now (AddDate d 0 0 1)).
Proof.
  intros H Hwf. destruct (rule_text_week ds Hwf) as (w & E & Hscan & Hcheck).
  unfold NextDate. rewrite H, Hscan. rewrite E. cbn [String.eqb Ascii.eqb].
  unfold strings.HasPrefix. cbn.
  replace (String.prefix "" w) with true by (destruct w; reflexivity).
  rewrite Hcheck. reflexivity.
Qed.

(** ** The engine on well-formed rules *)

Lemma NextDate_rule (fuel : nat) (now d : Time) (date : string) (rule : RecurrenceRule) :
  Parse date = Some d -> well_formed rule ->
  NextDate fuel now date (rule_text rule)
  = returned (advance fuel (rule_step rule) now (rule_step rule d)).
Proof.
  intros H Hwf. destruct rule as [| |n|ds].
  - destruct Hwf.
  - apply NextDate_yearly. exact H.
  - apply NextDate_days; assumption.
  - apply NextDate_week; assumption.
Qed.

Lemma rule_step_valid (rule : RecurrenceRule) (d : Time) :
  well_formed rule -> valid d -> valid (rule_step rule d).
Proof.
  intros Hwf Hd. destruct rule as [| |n|ds]; cbn [rule_step].
  - destruct Hwf.
  - apply step_year_valid. exact Hd.
  - apply step_days_valid; [cbn in Hwf; lia | exact Hd].
  - apply step_days_valid; [lia | exact Hd].
Qed.

Lemma rule_step_rank (rule : RecurrenceRule) (d : Time) :
  well_formed rule -> valid d ->
  rank d + 1 <= rank (rule_step rule d) <= rank d + 1600.
Proof.
  intros Hwf Hd. destruct rule as [| |n|ds]; cbn [rule_step].
  - destruct Hwf.
  - apply step_year_rank. exact Hd.
  - apply step_days_rank; [exact Hwf | exact Hd].
  - apply step_days_rank; [lia | exact Hd].
Qed.

Lemma rule_step_mono (rule : RecurrenceRule) (a b : Time) :
  well_formed rule -> valid a -> valid b -> rank a <= rank b ->
  rank (rule_step rule a) <= rank (rule_step rule b).
Proof.
  intros Hwf Ha Hb Hle. destruct rule as [| |n|ds]; cbn [rule_step].
  - destruct Hwf.
  - apply step_year_mono; assumption.
  - apply step_days_mono; try assumption. cbn in Hwf. lia.
  - apply step_days_mono; try assumption. lia.
Qed.

Lemma returned_Some (o : option Time) (res : result error string) :
  returned o = Some res -> exists r, o = Some r /\ res = Ok (Format r).
Proof.
  destruct o as [r|]; [|discriminate].
  intros H. inversion H. exists r. split; reflexivity.
Qed.

Lemma NextDate_fuel_mono (fuel fuel' : nat) (now : Time) (date repeat : string)
    (res : result error string) :
  NextDate fuel now date repeat = Some res -> (fuel <= fuel')%nat ->
  NextDate fuel' now date repeat = Some res.
Proof.
  intros H Hle. unfold NextDate in *.
  destruct (Parse date) as [d|]; [|exact H].
  destruct (String.eqb repeat ""); [exact H|].
  destruct (String.eqb repeat "y").
  { apply returned_Some in H. destruct H as (r & H & ->).
    rewrite (advance_fuel_mono _ _ _ _ _ _ H Hle). reflexivity. }
  destruct (strings.HasPrefix repeat "d ").
  { destruct (fmt.Sscanf_d repeat) as [days|]; [|exact H].
    destruct ((days <=? 0) || (days >? 400)); [exact H|].
    apply returned_Some in H. destruct H as (r & H & ->).
    rewrite (advance_fuel_mono _ _ _ _ _ _ H Hle). reflexivity. }
  destruct (strings.HasPrefix repeat "w "); [|exact H].
  destruct (fmt.Sscanf_w repeat) as [w|]; [|exact H].
  destruct (negb (check_days (strings.Split w ","))); [exact H|].
  apply returned_Some in H. destruct H as (r & H & ->).
  rewrite (advance_fuel_mono _ _ _ _ _ _ H Hle). reflexivity.
Qed.

(** [NextDate] returns at most one result. *)
Lemma NextDate_returns_unique (now : Time) (date repeat : string)
    (res res' : result error string) :
  NextDate_returns now date repeat res -> NextDate_returns now date repeat res' ->
  res = res'.
Proof.
  intros [f H] [f' H'].
  pose proof (NextDate_fuel_mono f (Nat.max f f') _ _ _ _ H (Nat.le_max_l _ _)) as E.
  pose proof (NextDate_fuel_mono f' (Nat.max f f') _ _ _ _ H' (Nat.le_max_r _ _)) as E'.
  congruence.
Qed.

Lemma calendar_date_rank (t : Time) :
  calendar_date t -> 0 <= rank t <= 372 * 9999 + 371.
Proof.
  intros [Hv Hy]. pose proof (rank_year t Hv). lia.
Qed.

Lemma enough_fuel_val : Z.of_nat enough_fuel = 37200000.
Proof. unfold enough_fuel. rewrite Z2Nat.id by lia. reflexivity. Qed.

(** The loop of a well-formed rule, started at the first step from a
    parsed anchor, leaves within [enough_fuel] iterations. *)
Lemma rule_loop_terminates (now a : Time) (rule : RecurrenceRule) (fuel : nat) :
  calendar_date now -> calendar_date a -> well_formed rule ->
  (enough_fuel <= fuel)%nat ->
  exists r, advance fuel (rule_step rule) now (rule_step rule a) = Some r.
Proof.
  intros Hnow Ha Hwf Hfuel.
  pose proof (calendar_date_rank a Ha) as Hr.
  pose proof (rule_step_rank rule a Hwf (proj1 Ha)) as Hs.
  pose proof enough_fuel_val as Hf.
  apply (advance_terminates (rule_step rule) now
           (fun d => rule_step_valid rule d Hwf)
           (fun d => rule_step_rank rule d Hwf) Hnow).
  - apply rule_step_valid; [exact Hwf | exact (proj1 Ha)].
  - unfold loop_bound. lia.
  - unfold loop_bound. lia.
Qed.

Lemma rule_loop_after (now a r : Time) (rule : RecurrenceRule) (fuel : nat) :
  calendar_date now -> calendar_date a -> well_formed rule ->
  advance fuel (rule_step rule) now (rule_step rule a) = Some r ->
  valid r /\ Before now r /\ String.ltb (Format now) (Format r) = true.
Proof.
  intros Hnow Ha Hwf H.
  pose proof (rule_step_valid rule a Hwf (proj1 Ha)) as Hv.
  pose proof (rule_step_rank rule a Hwf (proj1 Ha)) as Hs.
  pose proof (calendar_date_rank a Ha) as Hr.
  pose proof (rank_year _ Hv) as Hy.
  split.
  - apply (advance_valid (rule_step rule) now
             (fun d => rule_step_valid rule d Hwf)
             (fun d => rule_step_rank rule d Hwf) fuel _ r Hv H).
  - apply (advance_after (rule_step rule) now
             (fun d => rule_step_valid rule d Hwf)
             (fun d => rule_step_rank rule d Hwf) Hnow fuel _ r Hv ltac:(lia) H).
Qed.

(** When a step from [now] and from the anchor stays in the canonical form,
    so does every date the loop holds, and the two guards agree. *)
Lemma rule_loop_in_form (now a : Time) (rule : RecurrenceRule) (fuel : nat) :
  calendar_date now -> calendar_date a -> well_formed rule ->
  Year (rule_step rule now) <= 9999 -> Year (rule_step rule a) <= 9999 ->
  advance_chrono fuel (rule_step rule) now (rule_step rule a)
  = advance fuel (rule_step rule) now (rule_step rule a)
  /\ forall r, advance fuel (rule_step rule) now (rule_step rule a) = Some r ->
       calendar_date r.
Proof.
  intros Hnow Ha Hwf Hyn Hya.
  pose proof (rule_step_valid rule a Hwf (proj1 Ha)) as Hv.
  pose proof (rule_step_rank rule a Hwf (proj1 Ha)) as Hs.
  pose proof (calendar_date_rank a Ha) as Hr.
  pose proof (rank_year _ Hv) as Hy.
  split.
  - apply (advance_is_chrono (rule_step rule) now
             (fun d => rule_step_valid rule d Hwf)
             (fun d => rule_step_rank rule d Hwf) Hnow
             (fun x y => rule_step_mono rule x y Hwf) Hyn fuel _ Hv ltac:(lia) Hya).
  - intros r H.
    apply (advance_in_form (rule_step rule) now
             (fun d => rule_step_valid rule d Hwf)
             (fun d => rule_step_rank rule d Hwf) Hnow
             (fun x y => rule_step_mono rule x y Hwf) Hyn fuel _ r Hv ltac:(lia) Hya H).
Qed.

(** ** The result of the engine *)

(** C1: for a today and an anchor that parse as calendar dates and a
    well-formed rule (yearly, every N days with 1 <= N <= 400, or weekly
    with at least one day and all days in 1..7), [NextDate] succeeds, and
    the date it returns is strictly after today, both in the calendar and
    as the string it hands back. *)
Theorem NextDate_after_today
    (today anchor : string) (now a : Time) (rule : RecurrenceRule) :
  Parse today = Some now -> Parse anchor = Some a -> well_formed rule ->
  exists r : Time,
    NextDate_returns now anchor (rule_text rule) (Ok (Format r))
    /\ valid r /\ Before now r /\ String.ltb today (Format r) = true.
Proof.
  intros Ht Ha Hwf.
  apply Parse_Some_inv in Ht. destruct Ht as [Hnow <-].
  pose proof (proj1 (Parse_Some_inv _ _ Ha)) as Hca.
  destruct (rule_loop_terminates now a rule enough_fuel Hnow Hca Hwf (Nat.le_refl _))
    as [r Hr].
  exists r. split.
  - exists enough_fuel. rewrite (NextDate_rule _ _ a _ _ Ha Hwf), Hr. reflexivity.
  - exact (rule_loop_after now a r rule enough_fuel Hnow Hca Hwf Hr).
Qed.

Lemma NextDate_after_today_witness :
  exists r : Time,
    NextDate_returns (mkTime 2024 3 1) "20240101" (rule_text (EveryNDays 7))
      (Ok (Format r))
    /\ valid r /\ Before (mkTime 2024 3 1) r
    /\ String.ltb "20240301" (Format r) = true.
Proof.
  apply (NextDate_after_today "20240301" "20240101"
           (mkTime 2024 3 1) (mkTime 2024 1 1) (EveryNDays 7)).
  - reflexivity.
  - reflexivity.
  - simpl. lia.
Defined.

(** C7: for a today and an anchor that parse and a well-formed rule, the
    loop of [NextDate] makes a finite number [k] of steps, fewer than
    [enough_fuel]: with more than [k] iterations allowed [NextDate] returns
    the date reached, with [k] or fewer it is still running. *)
Theorem NextDate_terminates
    (today anchor : string) (now a : Time) (rule : RecurrenceRule) :
  Parse today = Some now -> Parse anchor = Some a -> well_formed rule ->
  exists (k : nat) (r : Time),
    (k < enough_fuel)%nat
    /\ r = Nat.iter k (rule_step rule) (rule_step rule a)
    /\ (forall fuel : nat, (k < fuel)%nat ->
          NextDate fuel now anchor (rule_text rule) = Some (Ok (Format r)))
    /\ (forall fuel : nat, (fuel <= k)%nat ->
          NextDate fuel now anchor (rule_text rule) = None).
Proof.
  intros Ht Ha Hwf.
  apply Parse_Some_inv in Ht. destruct Ht as [Hnow _].
  pose proof (proj1 (Parse_Some_inv _ _ Ha)) as Hca.
  destruct (rule_loop_terminates now a rule enough_fuel Hnow Hca Hwf (Nat.le_refl _))
    as [r Hr].
  destruct (advance_Some_inv _ _ _ _ _ Hr) as (k & Hk & Hiter & Hexit & Hbefore).
  exists k, r. split; [exact Hk|]. split; [exact Hiter|].
  rewrite Hiter in Hexit.
  split; intros fuel Hf; rewrite (NextDate_rule _ _ a _ _ Ha Hwf);
    destruct (advance_exact _ _ k _ Hbefore Hexit fuel) as [E1 E2].
  - rewrite (E1 Hf), <- Hiter. reflexivity.
  - rewrite (E2 Hf). reflexivity.
Qed.

Lemma NextDate_terminates_witness :
  exists (k : nat) (r : Time),
    (k < enough_fuel)%nat
    /\ r = Nat.iter k (rule_step Yearly) (rule_step Yearly (mkTime 2023 3 1))
    /\ (forall fuel : nat, (k < fuel)%nat ->
          NextDate fuel (mkTime 2024 3 1) "20230301" (rule_text Yearly)
          = Some (Ok (Format r)))
    /\ (forall fuel : nat, (fuel <= k)%nat ->
          NextDate fuel (mkTime 2024 3 1) "20230301" (rule_text Yearly) = None).
Proof.
  apply (NextDate_terminates "20240301" "20230301"
           (mkTime 2024 3 1) (mkTime 2023 3 1) Yearly).
  - reflexivity.
  - reflexivity.
  - exact I.
Defined.

Lemma Format_length (t : Time) :
  calendar_date t -> String.length (Format t) = 8%nat.
Proof. intros Hc. rewrite (Format_digits t Hc). reflexivity. Qed.

(** C9, as amended: for a today and an anchor that parse and a well-formed
    rule, provided one step of the rule from today and one step from the
    anchor both stay within the year 9999, the date [NextDate] returns is
    in the canonical form: eight characters that parse back to a date of
    the calendar. *)
Theorem NextDate_canonical
    (today anchor : string) (now a : Time) (rule : RecurrenceRule) :
  Parse today = Some now -> Parse anchor = Some a -> well_formed rule ->
  Year (rule_step rule now) <= 9999 -> Year (rule_step rule a) <= 9999 ->
  exists r : Time,
    NextDate_returns now anchor (rule_text rule) (Ok (Format r))
    /\ calendar_date r
    /\ String.length (Format r) = 8%nat
    /\ Parse (Format r) = Some r.
Proof.
  intros Ht Ha Hwf Hyn Hya.
  apply Parse_Some_inv in Ht. destruct Ht as [Hnow _].
  pose proof (proj1 (Parse_Some_inv _ _ Ha)) as Hca.
  destruct (rule_loop_terminates now a rule enough_fuel Hnow Hca Hwf (Nat.le_refl _))
    as [r Hr].
  pose proof (proj2 (rule_loop_in_form now a rule enough_fuel Hnow Hca Hwf Hyn Hya)
                r Hr) as Hc.
  exists r. split.
  - exists enough_fuel. rewrite (NextDate_rule _ _ a _ _ Ha Hwf), Hr. reflexivity.
  - split; [exact Hc|]. split; [apply Format_length | apply Parse_Format]; exact Hc.
Qed.

Lemma NextDate_canonical_witness :
  exists r : Time,
    NextDate_returns (mkTime 2024 3 1) "20240101" (rule_text (EveryNDays 7))
      (Ok (Format r))
    /\ calendar_date r
    /\ String.length (Format r) = 8%nat
    /\ Parse (Format r) = Some r.
Proof.
  apply (NextDate_canonical "20240301" "20240101"
           (mkTime 2024 3 1) (mkTime 2024 1 1) (EveryNDays 7)).
  - reflexivity.
  - reflexivity.
  - simpl. lia.
  - vm_compute. discriminate.
  - vm_compute. discriminate.
Defined.

(** *** Dates past the canonical form *)

Lemma append_length (s1 s2 : string) :
  String.length (s1 ++ s2) = (String.length s1 + String.length s2)%nat.
Proof.
  induction s1 as [|c s1 IH]; simpl; [reflexivity | rewrite IH; reflexivity].
Qed.

Lemma fmt_uint_length (k fuel : nat) (u : Z) (acc : string) :
  10 ^ Z.of_nat k <= u -> (k < fuel)%nat ->
  (String.length acc + k + 1 <= String.length (fmt_uint fuel u acc))%nat.
Proof.
  revert fuel u acc. induction k as [|k IH]; intros fuel u acc Hu Hf.
  - destruct fuel as [|fuel]; [lia|]. cbn [fmt_uint].
    destruct (10 <=? u) eqn:E; [|simpl; lia].
    destruct fuel as [|fuel]; [simpl; lia|].
    apply Z.leb_le in E.
    enough (String.length (String (digit (u - u / 10 * 10)) acc)
            <= String.length (fmt_uint (S fuel) (u / 10)
                                (String (digit (u - u / 10 * 10)) acc)))%nat
      by (simpl in *; lia).
    clear. generalize (String (digit (u - u / 10 * 10)) acc) as a.
    generalize (u / 10) as v. generalize (S fuel) as f.
    induction f as [|f IHf]; intros v a; [simpl; lia|].
    cbn [fmt_uint]. destruct (10 <=? v); [|simpl; lia].
    specialize (IHf (v / 10) (String (digit (v - v / 10 * 10)) a)).
    simpl in *. lia.
  - destruct fuel as [|fuel]; [lia|]. cbn [fmt_uint].
    assert (Hp : 10 ^ Z.of_nat (S k) = 10 * 10 ^ Z.of_nat k)
      by (rewrite Nat2Z.inj_succ, Z.pow_succ_r by lia; reflexivity).
    assert (Hpos : 0 < 10 ^ Z.of_nat k) by (apply Z.pow_pos_nonneg; lia).
    replace (10 <=? u) with true by (symmetry; apply Z.leb_le; lia).
    assert (Hq : 10 ^ Z.of_nat k <= u / 10) by (apply Z.div_le_lower_bound; lia).
    specialize (IH fuel (u / 10) (String (digit (u - u / 10 * 10)) acc) Hq ltac:(lia)).
    simpl in *. lia.
Qed.

Lemma Format_wide_length (t : Time) :
  valid t -> 10000 <= Year t -> (9 <= String.length (Format t))%nat.
Proof.
  intros Hv Hy. rewrite (Format_month_day t Hv), append_length.
  unfold appendInt.
  replace (Year t <? 0) with false by (symmetry; apply Z.ltb_ge; lia).
  rewrite !append_length. rewrite Z.abs_eq by lia.
  assert (Hlog : 13 <= Z.log2 (Year t)).
  { change 13 with (Z.log2 8192). apply Z.log2_le_mono. lia. }
  pose proof (fmt_uint_length 4 (S (Z.to_nat (Z.log2 (Year t)))) (Year t) ""
                ltac:(simpl; lia) ltac:(lia)) as Hlen.
  fold (decimal (Year t)) in Hlen.
  change (String.length (digits_string (digits2 (Month t) ++ digits2 (Day t))))
    with 4%nat.
  simpl in Hlen. lia.
Qed.

Lemma Parse_wide (t : Time) :
  valid t -> 10000 <= Year t -> Parse (Format t) = None.
Proof.
  intros Hv Hy. destruct (Parse (Format t)) as [u|] eqn:E; [|reflexivity].
  apply Parse_Some_inv in E. destruct E as [Hc E].
  pose proof (Format_length u Hc) as H8.
  pose proof (Format_wide_length t Hv Hy) as H9.
  rewrite E in H8. lia.
Qed.

Lemma calendar_date_last : calendar_date (mkTime 9999 12 31).
Proof. split; [apply validb_spec; reflexivity | simpl; lia]. Qed.

Lemma after_last_date (r : Time) :
  valid r -> Before (mkTime 9999 12 31) r -> 10000 <= Year r.
Proof.
  intros Hv Hb.
  apply (Before_rank _ r (proj1 calendar_date_last) Hv) in Hb.
  pose proof (rank_year r Hv).
  change (rank (mkTime 9999 12 31)) with 3719999 in Hb. lia.
Qed.

(** Today 2024-03-01, the anchor 9999-12-31 and the yearly rule: the first
    step leaves the canonical form, and the strings of the years 10000 to
    20240 sort at or below "20240301". *)
Lemma NextDate_far_anchor :
  NextDate (Z.to_nat 10300) (mkTime 2024 3 1) "99991231" (rule_text Yearly)
  = Some (Ok "202411231").
Proof. vm_compute. reflexivity. Qed.

(** C9 fails as stated: with today 2024-03-01, the anchor 9999-12-31 and
    the yearly rule, [NextDate] returns the nine characters "202411231",
    which do not parse; and with today 9999-12-31, the anchor 2024-01-01
    and the yearly rule, the date returned is after today, so its string
    has nine characters or more and does not parse. *)
Lemma NextDate_canonical_counterexample :
  (Parse "20240301" = Some (mkTime 2024 3 1)
   /\ Parse "99991231" = Some (mkTime 9999 12 31)
   /\ NextDate_returns (mkTime 2024 3 1) "99991231" (rule_text Yearly)
        (Ok "202411231")
   /\ String.length "202411231" = 9%nat
   /\ Parse "202411231" = None)
  /\ (exists r : Time,
        NextDate_returns (mkTime 9999 12 31) "20240101" (rule_text Yearly)
          (Ok (Format r))
        /\ (9 <= String.length (Format r))%nat
        /\ Parse (Format r) = None).
Proof.
  split.
  - split; [reflexivity|]. split; [reflexivity|]. split.
    + exists (Z.to_nat 10300). exact NextDate_far_anchor.
    + split; reflexivity.
  - assert (Ha : Parse "20240101" = Some (mkTime 2024 1 1)) by reflexivity.
    pose proof (proj1 (Parse_Some_inv _ _ Ha)) as Hca.
    destruct (rule_loop_terminates _ _ Yearly enough_fuel calendar_date_last Hca I
                (Nat.le_refl _)) as [r Hr].
    destruct (rule_loop_after _ _ r Yearly _ calendar_date_last Hca I Hr) as (Hv & Hb & _).
    pose proof (after_last_date r Hv Hb) as Hy.
    exists r. split; [|split].
    + exists enough_fuel. rewrite (NextDate_rule _ _ _ _ Yearly Ha I), Hr. reflexivity.
    + apply Format_wide_length; assumption.
    + apply Parse_wide; assumption.
Qed.

(** ** String order against calendar order *)

Lemma NextDate_chrono_rule (fuel : nat) (now d : Time) (date : string)
    (rule : RecurrenceRule) :
  Parse date = Some d -> well_formed rule ->
  NextDate_chrono fuel now date (rule_text rule)
  = returned (advance_chrono fuel (rule_step rule) now (rule_step rule d)).
Proof.
  intros H Hwf. destruct rule as [| |n|ds].
  - destruct Hwf.
  - unfold NextDate_chrono. rewrite H. reflexivity.
  - destruct (rule_text_days n Hwf) as (H1 & H2 & H3 & H4).
    unfold NextDate_chrono. rewrite H, H1, H2, H3, H4.
    cbn in Hwf.
    replace ((n <=? 0) || (n >? 400)) with false; [reflexivity|].
    symmetry. apply orb_false_iff. split; [apply Z.leb_gt; lia|].
    rewrite Z.gtb_ltb. apply Z.ltb_ge. lia.
  - destruct (rule_text_week ds Hwf) as (w & E & Hscan & Hcheck).
    unfold NextDate_chrono. rewrite H, Hscan. rewrite E. cbn [String.eqb Ascii.eqb].
    unfold strings.HasPrefix. cbn.
    replace (String.prefix "" w) with true by (destruct w; reflexivity).
    rewrite Hcheck. reflexivity.
Qed.

(** C8, as amended: on two dates of the canonical form the order of the
    formatted strings is the order of the calendar; and for a today and an
    anchor that parse and a well-formed rule, provided one step of the rule
    from today and one from the anchor both stay within the year 9999, the
    engine that compares by calendar value returns what [NextDate], which
    compares the strings, returns. *)
Theorem string_order_refines_calendar_order :
  (forall t u : Time, calendar_date t -> calendar_date u ->
     String.compare (Format t) (Format u) = Compare t u)
  /\ (forall (today anchor : string) (now a : Time) (rule : RecurrenceRule)
             (fuel : nat),
        Parse today = Some now -> Parse anchor = Some a -> well_formed rule ->
        Year (rule_step rule now) <= 9999 -> Year (rule_step rule a) <= 9999 ->
        NextDate_chrono fuel now anchor (rule_text rule)
        = NextDate fuel now anchor (rule_text rule)).
Proof.
  split.
  - exact compare_Format.
  - intros today anchor now a rule fuel Ht Ha Hwf Hyn Hya.
    apply Parse_Some_inv in Ht. destruct Ht as [Hnow _].
    pose proof (proj1 (Parse_Some_inv _ _ Ha)) as Hca.
    rewrite (NextDate_rule _ _ a _ _ Ha Hwf), (NextDate_chrono_rule _ _ a _ _ Ha Hwf).
    rewrite (proj1 (rule_loop_in_form now a rule fuel Hnow Hca Hwf Hyn Hya)).
    reflexivity.
Qed.

Lemma string_order_refines_calendar_order_witness :
  String.compare (Format (mkTime 2024 3 1)) (Format (mkTime 2023 12 31))
  = Compare (mkTime 2024 3 1) (mkTime 2023 12 31)
  /\ NextDate_chrono 20 (mkTime 2024 3 1) "20240101" (rule_text (EveryNDays 7))
     = NextDate 20 (mkTime 2024 3 1) "20240101" (rule_text (EveryNDays 7)).
Proof.
  split.
  - apply (proj1 string_order_refines_calendar_order).
    + split; [apply validb_spec; reflexivity | simpl; lia].
    + split; [apply validb_spec; reflexivity | simpl; lia].
  - apply (proj2 string_order_refines_calendar_order "20240301" "20240101"
             (mkTime 2024 3 1) (mkTime 2024 1 1) (EveryNDays 7) 20%nat).
    + reflexivity.
    + reflexivity.
    + simpl. lia.
    + vm_compute. discriminate.
    + vm_compute. discriminate.
Defined.

Lemma enough_fuel_succ : exists n, enough_fuel = S n.
Proof.
  pose proof enough_fuel_val as H. destruct enough_fuel as [|n]; [simpl in H; lia|].
  exists n. reflexivity.
Qed.

(** C8 fails as stated: with today 2024-03-01, the anchor 9999-12-31 and
    the yearly rule, the engine that compares by calendar value stops at
    the year 10000 while [NextDate] goes on to the year 20241; and with
    today and the anchor both 9999-12-31 the first returns 10000-12-31,
    which [NextDate] passes because its string is below that of today. *)
Lemma string_order_counterexample :
  (Parse "20240301" = Some (mkTime 2024 3 1)
   /\ Parse "99991231" = Some (mkTime 9999 12 31)
   /\ NextDate_chrono (Z.to_nat 10300) (mkTime 2024 3 1) "99991231" (rule_text Yearly)
      = Some (Ok "100001231")
   /\ NextDate (Z.to_nat 10300) (mkTime 2024 3 1) "99991231" (rule_text Yearly)
      = Some (Ok "202411231"))
  /\ (exists res : string,
        NextDate_chrono enough_fuel (mkTime 9999 12 31) "99991231" (rule_text Yearly)
        = Some (Ok "100001231")
        /\ NextDate enough_fuel (mkTime 9999 12 31) "99991231" (rule_text Yearly)
           = Some (Ok res)
        /\ res <> "100001231").
Proof.
  split.
  - split; [reflexivity|]. split; [reflexivity|].
    split; [vm_compute; reflexivity | exact NextDate_far_anchor].
  - assert (Ha : Parse "99991231" = Some (mkTime 9999 12 31)) by reflexivity.
    pose proof calendar_date_last as Hnow.
    destruct (rule_loop_terminates _ _ Yearly enough_fuel Hnow Hnow I (Nat.le_refl _))
      as [r Hr].
    destruct (advance_Some_inv _ _ _ _ _ Hr) as (k & _ & _ & Hexit & _).
    exists (Format r). split; [|split].
    + rewrite (NextDate_chrono_rule _ _ _ _ Yearly Ha I).
      destruct enough_fuel_succ as [n ->]. reflexivity.
    + rewrite (NextDate_rule _ _ _ _ Yearly Ha I), Hr. reflexivity.
    + intros E. rewrite E in Hexit. vm_compute in Hexit. discriminate Hexit.
Qed.

(** ** The weekly rule *)

(** Day by day from a date not after the day that follows [now], the loop
    stops on that day. *)
Lemma daily_loop (now : Time) (fuel : nat) (d : Time) :
  calendar_date now -> Year (next_day now) <= 9999 ->
  valid d -> 0 <= Year d -> rank d <= rank (next_day now) ->
  rank (next_day now) - rank d < Z.of_nat fuel ->
  advance fuel (fun d => AddDate d 0 0 1) now d = Some (next_day now).
Proof.
  intros Hnow Hyn. revert d.
  pose proof (next_day_valid now (proj1 Hnow)) as Hvn.
  induction fuel as [|fuel IH]; intros d Hd Hy0 Hle Hf; [lia|].
  assert (Hc : calendar_date d).
  { split; [exact Hd|]. pose proof (rank_le_year d _ Hd Hvn Hle). lia. }
  simpl. unfold String.leb. rewrite (compare_Format d now Hc Hnow).
  rewrite (Compare_rank d now Hd (proj1 Hnow)).
  pose proof (next_day_rank d Hd) as Hr.
  pose proof (next_day_valid d Hd) as Hv.
  pose proof (next_day_year d) as Hy.
  rewrite (AddDate_one_day d Hd).
  destruct (rank d ?= rank now) eqn:E.
  - apply Z.compare_eq in E.
    apply IH; try assumption; try lia.
    apply next_day_mono; [exact Hd | exact (proj1 Hnow) | lia].
  - rewrite Z.compare_lt_iff in E.
    apply IH; try assumption; try lia.
    apply next_day_mono; [exact Hd | exact (proj1 Hnow) | lia].
  - rewrite Z.compare_gt_iff in E.
    pose proof (next_day_least now d (proj1 Hnow) Hd E).
    f_equal. apply rank_inj; [exact Hd | exact Hvn | lia].
Qed.

(** C4, as amended: for a today and an anchor that parse and weekly rules
    whose days are all in 1..7, the date [NextDate] returns does not depend
    on the days listed; when the anchor is not after today (and today is
    not 9999-12-31) it is the day after today; when the anchor is after
    today (and is not 9999-12-31) it is the day after the anchor. *)
Theorem NextDate_weekly
    (today anchor : string) (now a : Time) (ds ds' : list Z) :
  Parse today = Some now -> Parse anchor = Some a ->
  well_formed (WeeklyOnDays ds) -> well_formed (WeeklyOnDays ds') ->
  (forall fuel : nat,
     NextDate fuel now anchor (rule_text (WeeklyOnDays ds))
     = NextDate fuel now anchor (rule_text (WeeklyOnDays ds')))
  /\ (NotAfter a now -> Year (next_day now) <= 9999 ->
      NextDate_returns now anchor (rule_text (WeeklyOnDays ds))
        (Ok (Format (next_day now))))
  /\ (Before now a -> Year (next_day a) <= 9999 ->
      NextDate_returns now anchor (rule_text (WeeklyOnDays ds))
        (Ok (Format (next_day a)))).
Proof.
  intros Ht Ha Hwf Hwf'.
  apply Parse_Some_inv in Ht. destruct Ht as [Hnow _].
  pose proof (proj1 (Parse_Some_inv _ _ Ha)) as Hca.
  pose proof (next_day_valid a (proj1 Hca)) as Hv.
  pose proof (next_day_rank a (proj1 Hca)) as Hr.
  pose proof (next_day_year a) as Hy.
  split; [|split].
  - intros fuel. rewrite !(NextDate_week _ _ a) by assumption. reflexivity.
  - intros Hle Hyn.
    apply (NotAfter_rank a now (proj1 Hca) (proj1 Hnow)) in Hle.
    pose proof (next_day_rank now (proj1 Hnow)) as Hrn.
    exists (S (Z.to_nat (rank (next_day now) - rank (next_day a)))).
    rewrite (NextDate_week _ _ a) by assumption.
    rewrite (AddDate_one_day a (proj1 Hca)).
    rewrite (daily_loop now _ (next_day a) Hnow Hyn Hv); try reflexivity.
    + destruct Hca as [_ Hya]. lia.
    + apply next_day_mono; [exact (proj1 Hca) | exact (proj1 Hnow) | lia].
    + lia.
  - intros Hlt Hya.
    apply (Before_rank now a (proj1 Hnow) (proj1 Hca)) in Hlt.
    exists 1%nat.
    rewrite (NextDate_week _ _ a) by assumption.
    rewrite (AddDate_one_day a (proj1 Hca)).
    assert (Hc : calendar_date (next_day a)).
    { split; [exact Hv|]. destruct Hca as [_ Hya']. lia. }
    simpl. unfold String.leb. rewrite (compare_Format _ now Hc Hnow).
    rewrite (Compare_rank _ now Hv (proj1 Hnow)).
    replace (rank (next_day a) ?= rank now) with Gt
      by (symmetry; apply Z.compare_gt_iff; lia).
    reflexivity.
Qed.

Lemma NextDate_weekly_witness :
  (forall fuel : nat,
     NextDate fuel (mkTime 2024 3 1) "20240101" (rule_text (WeeklyOnDays [1; 3; 5]))
     = NextDate fuel (mkTime 2024 3 1) "20240101" (rule_text (WeeklyOnDays [7])))
  /\ NextDate_returns (mkTime 2024 3 1) "20240101"
       (rule_text (WeeklyOnDays [1; 3; 5])) (Ok "20240302")
  /\ NextDate_returns (mkTime 2024 3 1) "20240315"
       (rule_text (WeeklyOnDays [1; 3; 5])) (Ok "20240316").
Proof.
  assert (Hwf : forall ds, ds = [1; 3; 5] \/ ds = [7] -> well_formed (WeeklyOnDays ds))
    by (intros ds [-> | ->]; (split; [discriminate | repeat constructor; lia])).
  split; [|split].
  - apply (NextDate_weekly "20240301" "20240101" (mkTime 2024 3 1) (mkTime 2024 1 1)
             [1; 3; 5] [7] eq_refl eq_refl (Hwf _ (or_introl eq_refl))
             (Hwf _ (or_intror eq_refl))).
  - apply (NextDate_weekly "20240301" "20240101" (mkTime 2024 3 1) (mkTime 2024 1 1)
             [1; 3; 5] [7] eq_refl eq_refl (Hwf _ (or_introl eq_refl))
             (Hwf _ (or_intror eq_refl))).
    + vm_compute. discriminate.
    + vm_compute. discriminate.
  - apply (NextDate_weekly "20240301" "20240315" (mkTime 2024 3 1) (mkTime 2024 3 15)
             [1; 3; 5] [7] eq_refl eq_refl (Hwf _ (or_introl eq_refl))
             (Hwf _ (or_intror eq_refl))).
    + reflexivity.
    + vm_compute. discriminate.
Defined.

(** From the anchor 9999-12-31, the loop of a weekly rule passes the day
    after the anchor whenever the string of that day, "100000101", is not
    above that of today. *)
Lemma weekly_from_last_day (now : Time) :
  calendar_date now ->
  String.leb (Format (next_day (mkTime 9999 12 31))) (Format now) = true ->
  exists r : Time,
    NextDate_returns now "99991231" (rule_text (WeeklyOnDays [1])) (Ok (Format r))
    /\ Before (next_day (mkTime 9999 12 31)) r.
Proof.
  intros Hnow Hguard.
  assert (Hwf : well_formed (WeeklyOnDays [1]))
    by (split; [discriminate | repeat constructor; lia]).
  pose proof calendar_date_last as Hlast.
  assert (Ha : Parse "99991231" = Some (mkTime 9999 12 31)) by reflexivity.
  destruct (rule_loop_terminates _ _ (WeeklyOnDays [1]) enough_fuel Hnow Hlast Hwf
              (Nat.le_refl _)) as [r Hr].
  exists r. split.
  - exists enough_fuel.
    rewrite (NextDate_rule _ _ _ _ (WeeklyOnDays [1]) Ha Hwf), Hr. reflexivity.
  - pose proof (rule_step_valid (WeeklyOnDays [1]) _ Hwf (proj1 Hlast)) as Hv1.
    destruct (rule_loop_after _ _ r _ _ Hnow Hlast Hwf Hr) as [Hvr _].
    pose proof (advance_passes (rule_step (WeeklyOnDays [1])) now
                  (fun d => rule_step_valid _ d Hwf)
                  (fun d => rule_step_rank _ d Hwf)
                  enough_fuel _ r Hv1 Hguard Hr) as Hpass.
    apply Before_rank; [apply next_day_valid; exact (proj1 Hlast) | exact Hvr |].
    change (rank (rule_step (WeeklyOnDays [1]) (mkTime 9999 12 31)))
      with 3720000 in Hpass.
    change (rank (next_day (mkTime 9999 12 31))) with 3720000. lia.
Qed.

(** C4 fails as stated: with today 2024-03-01, the anchor 2024-03-15 and
    the rule "w 1", [NextDate] returns 2024-03-16 and not 2024-03-02, the
    day after today; and with the anchor 9999-12-31, today being the same
    day or 2024-03-01, the loop passes 10000-01-01, the day after the
    anchor, whose string is below that of today. *)
Lemma NextDate_weekly_counterexample :
  (Parse "20240301" = Some (mkTime 2024 3 1)
   /\ Parse "20240315" = Some (mkTime 2024 3 15)
   /\ well_formed (WeeklyOnDays [1])
   /\ NextDate_returns (mkTime 2024 3 1) "20240315" (rule_text (WeeklyOnDays [1]))
        (Ok "20240316")
   /\ ~ NextDate_returns (mkTime 2024 3 1) "20240315" (rule_text (WeeklyOnDays [1]))
          (Ok (Format (next_day (mkTime 2024 3 1)))))
  /\ (exists r : Time,
        NextDate_returns (mkTime 9999 12 31) "99991231" (rule_text (WeeklyOnDays [1]))
          (Ok (Format r))
        /\ Before (next_day (mkTime 9999 12 31)) r)
  /\ (exists r : Time,
        NextDate_returns (mkTime 2024 3 1) "99991231" (rule_text (WeeklyOnDays [1]))
          (Ok (Format r))
        /\ Before (next_day (mkTime 9999 12 31)) r).
Proof.
  assert (Hwf : well_formed (WeeklyOnDays [1]))
    by (split; [discriminate | repeat constructor; lia]).
  split; [|split].
  - assert (H : NextDate_returns (mkTime 2024 3 1) "20240315"
                  (rule_text (WeeklyOnDays [1])) (Ok "20240316"))
      by (exists 1%nat; reflexivity).
    split; [reflexivity|]. split; [reflexivity|]. split; [exact Hwf|].
    split; [exact H|].
    intros H'. pose proof (NextDate_returns_unique _ _ _ _ _ H H') as E.
    vm_compute in E. discriminate E.
  - apply weekly_from_last_day; [exact calendar_date_last | reflexivity].
  - apply weekly_from_last_day; [|reflexivity].
    split; [apply validb_spec; reflexivity | simpl; lia].
Qed.

(** ** The yearly rule *)

Lemma add_year_not_leap_day (p : Time) :
  valid p -> ~ (Month (add_year p) = 2 /\ Day (add_year p) = 29).
Proof.
  intros [Hm Hd] [E2 E29]. unfold add_year in *.
  destruct (Day p <=? daysIn (Month p) (Year p + 1)) eqn:E.
  - cbn [Month Day] in *. apply Z.leb_le in E.
    rewrite E2, daysIn_feb in *.
    destruct (isLeap (Year p)) eqn:L.
    + rewrite (isLeap_succ _ L) in E. lia.
    + lia.
  - cbn [Month] in E2. discriminate.
Qed.

Lemma sub_add_year (p : Time) :
  valid p -> ~ (Month p = 2 /\ Day p = 29) ->
  AddDate (add_year p) (-1) 0 0 = p.
Proof.
  intros Hv Hnl. pose proof Hv as [Hm Hd]. unfold add_year.
  assert (E : Day p <= daysIn (Month p) (Year p + 1)).
  { destruct (Z.eq_dec (Month p) 2) as [E2|E2].
    - rewrite E2, daysIn_feb in *.
      destruct (isLeap (Year p)); destruct (isLeap (Year p + 1)); lia.
    - rewrite (daysIn_not_feb _ (Year p + 1) (Year p) E2). lia. }
  replace (Day p <=? daysIn (Month p) (Year p + 1)) with true
    by (symmetry; apply Z.leb_le; exact E).
  unfold AddDate. cbn [Year Month Day].
  replace (Year p + 1 + -1) with (Year p) by lia. rewrite !Z.add_0_r.
  destruct p as [y m d]. apply Date_valid. exact Hv.
Qed.

(** The yearly loop returns the first step from the anchor, or one year
    after a date that it held and found at or below [now]. *)
Lemma yearly_loop_shape (now a r : Time) (fuel : nat) :
  calendar_date a ->
  advance fuel (rule_step Yearly) now (rule_step Yearly a) = Some r ->
  String.leb (Format r) (Format now) = false
  /\ (r = add_year a
      \/ exists p, valid p /\ ~ (Month p = 2 /\ Day p = 29)
                   /\ rank (add_year a) <= rank p
                   /\ String.leb (Format p) (Format now) = true
                   /\ r = add_year p).
Proof.
  intros Hca H.
  pose proof (rule_step_valid Yearly a I (proj1 Hca)) as Hv1.
  destruct (advance_Some_inv _ _ _ _ _ H) as (k & _ & Hiter & Hexit & Hbefore).
  split; [exact Hexit|].
  destruct k as [|k].
  - left. rewrite Hiter. simpl. apply AddDate_year. exact (proj1 Hca).
  - right. set (p := Nat.iter k (rule_step Yearly) (rule_step Yearly a)) in *.
    assert (Hvp : valid p)
      by (apply iter_step_valid; [intros d; apply (rule_step_valid Yearly d I) | exact Hv1]).
    assert (Hrp : rank (rule_step Yearly a) <= rank p)
      by (apply iter_step_rank;
          [intros d; apply (rule_step_valid Yearly d I)
          | intros d; apply (rule_step_rank Yearly d I) | exact Hv1]).
    rewrite Nat.iter_succ in Hiter. fold p in Hiter.
    exists p. split; [exact Hvp|]. split; [|split; [|split]].
    + destruct k as [|k]; unfold p.
      * simpl. cbn [rule_step]. rewrite (AddDate_year a (proj1 Hca)).
        apply add_year_not_leap_day. exact (proj1 Hca).
      * rewrite Nat.iter_succ. cbn [rule_step].
        set (q := Nat.iter k _ _).
        assert (Hvq : valid q)
          by (apply iter_step_valid;
              [intros d; apply (rule_step_valid Yearly d I) | exact Hv1]).
        rewrite (AddDate_year q Hvq). apply add_year_not_leap_day. exact Hvq.
    + cbn [rule_step] in Hrp. rewrite (AddDate_year a (proj1 Hca)) in Hrp. exact Hrp.
    + apply (Hbefore k). lia.
    + rewrite Hiter. cbn [rule_step]. apply AddDate_year. exact Hvp.
Qed.

(** The last date at or below [now] that the yearly loop holds is one year
    before the date it returns. *)
Lemma yearly_loop_previous (now a r : Time) (fuel : nat) :
  calendar_date now -> calendar_date a ->
  Year now <= 9998 -> rank a <= rank now ->
  advance fuel (rule_step Yearly) now (rule_step Yearly a) = Some r ->
  r = add_year a
  \/ exists p, valid p /\ ~ (Month p = 2 /\ Day p = 29)
               /\ rank p <= rank now /\ r = add_year p.
Proof.
  intros Hnow Hca Hy Hle H.
  assert (Hyn : Year (rule_step Yearly now) <= 9999).
  { cbn [rule_step]. rewrite (AddDate_year now (proj1 Hnow)), add_year_year. lia. }
  assert (Hya : Year (rule_step Yearly a) <= 9999).
  { cbn [rule_step]. rewrite (AddDate_year a (proj1 Hca)), add_year_year.
    pose proof (rank_le_year a now (proj1 Hca) (proj1 Hnow) Hle). lia. }
  pose proof (proj2 (rule_loop_in_form now a Yearly fuel Hnow Hca I Hyn Hya) r H) as Hcr.
  destruct (yearly_loop_shape now a r fuel Hca H)
    as [_ [E | (p & Hvp & Hnl & Hrp & Hguard & E)]]; [left; exact E|].
  right. exists p. split; [exact Hvp|]. split; [exact Hnl|]. split; [|exact E].
  pose proof (add_year_rank a (proj1 Hca)) as Hsa.
  pose proof (add_year_rank p Hvp) as Hsp. rewrite <- E in Hsp.
  pose proof (calendar_date_rank a Hca) as Hra.
  assert (Hcp : calendar_date p).
  { split; [exact Hvp|].
    pose proof (rank_le_year p r Hvp (proj1 Hcr) ltac:(lia)).
    pose proof (rank_year p Hvp). destruct Hcr as [_ Hyr]. lia. }
  apply (leb_Format p now Hcp Hnow) in Hguard.
  apply (NotAfter_rank p now Hvp (proj1 Hnow)). exact Hguard.
Qed.

(** C3, as amended: for a today of a year up to 9998 and an anchor not
    after today (and before today when the anchor is a February 29), the
    date [NextDate] returns for the yearly rule is strictly after today,
    and one calendar year before it is a date not after today. *)
Theorem NextDate_yearly_step (today anchor : string) (now a : Time) :
  Parse today = Some now -> Parse anchor = Some a ->
  Year now <= 9998 -> NotAfter a now ->
  (Month a = 2 -> Day a = 29 -> Before a now) ->
  exists r : Time,
    NextDate_returns now anchor (rule_text Yearly) (Ok (Format r))
    /\ Before now r
    /\ NotAfter (AddDate r (-1) 0 0) now.
Proof.
  intros Ht Ha Hy Hle Hleap.
  apply Parse_Some_inv in Ht. destruct Ht as [Hnow _].
  pose proof (proj1 (Parse_Some_inv _ _ Ha)) as Hca.
  apply (NotAfter_rank a now (proj1 Hca) (proj1 Hnow)) in Hle.
  destruct (rule_loop_terminates now a Yearly enough_fuel Hnow Hca I (Nat.le_refl _))
    as [r Hr].
  exists r. split.
  - exists enough_fuel. rewrite (NextDate_rule _ _ a _ Yearly Ha I), Hr. reflexivity.
  - split; [exact (proj1 (proj2 (rule_loop_after now a r Yearly _ Hnow Hca I Hr)))|].
    destruct (yearly_loop_previous now a r _ Hnow Hca Hy Hle Hr)
      as [E | (p & Hvp & Hnl & Hrp & E)].
    + destruct (Z.eq_dec (Month a) 2) as [E2|E2];
        [destruct (Z.eq_dec (Day a) 29) as [E29|E29]|].
      * specialize (Hleap E2 E29).
        apply (Before_rank a now (proj1 Hca) (proj1 Hnow)) in Hleap.
        pose proof (next_day_least a now (proj1 Hca) (proj1 Hnow) Hleap) as Hn.
        destruct Hca as [[Hm Hd] Hya]. destruct a as [y m d].
        cbn [Year Month Day] in *. subst m d.
        rewrite daysIn_feb in Hd.
        destruct (isLeap y) eqn:L; [|lia].
        assert (Er : r = mkTime (y + 1) 3 1).
        { rewrite E. unfold add_year. cbn [Year Month Day].
          rewrite daysIn_feb, (isLeap_succ _ L). reflexivity. }
        assert (En : next_day (mkTime y 2 29) = mkTime y 3 1).
        { unfold next_day. cbn [Year Month Day]. rewrite daysIn_feb, L. reflexivity. }
        rewrite En in Hn. rewrite Er. unfold AddDate. cbn [Year Month Day].
        replace (y + 1 + -1) with y by lia.
        change (3 + 0) with 3. change (1 + 0) with 1.
        rewrite (Date_valid y 3 1) by (split; cbn; [lia | unfold daysIn; simpl; lia]).
        apply NotAfter_rank;
          [split; cbn; [lia | unfold daysIn; simpl; lia] | exact (proj1 Hnow) | exact Hn].
      * rewrite E, sub_add_year by (try exact (proj1 Hca); tauto).
        apply (NotAfter_rank a now (proj1 Hca) (proj1 Hnow)). exact Hle.
      * rewrite E, sub_add_year by (try exact (proj1 Hca); tauto).
        apply (NotAfter_rank a now (proj1 Hca) (proj1 Hnow)). exact Hle.
    + rewrite E, sub_add_year by assumption.
      apply (NotAfter_rank p now Hvp (proj1 Hnow)). exact Hrp.
Qed.

Lemma NextDate_yearly_step_witness :
  exists r : Time,
    NextDate_returns (mkTime 2024 3 1) "20240229" (rule_text Yearly) (Ok (Format r))
    /\ Before (mkTime 2024 3 1) r
    /\ NotAfter (AddDate r (-1) 0 0) (mkTime 2024 3 1).
Proof.
  apply (NextDate_yearly_step "20240301" "20240229" (mkTime 2024 3 1) (mkTime 2024 2 29)).
  - reflexivity.
  - reflexivity.
  - simpl. lia.
  - vm_compute. discriminate.
  - intros _ _. reflexivity.
Defined.

(** C3 fails as stated. With today 2024-03-01 and the anchor 2025-01-01
    the date returned is 2026-01-01, and one year before it is after
    today; with today and the anchor both 2024-02-29 the date returned is
    2025-03-01, and one year before it is 2024-03-01, after today; with
    today and the anchor both 9999-12-31 the loop passes 10000-12-31, whose
    string is below that of today, and one year before the date returned is
    after today. *)
Lemma NextDate_yearly_step_counterexample :
  (NextDate_returns (mkTime 2024 3 1) "20250101" (rule_text Yearly)
     (Ok (Format (mkTime 2026 1 1)))
   /\ Compare (AddDate (mkTime 2026 1 1) (-1) 0 0) (mkTime 2024 3 1) = Gt)
  /\ (NextDate_returns (mkTime 2024 2 29) "20240229" (rule_text Yearly)
        (Ok (Format (mkTime 2025 3 1)))
      /\ Compare (AddDate (mkTime 2025 3 1) (-1) 0 0) (mkTime 2024 2 29) = Gt)
  /\ (exists r : Time,
        NextDate_returns (mkTime 9999 12 31) "99991231" (rule_text Yearly)
          (Ok (Format r))
        /\ Compare (AddDate r (-1) 0 0) (mkTime 9999 12 31) = Gt).
Proof.
  split; [|split].
  - split; [exists 1%nat|]; reflexivity.
  - split; [exists 1%nat|]; reflexivity.
  - pose proof calendar_date_last as Hnow.
    assert (Ha : Parse "99991231" = Some (mkTime 9999 12 31)) by reflexivity.
    destruct (rule_loop_terminates _ _ Yearly enough_fuel Hnow Hnow I (Nat.le_refl _))
      as [r Hr].
    exists r. split.
    + exists enough_fuel. rewrite (NextDate_rule _ _ _ _ Yearly Ha I), Hr. reflexivity.
    + destruct (yearly_loop_shape _ _ r _ Hnow Hr)
        as [Hexit [E | (p & Hvp & Hnl & Hrp & _ & E)]].
      * rewrite E in Hexit. vm_compute in Hexit. discriminate Hexit.
      * rewrite E, (sub_add_year p Hvp Hnl).
        rewrite (Compare_rank p _ Hvp (proj1 Hnow)).
        apply Z.compare_gt_iff.
        change (rank (add_year (mkTime 9999 12 31))) with 3720371 in Hrp.
        change (rank (mkTime 9999 12 31)) with 3719999. lia.
Qed.

(** ** Rule texts that are rejected *)

(** *** Integers as [strconv] reads them *)

Lemma digits_value_lower (s : string) (acc : Z) :
  strconv.all_digits s = true -> 0 <= acc ->
  acc <= strconv.digits_value acc s
  /\ (s <> "" -> acc * 10 <= strconv.digits_value acc s).
Proof.
  revert acc. induction s as [|c s IH]; intros acc Hd Hacc.
  - simpl. split; [lia | congruence].
  - cbn [strconv.all_digits] in Hd. apply andb_true_iff in Hd.
    destruct Hd as [Hc Hs]. unfold strconv.is_digit in Hc.
    rewrite andb_true_iff, !Z.leb_le in Hc.
    cbn [strconv.digits_value].
    destruct (IH (acc * 10 + (byte_val c - 48)) Hs ltac:(lia)) as [IH1 _].
    split; [lia | intros _; lia].
Qed.

(** An unsigned text is an integer from 1 to 7 exactly when it is zeros
    followed by one digit from 1 to 7. *)
Lemma ParseUint_weekday (s : string) :
  match strconv.ParseUint s with
  | Ok n => (1 <=? n) && (n <=? 7)
  | Err _ => false
  end
  = match strip_zeros s with
    | String c "" => (49 <=? byte_val c) && (byte_val c <=? 55)
    | _ => false
    end.
Proof.
  induction s as [|c s IH]; [reflexivity|].
  cbn [strip_zeros]. destruct (Ascii.eqb c "0") eqn:E0.
  - apply Ascii.eqb_eq in E0. subst c. rewrite <- IH.
    destruct s as [|c' s']; [reflexivity|].
    unfold strconv.ParseUint. cbn [strconv.all_digits strconv.digits_value].
    change (strconv.is_digit "0") with true. cbn [andb].
    change (0 * 10 + (byte_val "0" - 48)) with 0.
    reflexivity.
  - apply Ascii.eqb_neq in E0.
    unfold strconv.ParseUint.
    destruct (strconv.all_digits (String c s)) eqn:Hd; cbn [negb].
    + pose proof Hd as Hd'. cbn [strconv.all_digits] in Hd'.
      apply andb_true_iff in Hd'. destruct Hd' as [Hc Hs].
      unfold strconv.is_digit in Hc. rewrite andb_true_iff, !Z.leb_le in Hc.
      assert (Hc0 : byte_val c <> 48).
      { intros E. apply E0. rewrite <- (byte_chr_val c), E. reflexivity. }
      destruct s as [|c' s'].
      * cbn [strconv.digits_value]. 
        replace (18446744073709551615 <? 0 * 10 + (byte_val c - 48)) with false
          by (symmetry; apply Z.ltb_ge; lia).
        apply eq_true_iff_eq. rewrite !andb_true_iff, !Z.leb_le. lia.
      * cbn [strconv.digits_value].
        destruct (digits_value_lower (String c' s') (0 * 10 + (byte_val c - 48)) Hs
                    ltac:(lia)) as [_ Hlow].
        specialize (Hlow ltac:(discriminate)).
        cbn [strconv.digits_value] in Hlow.
        destruct (18446744073709551615 <? _); [reflexivity|].
        apply andb_false_iff. right. apply Z.leb_gt. lia.
    + destruct s as [|c' s']; [|reflexivity].
      cbn [strconv.all_digits] in Hd. rewrite andb_true_r in Hd.
      unfold strconv.is_digit in Hd. symmetry.
      apply andb_false_iff in Hd. apply andb_false_iff.
      rewrite !Z.leb_gt in *. lia.
Qed.

Lemma ParseUint_nonneg (s : string) (n : Z) :
  strconv.ParseUint s = Ok n -> 0 <= n.
Proof.
  unfold strconv.ParseUint. destruct s as [|c s]; [discriminate|].
  destruct (strconv.all_digits (String c s)) eqn:Hd; [|discriminate].
  cbn [negb]. destruct (_ <? _); [discriminate|].
  intros H. inversion H; subst.
  destruct (digits_value_lower _ 0 Hd ltac:(lia)) as [H1 _]. exact H1.
Qed.

(** [Atoi] yields an integer from 1 to 7 exactly on the items that
    [weekday_item] describes. *)
Lemma Atoi_weekday_item (s : string) :
  match strconv.Atoi s with
  | Ok n => negb ((n <? 1) || (n >? 7))
  | Err _ => false
  end = weekday_item s.
Proof.
  assert (Hin : forall n, negb ((n <? 1) || (n >? 7)) = (1 <=? n) && (n <=? 7)).
  { intros n. rewrite negb_orb, Z.gtb_ltb, <- !Z.leb_antisym. reflexivity. }
  unfold strconv.Atoi, strconv.ParseInt, weekday_item.
  destruct s as [|c s]; [reflexivity|].
  destruct (Ascii.eqb c "+") eqn:Ep.
  - apply Ascii.eqb_eq in Ep. subst c. change (Ascii.eqb "+" "-") with false.
    cbn [orb negb andb]. rewrite <- ParseUint_weekday.
    destruct (strconv.ParseUint s) as [un|] eqn:Eu; [|reflexivity].
    cbn [bind]. destruct (9223372036854775808 <=? un) eqn:E.
    + apply Z.leb_le in E. symmetry. apply andb_false_iff. right.
      apply Z.leb_gt. lia.
    + apply Hin.
  - cbn [orb]. destruct (Ascii.eqb c "-") eqn:En.
    + apply Ascii.eqb_eq in En. subst c. cbn [strip_zeros].
      change (Ascii.eqb "-" "0") with false. cbv iota.
      destruct (strconv.ParseUint s) as [un|] eqn:Eu.
      * cbn [bind negb andb]. pose proof (ParseUint_nonneg _ _ Eu).
        destruct (9223372036854775808 <? un);
          [destruct s; reflexivity|].
        rewrite Hin.
        replace (1 <=? - un) with false by (symmetry; apply Z.leb_gt; lia).
        destruct s; reflexivity.
      * destruct s; reflexivity.
    + rewrite <- ParseUint_weekday.
      destruct (strconv.ParseUint (String c s)) as [un|] eqn:Eu; [|reflexivity].
      cbn [bind negb andb]. destruct (9223372036854775808 <=? un) eqn:E.
      * apply Z.leb_le in E. symmetry. apply andb_false_iff. right.
        apply Z.leb_gt. lia.
      * apply Hin.
Qed.

Lemma check_days_items (l : list string) :
  check_days l = forallb weekday_item l.
Proof.
  induction l as [|s l IH]; [reflexivity|].
  cbn [check_days forallb]. rewrite <- Atoi_weekday_item, <- IH.
  destruct (strconv.Atoi s) as [n|]; [|reflexivity].
  destruct ((n <? 1) || (n >? 7)); reflexivity.
Qed.

(** *** The scanner against the plain reading *)

Lemma skip_blanks_drop (rs : list Z) : fmt.skip_blanks rs = drop_while blank rs.
Proof.
  induction rs as [|r rs IH]; [reflexivity|].
  cbn [fmt.skip_blanks drop_while]. unfold blank at 1.
  destruct (fmt.isSpace r && negb (r =? 10)); [exact IH | reflexivity].
Qed.

Lemma drop_while_head {A : Type} (f : A -> bool) (l : list A) :
  match drop_while f l with
  | [] => True
  | x :: _ => f x = false
  end.
Proof.
  induction l as [|x l IH]; [exact I|].
  cbn [drop_while]. destruct (f x) eqn:E; [exact IH | exact E].
Qed.

Lemma SkipSpace_not_space (r : Z) (rest : list Z) :
  fmt.isSpace r = false -> fmt.SkipSpace (r :: rest) = Ok (r :: rest).
Proof.
  intros H. cbn [fmt.SkipSpace]. rewrite H.
  destruct (Z.eqb_spec r 13) as [->|_]; [discriminate H|].
  destruct (Z.eqb_spec r 10) as [->|_]; [discriminate H|].
  reflexivity.
Qed.

Lemma SkipSpace_newline (rest : list Z) :
  exists e, fmt.SkipSpace (10 :: rest) = Err e.
Proof. eexists. reflexivity. Qed.

Lemma accept_digit (r : Z) : existsb (Z.eqb r) fmt.decimalDigits = digit_rune r.
Proof.
  unfold fmt.decimalDigits, digit_rune. cbn [existsb].
  repeat match goal with
         | |- context [r =? ?k] => destruct (Z.eqb_spec r k) as [->|?]; [reflexivity|]
         end.
  cbn [orb]. symmetry. apply andb_false_iff. rewrite Z.leb_gt, Z.leb_gt. lia.
Qed.

Lemma accept_all_digits (rs : list Z) :
  fmt.accept_all fmt.decimalDigits rs
  = (take_while digit_rune rs, drop_while digit_rune rs).
Proof.
  induction rs as [|r rs IH]; [reflexivity|].
  cbn [fmt.accept_all take_while drop_while]. rewrite accept_digit.
  destruct (digit_rune r); [rewrite IH|]; reflexivity.
Qed.

Lemma read_while_take (f : Z -> bool) (rs : list Z) :
  fmt.read_while f rs = (take_while f rs, drop_while f rs).
Proof.
  induction rs as [|r rs IH]; [reflexivity|].
  cbn [fmt.read_while take_while drop_while].
  destruct (f r); [rewrite IH|]; reflexivity.
Qed.

Lemma take_while_all {A : Type} (f : A -> bool) (l : list A) :
  forallb f (take_while f l) = true.
Proof.
  induction l as [|x l IH]; [reflexivity|].
  cbn [take_while]. destruct (f x) eqn:E; [|reflexivity].
  cbn [forallb]. rewrite E. exact IH.
Qed.

Lemma of_runes_digits (ds : list Z) :
  forallb digit_rune ds = true ->
  utf8.of_runes ds = string_of_list_ascii (map byte_chr ds).
Proof.
  intros H. unfold utf8.of_runes, utf8.of_bytes. do 2 f_equal.
  induction ds as [|r ds IH]; [reflexivity|].
  cbn [forallb] in H. apply andb_true_iff in H. destruct H as [Hr Hds].
  unfold digit_rune in Hr. rewrite andb_true_iff, !Z.leb_le in Hr.
  cbn [flat_map]. unfold utf8.encode at 1.
  replace ((0 <=? r) && (r <=? 127)) with true
    by (symmetry; apply andb_true_iff; rewrite !Z.leb_le; lia).
  cbn [app]. f_equal. exact (IH Hds).
Qed.

Lemma digits_string_value (ds : list Z) (acc : Z) :
  forallb digit_rune ds = true ->
  strconv.all_digits (string_of_list_ascii (map byte_chr ds)) = true
  /\ strconv.digits_value acc (string_of_list_ascii (map byte_chr ds))
     = fold_left (fun acc r => acc * 10 + (r - 48)) ds acc.
Proof.
  revert acc. induction ds as [|r ds IH]; intros acc H; [split; reflexivity|].
  cbn [forallb] in H. apply andb_true_iff in H. destruct H as [Hr Hds].
  unfold digit_rune in Hr. pose proof Hr as Hr'.
  rewrite andb_true_iff, !Z.leb_le in Hr'.
  cbn [map string_of_list_ascii strconv.all_digits strconv.digits_value fold_left].
  unfold strconv.is_digit. rewrite (byte_val_chr r) by lia.
  rewrite Hr. cbn [andb]. apply IH. exact Hds.
Qed.

(** What [ParseInt] makes of a run of digits, bare or signed. *)
Lemma ParseInt_digits (ds : list Z) :
  ds <> [] -> forallb digit_rune ds = true ->
  let s := string_of_list_ascii (map byte_chr ds) in
  let v := runes_value ds in
  0 <= v
  /\ match strconv.ParseInt s with
     | Ok n => (1 <=? n) && (n <=? 400)
     | Err _ => false
     end = (1 <=? v) && (v <=? 400)
  /\ match strconv.ParseInt (String "+" s) with
     | Ok n => (1 <=? n) && (n <=? 400)
     | Err _ => false
     end = (1 <=? v) && (v <=? 400)
  /\ match strconv.ParseInt (String "-" s) with
     | Ok n => (1 <=? n) && (n <=? 400)
     | Err _ => false
     end = false.
Proof.
  intros Hne Hds s v.
  destruct (digits_string_value ds 0 Hds) as [Hall Hval].
  fold s in Hall, Hval. fold (runes_value ds) in Hval. fold v in Hval.
  assert (Hv : 0 <= v).
  { rewrite <- Hval. destruct (digits_value_lower s 0 Hall ltac:(lia)) as [H1 _]. exact H1. }
  assert (Hs : exists c s', s = String c s'
                            /\ Ascii.eqb c "+" = false /\ Ascii.eqb c "-" = false).
  { destruct ds as [|r ds']; [congruence|].
    cbn [forallb] in Hds. apply andb_true_iff in Hds. destruct Hds as [Hr _].
    unfold digit_rune in Hr. rewrite andb_true_iff, !Z.leb_le in Hr.
    exists (byte_chr r), (string_of_list_ascii (map byte_chr ds')).
    split; [reflexivity|].
    split; apply Ascii.eqb_neq; intros E;
      apply (f_equal byte_val) in E; rewrite byte_val_chr in E by lia;
      vm_compute in E; lia. }
  assert (Hu : strconv.ParseUint s
               = if 18446744073709551615 <? v then Err "value out of range" else Ok v).
  { destruct Hs as (c & s' & E & _). unfold strconv.ParseUint.
    rewrite Hall, Hval. rewrite E. reflexivity. }
  assert (Hbig : forall n, 9223372036854775808 <= n -> (1 <=? n) && (n <=? 400) = false).
  { intros n Hn. apply andb_false_iff. right. apply Z.leb_gt. lia. }
  split; [exact Hv|]. split; [|split].
  - destruct Hs as (c & s' & E & Ep & En).
    unfold strconv.ParseInt. rewrite E, Ep, En. cbn [orb]. rewrite <- E, Hu.
    destruct (18446744073709551615 <? v) eqn:E1.
    + apply Z.ltb_lt in E1. cbn [bind]. symmetry. apply Hbig. lia.
    + cbn [bind negb andb]. destruct (9223372036854775808 <=? v) eqn:E2.
      * apply Z.leb_le in E2. symmetry. apply Hbig. lia.
      * reflexivity.
  - unfold strconv.ParseInt. change (Ascii.eqb "+" "-") with false.
    change (Ascii.eqb "+" "+") with true. cbn [orb]. rewrite Hu.
    destruct (18446744073709551615 <? v) eqn:E1.
    + apply Z.ltb_lt in E1. cbn [bind]. symmetry. apply Hbig. lia.
    + cbn [bind negb andb]. destruct (9223372036854775808 <=? v) eqn:E2.
      * apply Z.leb_le in E2. symmetry. apply Hbig. lia.
      * reflexivity.
  - unfold strconv.ParseInt. change (Ascii.eqb "-" "-") with true.
    change (Ascii.eqb "-" "+") with false. cbn [orb]. rewrite Hu.
    destruct (18446744073709551615 <? v); [reflexivity|].
    cbn [bind negb andb]. destruct (9223372036854775808 <? v); [reflexivity|].
    apply andb_false_iff. left. apply Z.leb_gt. lia.
Qed.

Lemma take_while_cons_digit (r : Z) (rs : list Z) :
  digit_rune r = true ->
  take_while digit_rune (r :: rs) = r :: take_while digit_rune rs.
Proof. intros H. cbn [take_while]. rewrite H. reflexivity. Qed.

(** [scanInt] reads the leading integer, as far as a count from 1 to 400
    is concerned. *)
Lemma scanInt_leading_int (rs : list Z) :
  match rs with [] => True | r :: _ => fmt.isSpace r = false end ->
  match fmt.scanInt rs with
  | Ok (n, _) => (1 <=? n) && (n <=? 400)
  | Err _ => false
  end
  = match leading_int rs with
    | Some n => (1 <=? n) && (n <=? 400)
    | None => false
    end.
Proof.
  destruct rs as [|r rest]; intros Hhead; [reflexivity|].
  unfold fmt.scanInt. rewrite (SkipSpace_not_space r rest Hhead).
  cbn [bind fmt.notEOF fmt.accept fmt.sign existsb].
  unfold leading_int.
  destruct (Z.eqb_spec r 45) as [->|Hn45].
  - change (45 =? 43) with false. cbn [orb].
    unfold fmt.scanNumber. destruct rest as [|r2 rest2]; [reflexivity|].
    cbn [bind fmt.notEOF fmt.accept]. rewrite accept_digit.
    destruct (digit_rune r2) eqn:Ed; [|cbn [take_while]; rewrite Ed; reflexivity].
    rewrite accept_all_digits. cbn [bind app].
    rewrite <- (take_while_cons_digit r2 rest2 Ed).
    set (ds := take_while digit_rune (r2 :: rest2)).
    assert (Hne : ds <> []) by (unfold ds; rewrite take_while_cons_digit by exact Ed; discriminate).
    assert (Hds : forallb digit_rune ds = true) by apply take_while_all.
    destruct (ParseInt_digits ds Hne Hds) as (Hv & _ & _ & Hneg).
    replace (utf8.of_runes (45 :: ds))
      with (String "-" (string_of_list_ascii (map byte_chr ds))).
    2:{ symmetry. change (45 :: ds) with ([45] ++ ds)%list.
        unfold utf8.of_runes. rewrite flat_map_app.
        change (flat_map utf8.encode [45]) with [45].
        unfold utf8.of_bytes. cbn [app map string_of_list_ascii].
        f_equal. exact (of_runes_digits ds Hds). }
    destruct (strconv.ParseInt _) as [n|] eqn:E; cbn [bind].
    + rewrite Hneg. destruct ds; [congruence|].
      symmetry. apply andb_false_iff. left. apply Z.leb_gt. lia.
    + destruct ds; [congruence|].
      symmetry. apply andb_false_iff. left. apply Z.leb_gt. lia.
  - destruct (Z.eqb_spec r 43) as [->|Hn43].
    + cbn [orb].
      unfold fmt.scanNumber. destruct rest as [|r2 rest2]; [reflexivity|].
      cbn [bind fmt.notEOF fmt.accept]. rewrite accept_digit.
      destruct (digit_rune r2) eqn:Ed; [|cbn [take_while]; rewrite Ed; reflexivity].
      rewrite accept_all_digits. cbn [bind app].
      rewrite <- (take_while_cons_digit r2 rest2 Ed).
      set (ds := take_while digit_rune (r2 :: rest2)).
      assert (Hne : ds <> []) by (unfold ds; rewrite take_while_cons_digit by exact Ed; discriminate).
      assert (Hds : forallb digit_rune ds = true) by apply take_while_all.
      destruct (ParseInt_digits ds Hne Hds) as (Hv & _ & Hpos & _).
      replace (utf8.of_runes (43 :: ds))
        with (String "+" (string_of_list_ascii (map byte_chr ds))).
      2:{ symmetry. change (43 :: ds) with ([43] ++ ds)%list.
          unfold utf8.of_runes. rewrite flat_map_app.
          change (flat_map utf8.encode [43]) with [43].
          unfold utf8.of_bytes. cbn [app map string_of_list_ascii].
          f_equal. exact (of_runes_digits ds Hds). }
      destruct (strconv.ParseInt _) as [n|] eqn:E; cbn [bind];
        rewrite Hpos; destruct ds; congruence.
    + cbn [orb].
      unfold fmt.scanNumber. cbn [bind fmt.notEOF fmt.accept]. rewrite accept_digit.
      destruct (digit_rune r) eqn:Ed; [|cbn [take_while]; rewrite Ed; reflexivity].
      rewrite accept_all_digits. cbn [bind app].
      rewrite <- (take_while_cons_digit r rest Ed).
      set (ds := take_while digit_rune (r :: rest)).
      assert (Hne : ds <> []) by (unfold ds; rewrite take_while_cons_digit by exact Ed; discriminate).
      assert (Hds : forallb digit_rune ds = true) by apply take_while_all.
      destruct (ParseInt_digits ds Hne Hds) as (Hv & Hbare & _ & _).
      rewrite (of_runes_digits ds Hds).
      destruct (strconv.ParseInt _) as [n|] eqn:E; cbn [bind];
        rewrite Hbare; destruct ds; congruence.
Qed.

Lemma prefix_two (a b : ascii) (s : string) :
  String.prefix (String a (String b "")) s = true ->
  exists rest, s = String a (String b rest).
Proof.
  destruct s as [|c1 [|c2 rest]]; simpl.
  - discriminate.
  - destruct (ascii_dec a c1); discriminate.
  - destruct (ascii_dec a c1) as [->|]; [|discriminate].
    destruct (ascii_dec b c2) as [->|]; [|discriminate].
    intros _. exists rest. reflexivity.
Qed.

Lemma in_range_negb (n : Z) :
  negb ((n <=? 0) || (n >? 400)) = (1 <=? n) && (n <=? 400).
Proof.
  rewrite negb_orb, Z.gtb_ltb, <- Z.leb_antisym. f_equal.
  destruct (Z.leb_spec n 0); destruct (Z.leb_spec 1 n); try reflexivity; lia.
Qed.

Lemma blank_false (r : Z) : blank r = false -> r <> 10 -> fmt.isSpace r = false.
Proof.
  unfold blank. intros H Hr. apply andb_false_iff in H.
  destruct H as [H|H]; [exact H|].
  apply negb_false_iff, Z.eqb_eq in H. contradiction.
Qed.

(** A "d " rule passes the checks of [NextDate] exactly when the integer
    that leads its count is between 1 and 400. *)
Lemma Sscanf_d_count (repeat : string) :
  strings.HasPrefix repeat "d " = true ->
  match fmt.Sscanf_d repeat with
  | Ok days => negb ((days <=? 0) || (days >? 400))
  | Err _ => false
  end = day_count_ok repeat.
Proof.
  intros Hp. apply prefix_two in Hp. destruct Hp as [rest ->].
  unfold fmt.Sscanf_d, day_count_ok, day_count, utf8.runes.
  change (utf8.bytes (String "d" (String " " rest)))
    with (100 :: 32 :: utf8.bytes rest).
  cbn [utf8.decode]. change (100 <? 128) with true. change (32 <? 128) with true.
  cbv iota. cbn [fmt.literal skipn]. change (100 =? 100) with true. cbv iota.
  cbn [bind fmt.format_space]. change (fmt.isSpace 32) with true.
  change (32 =? 10) with false. cbn [negb]. cbv iota. cbn [bind].
  rewrite skip_blanks_drop.
  pose proof (drop_while_head blank (utf8.decode (utf8.bytes rest))) as Hhead.
  destruct (drop_while blank (utf8.decode (utf8.bytes rest))) as [|r rs].
  - reflexivity.
  - destruct (Z.eqb_spec r 10) as [->|Hr].
    + reflexivity.
    + pose proof (blank_false r Hhead Hr) as Hsp.
      rewrite (SkipSpace_not_space r rs Hsp). cbn [bind].
      rewrite <- (scanInt_leading_int (r :: rs) Hsp).
      destruct (fmt.scanInt (r :: rs)) as [[n rs']|]; cbn [bind].
      * apply in_range_negb.
      * reflexivity.
Qed.

(** A "w " rule passes the checks of [NextDate] exactly when its first word
    is a list of items that are integers from 1 to 7. *)
Lemma Sscanf_w_items (repeat : string) :
  strings.HasPrefix repeat "w " = true ->
  match fmt.Sscanf_w repeat with
  | Ok daysOfWeek => check_days (strings.Split daysOfWeek ",")
  | Err _ => false
  end = weekdays_ok repeat.
Proof.
  intros Hp. apply prefix_two in Hp. destruct Hp as [rest ->].
  unfold fmt.Sscanf_w, weekdays_ok, weekday_word, utf8.runes.
  change (utf8.bytes (String "w" (String " " rest)))
    with (119 :: 32 :: utf8.bytes rest).
  cbn [utf8.decode]. change (119 <? 128) with true. change (32 <? 128) with true.
  cbv iota. cbn [fmt.literal skipn]. change (119 =? 119) with true. cbv iota.
  cbn [bind fmt.format_space]. change (fmt.isSpace 32) with true.
  change (32 =? 10) with false. cbn [negb]. cbv iota. cbn [bind].
  rewrite skip_blanks_drop.
  pose proof (drop_while_head blank (utf8.decode (utf8.bytes rest))) as Hhead.
  destruct (drop_while blank (utf8.decode (utf8.bytes rest))) as [|r rs].
  - reflexivity.
  - destruct (Z.eqb_spec r 10) as [->|Hr].
    + reflexivity.
    + pose proof (blank_false r Hhead Hr) as Hsp.
      rewrite (SkipSpace_not_space r rs Hsp). cbn [bind].
      unfold fmt.convertString, fmt.token.
      rewrite (SkipSpace_not_space r rs Hsp). cbn [bind fmt.notEOF].
      rewrite (SkipSpace_not_space r rs Hsp). cbn [bind].
      rewrite read_while_take. cbn [take_while].
      assert (Hns : fmt.notSpace r = true) by (unfold fmt.notSpace; rewrite Hsp; reflexivity).
      rewrite Hns. cbn [bind].
      apply check_days_items.
Qed.

(** ** The error for a bad count *)

Lemma NextDate_bad_count (fuel : nat) (now a : Time) (anchor repeat : string) :
  Parse anchor = Some a ->
  (NextDate fuel now anchor repeat = Some (Err InvalidRepeatCount)
   <-> (strings.HasPrefix repeat "d " = true /\ day_count_ok repeat = false)
       \/ (strings.HasPrefix repeat "w " = true /\ weekdays_ok repeat = false)).
Proof.
  intros Ha. unfold NextDate. rewrite Ha.
  destruct (String.eqb_spec repeat "") as [->|Hne].
  { split; [discriminate|]. intros [[H _]|[H _]]; discriminate H. }
  destruct (String.eqb_spec repeat "y") as [->|Hny].
  { split.
    - intros H. apply returned_Some in H. destruct H as (r & _ & H). discriminate H.
    - intros [[H _]|[H _]]; discriminate H. }
  destruct (strings.HasPrefix repeat "d ") eqn:Hd.
  { pose proof (Sscanf_d_count repeat Hd) as E.
    assert (Hw : strings.HasPrefix repeat "w " = false).
    { apply prefix_two in Hd. destruct Hd as [rest ->]. reflexivity. }
    rewrite Hw.
    destruct (fmt.Sscanf_d repeat) as [days|].
    - destruct ((days <=? 0) || (days >? 400)); cbn [negb] in E.
      + split; [intros _; left; split; [reflexivity | congruence] | reflexivity].
      + split.
        * intros H. apply returned_Some in H. destruct H as (r & _ & H). discriminate H.
        * intros [[_ H]|[H _]]; congruence.
    - split; [intros _; left; split; [reflexivity | congruence] | reflexivity]. }
  destruct (strings.HasPrefix repeat "w ") eqn:Hw.
  { pose proof (Sscanf_w_items repeat Hw) as E.
    destruct (fmt.Sscanf_w repeat) as [w|].
    - destruct (check_days (strings.Split w ",")); cbn [negb].
      + split.
        * intros H. apply returned_Some in H. destruct H as (r & _ & H). discriminate H.
        * intros [[H _]|[_ H]]; congruence.
      + split; [intros _; right; split; [reflexivity | congruence] | reflexivity].
    - split; [intros _; right; split; [reflexivity | congruence] | reflexivity]. }
  split; [discriminate|]. intros [[H _]|[H _]]; discriminate H.
Qed.

(** C5, as amended: for a today and an anchor that parse, [NextDate] fails
    with the error for a bad count exactly when the rule text starts with
    "d " and the integer that leads the text after it (blanks skipped, sign
    allowed, whatever follows the digits ignored) is missing or not between
    1 and 400, or starts with "w " and the first word after it is missing
    or has a comma-separated item that is not an integer from 1 to 7 (text
    after that word ignored); in particular "d 0", "d 401", "d 500", a
    count without digits such as "d x", and "w 0,8" fail with it. *)
Theorem InvalidRepeatCount_iff
    (today anchor : string) (now a : Time) (repeat : string) :
  Parse today = Some now -> Parse anchor = Some a ->
  (NextDate_returns now anchor repeat (Err InvalidRepeatCount)
   <-> (strings.HasPrefix repeat "d " = true /\ day_count_ok repeat = false)
       \/ (strings.HasPrefix repeat "w " = true /\ weekdays_ok repeat = false))
  /\ Forall (fun text => NextDate_returns now anchor text (Err InvalidRepeatCount))
       ["d 0"; "d 401"; "d 500"; "d x"; "d "; "w 0,8"; "w 1,,2"; "w "].
Proof.
  intros _ Ha.
  assert (Hiff : forall repeat,
            NextDate_returns now anchor repeat (Err InvalidRepeatCount)
            <-> (strings.HasPrefix repeat "d " = true /\ day_count_ok repeat = false)
                \/ (strings.HasPrefix repeat "w " = true /\ weekdays_ok repeat = false)).
  { intros text. split.
    - intros [fuel H]. apply (NextDate_bad_count fuel now a anchor text Ha). exact H.
    - intros H. exists 0%nat.
      apply (NextDate_bad_count 0 now a anchor text Ha). exact H. }
  split; [apply Hiff|].
  repeat constructor; apply Hiff;
    first [ left; split; reflexivity | right; split; reflexivity ].
Qed.

Lemma InvalidRepeatCount_iff_witness :
  (NextDate_returns (mkTime 2024 3 1) "20240101" "d 500" (Err InvalidRepeatCount)
   <-> (strings.HasPrefix "d 500" "d " = true /\ day_count_ok "d 500" = false)
       \/ (strings.HasPrefix "d 500" "w " = true /\ weekdays_ok "d 500" = false))
  /\ Forall (fun text => NextDate_returns (mkTime 2024 3 1) "20240101" text
                           (Err InvalidRepeatCount))
       ["d 0"; "d 401"; "d 500"; "d x"; "d "; "w 0,8"; "w 1,,2"; "w "].
Proof.
  apply (InvalidRepeatCount_iff "20240301" "20240101"
           (mkTime 2024 3 1) (mkTime 2024 1 1) "d 500").
  - reflexivity.
  - reflexivity.
Defined.

(** C5 fails as stated: the text after "d " in "d 5x" is not a number and
    the word after "w " in "w 1,3 x,9" is followed by more, yet [NextDate]
    accepts both, reading the count 5 and the days 1,3. *)
Lemma InvalidRepeatCount_counterexample :
  (strings.HasPrefix "d 5x" "d " = true
   /\ count_text "d 5x" = "5x" /\ numeric "5x" = false
   /\ NextDate_returns (mkTime 2024 3 1) "20240101" "d 5x" (Ok "20240306")
   /\ ~ NextDate_returns (mkTime 2024 3 1) "20240101" "d 5x" (Err InvalidRepeatCount))
  /\ (strings.HasPrefix "w 1,3 x,9" "w " = true
      /\ strings.Split (count_text "w 1,3 x,9") "," = ["1"; "3 x"; "9"]
      /\ numeric "3 x" = false
      /\ NextDate_returns (mkTime 2024 3 1) "20240101" "w 1,3 x,9" (Ok "20240302")
      /\ ~ NextDate_returns (mkTime 2024 3 1) "20240101" "w 1,3 x,9"
             (Err InvalidRepeatCount)).
Proof.
  assert (Hd : NextDate_returns (mkTime 2024 3 1) "20240101" "d 5x" (Ok "20240306"))
    by (exists 20%nat; reflexivity).
  assert (Hw : NextDate_returns (mkTime 2024 3 1) "20240101" "w 1,3 x,9" (Ok "20240302"))
    by (exists 100%nat; vm_compute; reflexivity).
  split.
  - repeat (split; [reflexivity|]). split; [exact Hd|].
    intros H. pose proof (NextDate_returns_unique _ _ _ _ _ Hd H). discriminate.
  - repeat (split; [reflexivity|]). split; [exact Hw|].
    intros H. pose proof (NextDate_returns_unique _ _ _ _ _ Hw H). discriminate.
Qed.

(** ** The date of a task at creation and update *)

(** The two handlers carry the same block. *)
Lemma updateTask_date_eq (fuel : nat) (now : Time) (task : Task) :
  updateTask_date fuel now task = addTask_date fuel now task.
Proof. reflexivity. Qed.

Lemma Parse_not_empty (s : string) (d : Time) : Parse s = Some d -> s <> "".
Proof. intros H E. subst s. discriminate H. Qed.

(** A date that parses and is not before today is kept, whatever the rule
    and without entering the loop. *)
Lemma addTask_date_kept (fuel : nat) (now parsedDate : Time) (task : Task) :
  calendar_date now ->
  Parse (Date task) = Some parsedDate -> NotAfter now parsedDate ->
  addTask_date fuel now task = Some (Ok task).
Proof.
  intros Hnow Hp Hle. unfold addTask_date.
  pose proof (Parse_not_empty _ _ Hp) as Hne.
  apply String.eqb_neq in Hne. rewrite Hne, Hp.
  pose proof (proj1 (Parse_Some_inv _ _ Hp)) as Hc.
  unfold String.ltb. rewrite (compare_Format parsedDate now Hc Hnow).
  unfold NotAfter in Hle.
  rewrite (Compare_rank now parsedDate (proj1 Hnow) (proj1 Hc)) in Hle.
  rewrite (Compare_rank parsedDate now (proj1 Hc) (proj1 Hnow)).
  destruct (rank parsedDate ?= rank now) eqn:E; try reflexivity.
  rewrite Z.compare_lt_iff in E. rewrite Z.compare_gt_iff in Hle. lia.
Qed.

(** C2: when the date of the task parses to a calendar date that is today
    or later, creation and update keep the task as it is: its date is the
    canonical form of the parsed date, whatever the rule text, and no
    iteration of the recurrence loop is needed (any [fuel], even none). *)
Theorem normalize_keeps_future_date
    (fuel : nat) (now parsedDate : Time) (task : Task) :
  calendar_date now ->
  Parse (Date task) = Some parsedDate -> NotAfter now parsedDate ->
  addTask_date fuel now task = Some (Ok task)
  /\ updateTask_date fuel now task = Some (Ok task)
  /\ Date task = Format parsedDate.
Proof.
  intros Hnow Hp Hle.
  change (updateTask_date fuel now task) with (addTask_date fuel now task).
  rewrite (addTask_date_kept fuel now parsedDate task Hnow Hp Hle).
  split; [reflexivity|]. split; [reflexivity|].
  symmetry. exact (proj2 (Parse_Some_inv _ _ Hp)).
Qed.

Lemma calendar_date_2024_03_01 : calendar_date (mkTime 2024 3 1).
Proof. split; [apply validb_spec; reflexivity | simpl; lia]. Qed.

Lemma normalize_keeps_future_date_witness :
  let task := mkTask 0 "20240315" "pay rent" "" "d 7" in
  addTask_date 0 (mkTime 2024 3 1) task = Some (Ok task)
  /\ updateTask_date 0 (mkTime 2024 3 1) task = Some (Ok task)
  /\ Date task = Format (mkTime 2024 3 15).
Proof.
  apply (normalize_keeps_future_date 0 (mkTime 2024 3 1) (mkTime 2024 3 15)
           (mkTask 0 "20240315" "pay rent" "" "d 7")).
  - exact calendar_date_2024_03_01.
  - reflexivity.
  - vm_compute. discriminate.
Defined.

Lemma addTask_date_Repeat (fuel : nat) (now : Time) (task task' : Task) :
  addTask_date fuel now task = Some (Ok task') -> Repeat task' = Repeat task.
Proof.
  unfold addTask_date.
  destruct (String.eqb (Date task) ""); [intros H; inversion H; reflexivity|].
  destruct (Parse (Date task)); [|discriminate].
  destruct (String.ltb _ _); [|intros H; inversion H; reflexivity].
  destruct (String.eqb (Repeat task) ""); [intros H; inversion H; reflexivity|].
  destruct (NextDate fuel now (Date task) (Repeat task)) as [[nextDate|]|];
    try discriminate.
  intros H; inversion H; reflexivity.
Qed.

(** C6, as amended: when creation or update yields a task whose date is in
    the canonical form, a calendar date of the years 0 to 9999, at or
    after today, the task carries the rule it came with, and creation and
    update of that task yield it again, unchanged. *)
Theorem normalize_idempotent
    (fuel fuel' : nat) (now result : Time) (task task' : Task) :
  calendar_date now ->
  addTask_date fuel now task = Some (Ok task')
  \/ updateTask_date fuel now task = Some (Ok task') ->
  Parse (Date task') = Some result -> NotAfter now result ->
  Repeat task' = Repeat task
  /\ addTask_date fuel' now task' = Some (Ok task')
  /\ updateTask_date fuel' now task' = Some (Ok task').
Proof.
  intros Hnow Hnorm Hp Hle.
  assert (H : addTask_date fuel now task = Some (Ok task'))
    by (destruct Hnorm as [H|H]; exact H).
  split; [exact (addTask_date_Repeat _ _ _ _ H)|].
  change (updateTask_date fuel' now task') with (addTask_date fuel' now task').
  rewrite (addTask_date_kept fuel' now result task' Hnow Hp Hle).
  split; reflexivity.
Qed.

Lemma normalize_idempotent_witness :
  let task := mkTask 0 "20240101" "water plants" "" "d 7" in
  let task' := mkTask 0 "20240304" "water plants" "" "d 7" in
  Repeat task' = Repeat task
  /\ addTask_date 0 (mkTime 2024 3 1) task' = Some (Ok task')
  /\ updateTask_date 0 (mkTime 2024 3 1) task' = Some (Ok task').
Proof.
  apply (normalize_idempotent 20 0 (mkTime 2024 3 1) (mkTime 2024 3 4)
           (mkTask 0 "20240101" "water plants" "" "d 7")
           (mkTask 0 "20240304" "water plants" "" "d 7")).
  - exact calendar_date_2024_03_01.
  - left. reflexivity.
  - reflexivity.
  - vm_compute. discriminate.
Defined.

(** The scenarios of the specification, with today 2024-03-01. *)
Example scenario_empty_date :
  addTask_date 0 (mkTime 2024 3 1) (mkTask 0 "" "t" "" "y")
  = Some (Ok (mkTask 0 "20240301" "t" "" "y")).
Proof. reflexivity. Qed.

Example scenario_yearly :
  addTask_date 5 (mkTime 2024 3 1) (mkTask 0 "20230301" "t" "" "y")
  = Some (Ok (mkTask 0 "20250301" "t" "" "y")).
Proof. reflexivity. Qed.

Example scenario_every_7_days :
  addTask_date 20 (mkTime 2024 3 1) (mkTask 0 "20240101" "t" "" "d 7")
  = Some (Ok (mkTask 0 "20240304" "t" "" "d 7")).
Proof. reflexivity. Qed.

Example scenario_future_date :
  addTask_date 0 (mkTime 2024 3 1) (mkTask 0 "20240315" "t" "" "d 7")
  = Some (Ok (mkTask 0 "20240315" "t" "" "d 7")).
Proof. reflexivity. Qed.

Example scenario_no_rule :
  addTask_date 0 (mkTime 2024 3 1) (mkTask 0 "20231231" "t" "" "")
  = Some (Ok (mkTask 0 "20240301" "t" "" "")).
Proof. reflexivity. Qed.

Example scenario_past_date_bad_rule :
  addTask_date 0 (mkTime 2024 3 1) (mkTask 0 "20240101" "t" "" "x")
  = Some (Err (HttpError "Invalid repeat rule: unsupported repeat rule: x" 400)).
Proof. reflexivity. Qed.

Example scenario_bad_count :
  NextDate 0 (mkTime 2024 3 1) "20240101" "d 500" = Some (Err InvalidRepeatCount).
Proof. reflexivity. Qed.

(** ** The calendar model against the count of days *)

Ltac eval_daysBefore :=
  repeat match goal with
         | |- context [nth (Z.to_nat ?k) daysBefore 0] =>
             let v := eval vm_compute in (nth (Z.to_nat k) daysBefore 0) in
             change (nth (Z.to_nat k) daysBefore 0) with v
         end.

Lemma leaps_before_succ (y : Z) :
  leaps_before (y + 1) = leaps_before y + (if isLeap y then 1 else 0).
Proof.
  unfold leaps_before, isLeap.
  destruct (Z.eqb_spec (y mod 4) 0) as [H4|H4];
    destruct (Z.eqb_spec (y mod 100) 0) as [H100|H100];
    destruct (Z.eqb_spec (y mod 400) 0) as [H400|H400];
    cbn [andb orb negb];
    Z.div_mod_to_equations; lia.
Qed.

(** The day after is one day later in the count of days. *)
Lemma next_day_dayNumber (t : Time) :
  valid t -> dayNumber (next_day t) = dayNumber t + 1.
Proof.
  intros [Hm Hd]. destruct t as [y m d]. cbn [Year Month Day] in *.
  unfold next_day, dayNumber. cbn [Year Month Day].
  destruct (d <? daysIn m y) eqn:E.
  - cbn [Year Month Day]. lia.
  - apply Z.ltb_ge in E. assert (Ed : d = daysIn m y) by lia.
    destruct (m <? 12) eqn:E2.
    + apply Z.ltb_lt in E2. cbn [Year Month Day]. subst d.
      generalize (365 * y + leaps_before y). intros Y.
      assert (Hc : m = 1 \/ m = 2 \/ m = 3 \/ m = 4 \/ m = 5 \/ m = 6 \/ m = 7
                  \/ m = 8 \/ m = 9 \/ m = 10 \/ m = 11) by lia.
      repeat (destruct Hc as [Hc | Hc]); subst m; unfold daysIn;
        eval_daysBefore; destruct (isLeap y); cbn; lia.
    + apply Z.ltb_ge in E2. assert (m = 12) by lia. subst m d.
      cbn [Year Month Day]. rewrite leaps_before_succ.
      replace (365 * (y + 1)) with (365 * y + 365) by lia.
      generalize (leaps_before y) (365 * y). intros L Y.
      unfold daysIn. eval_daysBefore.
      destruct (isLeap y); destruct (isLeap (y + 1)); cbn; lia.
Qed.

(** [AddDate(0, 0, n)] is [n] days later in the count of days. *)
Theorem AddDate_days_dayNumber (t : Time) (n : Z) :
  valid t -> 0 <= n -> dayNumber (AddDate t 0 0 n) = dayNumber t + n.
Proof.
  intros Ht Hn. rewrite (AddDate_days t n Ht Hn).
  rewrite <- (Z2Nat.id n Hn) at 2.
  induction (Z.to_nat n) as [|k IH].
  - simpl. lia.
  - unfold add_days in *. rewrite Nat.iter_succ.
    rewrite next_day_dayNumber by (apply (add_days_valid k t Ht)).
    rewrite IH. lia.
Qed.

Lemma AddDate_days_dayNumber_witness :
  dayNumber (AddDate (mkTime 2023 12 31) 0 0 400) = dayNumber (mkTime 2023 12 31) + 400.
Proof.
  apply (AddDate_days_dayNumber (mkTime 2023 12 31) 400).
  - apply validb_spec. reflexivity.
  - lia.
Defined.

(** A string parses exactly when it is the canonical form of a date of the
    calendar in the years 0 to 9999, and then to that date. *)
Theorem Parse_Format_roundtrip (s : string) (t : Time) :
  Parse s = Some t <-> calendar_date t /\ Format t = s.
Proof. apply Parse_iff. Qed.

(** ** The recurrence engine on any rule text *)

(** The order of the checks of [NextDate]: the date is parsed before the
    rule is looked at, an empty rule is reported before any other, and a
    rule is unsupported exactly when it is neither empty nor "y" and
    starts with neither "d " nor "w ". None of the three needs the loop. *)
Theorem NextDate_error_order (fuel : nat) (now : Time) (date repeat : string) :
  (NextDate fuel now date repeat = Some (Err InvalidDateFormat)
   <-> Parse date = None)
  /\ (NextDate fuel now date repeat = Some (Err EmptyRule)
      <-> Parse date <> None /\ repeat = "")
  /\ (NextDate fuel now date repeat = Some (Err UnsupportedRule)
      <-> Parse date <> None /\ repeat <> "" /\ repeat <> "y"
          /\ strings.HasPrefix repeat "d " = false
          /\ strings.HasPrefix repeat "w " = false).
Proof.
  unfold NextDate.
  destruct (Parse date) as [d|]; [|intuition congruence].
  destruct (String.eqb_spec repeat "") as [E0|E0]; [intuition congruence|].
  destruct (String.eqb_spec repeat "y") as [Ey|Ey].
  { destruct (advance fuel _ now _); cbn [option_map]; intuition congruence. }
  destruct (strings.HasPrefix repeat "d ") eqn:Ed.
  { destruct (fmt.Sscanf_d repeat) as [days|e]; [|intuition congruence].
    destruct ((days <=? 0) || (days >? 400)); [intuition congruence|].
    destruct (advance fuel _ now _); cbn [option_map]; intuition congruence. }
  destruct (strings.HasPrefix repeat "w ") eqn:Ew; [|intuition congruence].
  destruct (fmt.Sscanf_w repeat) as [daysOfWeek|e]; [|intuition congruence].
  destruct (negb (check_days (strings.Split daysOfWeek ",")));
    [intuition congruence|].
  destruct (advance fuel _ now _); cbn [option_map]; intuition congruence.
Qed.

(** Whatever the rule text, [NextDate] on a date that parses fails before
    its loop or runs the loop of a well-formed rule. *)
Lemma NextDate_cases (now d : Time) (date repeat : string) :
  Parse date = Some d ->
  (exists e, forall fuel, NextDate fuel now date repeat = Some (Err e))
  \/ (exists rule, well_formed rule
        /\ forall fuel, NextDate fuel now date repeat
                        = returned (advance fuel (rule_step rule) now (rule_step rule d))).
Proof.
  intros H. unfold NextDate. rewrite H.
  destruct (String.eqb repeat ""); [left; exists EmptyRule; reflexivity|].
  destruct (String.eqb repeat "y").
  { right. exists Yearly. split; [exact I | reflexivity]. }
  destruct (strings.HasPrefix repeat "d ").
  { destruct (fmt.Sscanf_d repeat) as [days|e];
      [|left; exists InvalidRepeatCount; reflexivity].
    destruct ((days <=? 0) || (days >? 400)) eqn:E;
      [left; exists InvalidRepeatCount; reflexivity|].
    right. exists (EveryNDays days). split; [|reflexivity].
    apply orb_false_iff in E. destruct E as [E1 E2].
    apply Z.leb_gt in E1. rewrite Z.gtb_ltb in E2. apply Z.ltb_ge in E2.
    cbn. lia. }
  destruct (strings.HasPrefix repeat "w ");
    [|left; exists UnsupportedRule; reflexivity].
  destruct (fmt.Sscanf_w repeat) as [daysOfWeek|e];
    [|left; exists InvalidRepeatCount; reflexivity].
  destruct (negb (check_days (strings.Split daysOfWeek ",")));
    [left; exists InvalidRepeatCount; reflexivity|].
  right. exists (WeeklyOnDays [1]). split; [|reflexivity].
  split; [discriminate | repeat constructor; lia].
Qed.

Lemma NextDate_Ok_inv (fuel : nat) (now : Time) (date repeat s : string) :
  NextDate fuel now date repeat = Some (Ok s) ->
  exists (a : Time) (rule : RecurrenceRule) (r : Time),
    Parse date = Some a /\ well_formed rule
    /\ advance fuel (rule_step rule) now (rule_step rule a) = Some r
    /\ s = Format r.
Proof.
  intros H. destruct (Parse date) as [a|] eqn:Ea.
  - destruct (NextDate_cases now a date repeat Ea) as [[e He] | (rule & Hwf & Hr)].
    + rewrite He in H. discriminate H.
    + rewrite Hr in H. apply returned_Some in H. destruct H as (r & Hadv & E).
      injection E as E. exists a, rule, r.
      split; [reflexivity|]. split; [exact Hwf|]. split; assumption.
  - unfold NextDate in H. rewrite Ea in H. discriminate H.
Qed.

(** Every date that [NextDate] answers, for whatever date and rule text,
    is the formatted form of a day of the calendar after [now], and its
    string is above that of [now]. *)
Theorem NextDate_date_after_now
    (fuel : nat) (now : Time) (date repeat s : string) :
  calendar_date now ->
  NextDate fuel now date repeat = Some (Ok s) ->
  exists r : Time,
    s = Format r /\ valid r /\ Before now r
    /\ String.ltb (Format now) s = true.
Proof.
  intros Hnow H.
  destruct (NextDate_Ok_inv _ _ _ _ _ H) as (a & rule & r & Ha & Hwf & Hadv & ->).
  apply Parse_Some_inv in Ha. destruct Ha as [Hca _].
  destruct (rule_loop_after _ _ _ _ _ Hnow Hca Hwf Hadv) as (Hv & Hb & Hlt).
  exists r. split; [reflexivity|]. split; [exact Hv|]. split; assumption.
Qed.

Lemma NextDate_date_after_now_witness :
  exists r : Time,
    "20240306" = Format r /\ valid r /\ Before (mkTime 2024 3 1) r
    /\ String.ltb (Format (mkTime 2024 3 1)) "20240306" = true.
Proof.
  apply (NextDate_date_after_now 20 (mkTime 2024 3 1) "20240101" "d 5x" "20240306").
  - split; [apply validb_spec; reflexivity | simpl; lia].
  - vm_compute. reflexivity.
Defined.

(** [NextDate] answers a date exactly when the date parses and the rule is
    "y", or starts with "d " and leads with a count from 1 to 400, or
    starts with "w " and its first word lists integers from 1 to 7. *)
Theorem NextDate_accepts_iff (now : Time) (date repeat : string) :
  calendar_date now ->
  ((exists s, NextDate_returns now date repeat (Ok s))
   <-> Parse date <> None
       /\ (repeat = "y"
           \/ (strings.HasPrefix repeat "d " = true /\ day_count_ok repeat = true)
           \/ (strings.HasPrefix repeat "w " = true /\ weekdays_ok repeat = true))).
Proof.
  intros Hnow. split.
  - intros (s & fuel & H).
    destruct (Parse date) as [a|] eqn:Ea;
      [|unfold NextDate in H; rewrite Ea in H; discriminate H].
    split; [discriminate|].
    unfold NextDate in H. rewrite Ea in H.
    destruct (String.eqb repeat ""); [discriminate H|].
    destruct (String.eqb_spec repeat "y") as [Ey|Ey]; [left; exact Ey|].
    right.
    destruct (strings.HasPrefix repeat "d ") eqn:Ed.
    + left. split; [reflexivity|]. rewrite <- (Sscanf_d_count repeat Ed).
      destruct (fmt.Sscanf_d repeat) as [days|e]; [|discriminate H].
      destruct ((days <=? 0) || (days >? 400)); [discriminate H | reflexivity].
    + destruct (strings.HasPrefix repeat "w ") eqn:Ew; [|discriminate H].
      right. split; [reflexivity|]. rewrite <- (Sscanf_w_items repeat Ew).
      destruct (fmt.Sscanf_w repeat) as [daysOfWeek|e]; [|discriminate H].
      destruct (check_days (strings.Split daysOfWeek ",")); [reflexivity|discriminate H].
  - intros [Hp Hrule].
    destruct (Parse date) as [a|] eqn:Ea; [clear Hp|contradiction Hp; reflexivity].
    pose proof (proj1 (Parse_Some_inv _ _ Ea)) as Hca.
    destruct (NextDate_cases now a date repeat Ea) as [[e He] | (rule & Hwf & Hr)].
    + exfalso. specialize (He O).
      destruct (NextDate_bad_count O now a date repeat Ea) as [Hbad _].
      destruct (NextDate_error_order O now date repeat) as (H1 & H2 & H3).
      destruct e.
      * apply H1 in He. congruence.
      * apply H2 in He. destruct He as [_ He]. subst repeat.
        destruct Hrule as [H | [[H _] | [H _]]]; discriminate H.
      * apply Hbad in He.
        destruct Hrule as [H | [[Hd Hok] | [Hw Hok]]].
        -- subst repeat. destruct He as [[H _] | [H _]]; discriminate H.
        -- destruct He as [[_ H] | [H _]]; [congruence|].
           apply prefix_two in Hd. destruct Hd as [rest ->]. discriminate H.
        -- destruct He as [[H _] | [_ H]]; [|congruence].
           apply prefix_two in Hw. destruct Hw as [rest ->]. discriminate H.
      * apply H3 in He. destruct He as (_ & _ & Hy & Hd & Hw).
        destruct Hrule as [H | [[H _] | [H _]]]; congruence.
    + destruct (rule_loop_terminates now a rule enough_fuel Hnow Hca Hwf
                  (Nat.le_refl _)) as [r Hadv].
      exists (Format r), enough_fuel. rewrite Hr, Hadv. reflexivity.
Qed.

Lemma NextDate_accepts_iff_witness :
  (exists s, NextDate_returns (mkTime 2024 3 1) "20240101" "d 7" (Ok s))
  <-> Parse "20240101" <> None
      /\ ("d 7" = "y"
          \/ (strings.HasPrefix "d 7" "d " = true /\ day_count_ok "d 7" = true)
          \/ (strings.HasPrefix "d 7" "w " = true /\ weekdays_ok "d 7" = true)).
Proof.
  apply (NextDate_accepts_iff (mkTime 2024 3 1) "20240101" "d 7").
  split; [apply validb_spec; reflexivity | simpl; lia].
Defined.

(** ** The date returned is the first of the series *)

(** Within the years of the format, the loop of a well-formed rule stops
    at the first of the dates one step, two steps, ... after the anchor
    that is after [now]. *)
Lemma rule_loop_first (now a r : Time) (rule : RecurrenceRule) (fuel : nat) :
  calendar_date now -> calendar_date a -> well_formed rule ->
  Year (rule_step rule now) <= 9999 -> Year (rule_step rule a) <= 9999 ->
  advance fuel (rule_step rule) now (rule_step rule a) = Some r ->
  exists k : nat,
    (k < fuel)%nat
    /\ r = Nat.iter (S k) (rule_step rule) a
    /\ calendar_date r /\ Before now r
    /\ forall j : nat, (j < k)%nat ->
         calendar_date (Nat.iter (S j) (rule_step rule) a)
         /\ NotAfter (Nat.iter (S j) (rule_step rule) a) now.
Proof.
  intros Hnow Ha Hwf Hyn Hya Hadv.
  pose proof (fun d => rule_step_valid rule d Hwf) as Hsv.
  pose proof (fun d => rule_step_rank rule d Hwf) as Hsr.
  pose proof (Hsv a (proj1 Ha)) as Hv1.
  destruct (rule_loop_in_form now a rule fuel Hnow Ha Hwf Hyn Hya) as [_ Hform].
  pose proof (Hform r Hadv) as Hcr.
  destruct (rule_loop_after now a r rule fuel Hnow Ha Hwf Hadv) as (_ & Hb & _).
  destruct (advance_Some_inv _ _ _ _ _ Hadv) as (k & Hk & Hr & _ & Hguard).
  exists k. split; [exact Hk|]. split; [rewrite Nat.iter_succ_r; exact Hr|].
  split; [exact Hcr|]. split; [exact Hb|].
  intros j Hj. rewrite Nat.iter_succ_r.
  set (dj := Nat.iter j (rule_step rule) (rule_step rule a)).
  assert (Hvj : valid dj) by (apply iter_step_valid; assumption).
  assert (Hrj : rank (rule_step rule a) <= rank dj)
    by (apply iter_step_rank; assumption).
  assert (Hjr : rank dj <= rank r).
  { replace k with ((k - j) + j)%nat in Hr by lia.
    rewrite Nat.iter_add in Hr. fold dj in Hr. rewrite Hr.
    apply iter_step_rank; assumption. }
  pose proof (Hsr a (proj1 Ha)) as Hra.
  pose proof (calendar_date_rank a Ha) as Hr0.
  pose proof (rank_year dj Hvj) as Hyj.
  pose proof (rank_le_year dj r Hvj (proj1 Hcr) Hjr) as Hle.
  assert (Hcj : calendar_date dj) by (split; [exact Hvj | destruct Hcr; lia]).
  split; [exact Hcj|].
  apply (leb_Format dj now Hcj Hnow). apply Hguard. exact Hj.
Qed.

(** For a today and an anchor that parse and a well-formed rule, as long
    as one step from today and one from the anchor stay within the year
    9999: [NextDate] returns the anchor moved by the smallest number of
    steps, at least one, that leads after today. *)
Theorem NextDate_first_after
    (today anchor : string) (now a : Time) (rule : RecurrenceRule) :
  Parse today = Some now -> Parse anchor = Some a -> well_formed rule ->
  Year (rule_step rule now) <= 9999 -> Year (rule_step rule a) <= 9999 ->
  exists k : nat,
    NextDate_returns now anchor (rule_text rule)
      (Ok (Format (Nat.iter (S k) (rule_step rule) a)))
    /\ Before now (Nat.iter (S k) (rule_step rule) a)
    /\ forall j : nat, (j < k)%nat ->
         NotAfter (Nat.iter (S j) (rule_step rule) a) now.
Proof.
  intros Ht Han Hwf Hyn Hya.
  pose proof (proj1 (Parse_Some_inv _ _ Ht)) as Hnow.
  pose proof (proj1 (Parse_Some_inv _ _ Han)) as Ha.
  destruct (rule_loop_terminates now a rule enough_fuel Hnow Ha Hwf (Nat.le_refl _))
    as [r Hadv].
  destruct (rule_loop_first now a r rule enough_fuel Hnow Ha Hwf Hyn Hya Hadv)
    as (k & _ & Hr & _ & Hb & Hfirst).
  exists k. rewrite <- Hr. split; [|split].
  - exists enough_fuel. rewrite (NextDate_rule _ _ _ _ rule Han Hwf), Hadv. reflexivity.
  - exact Hb.
  - intros j Hj. exact (proj2 (Hfirst j Hj)).
Qed.

Lemma NextDate_first_after_witness :
  exists k : nat,
    NextDate_returns (mkTime 2024 3 1) "20240101" (rule_text (EveryNDays 7))
      (Ok (Format (Nat.iter (S k) (rule_step (EveryNDays 7)) (mkTime 2024 1 1))))
    /\ Before (mkTime 2024 3 1) (Nat.iter (S k) (rule_step (EveryNDays 7)) (mkTime 2024 1 1))
    /\ forall j : nat, (j < k)%nat ->
         NotAfter (Nat.iter (S j) (rule_step (EveryNDays 7)) (mkTime 2024 1 1))
           (mkTime 2024 3 1).
Proof.
  apply (NextDate_first_after "20240301" "20240101" (mkTime 2024 3 1) (mkTime 2024 1 1)
           (EveryNDays 7)).
  - reflexivity.
  - reflexivity.
  - simpl. lia.
  - vm_compute. discriminate.
  - vm_compute. discriminate.
Defined.

(** An anchor that is already after today is still moved, by exactly one
    step of the rule (as long as that step stays within the year 9999):
    [NextDate] never returns the anchor itself. *)
Theorem NextDate_future_anchor
    (fuel : nat) (today anchor : string) (now a : Time) (rule : RecurrenceRule) :
  Parse today = Some now -> Parse anchor = Some a -> well_formed rule ->
  Before now a -> Year (rule_step rule a) <= 9999 ->
  NextDate (S fuel) now anchor (rule_text rule)
  = Some (Ok (Format (rule_step rule a))).
Proof.
  intros Ht Han Hwf Hb Hya.
  pose proof (proj1 (Parse_Some_inv _ _ Ht)) as Hnow.
  pose proof (proj1 (Parse_Some_inv _ _ Han)) as Ha.
  pose proof (rule_step_valid rule a Hwf (proj1 Ha)) as Hv1.
  pose proof (rule_step_rank rule a Hwf (proj1 Ha)) as Hr1.
  pose proof (calendar_date_rank a Ha) as Hr0.
  pose proof (rank_year _ Hv1) as Hy1.
  assert (Hc1 : calendar_date (rule_step rule a)) by (split; [exact Hv1 | lia]).
  rewrite (NextDate_rule _ _ _ _ rule Han Hwf). cbn [advance].
  replace (String.leb (Format (rule_step rule a)) (Format now)) with false;
    [reflexivity|].
  symmetry. apply not_true_is_false. intros Hleb.
  apply (leb_Format _ _ Hc1 Hnow) in Hleb.
  apply (NotAfter_rank _ _ Hv1 (proj1 Hnow)) in Hleb.
  apply (Before_rank _ _ (proj1 Hnow) (proj1 Ha)) in Hb. lia.
Qed.

Lemma NextDate_future_anchor_witness :
  NextDate 1 (mkTime 2024 3 1) "20240315" (rule_text Yearly)
  = Some (Ok (Format (rule_step Yearly (mkTime 2024 3 15)))).
Proof.
  apply (NextDate_future_anchor 0 "20240301" "20240315" (mkTime 2024 3 1)
           (mkTime 2024 3 15) Yearly).
  - reflexivity.
  - reflexivity.
  - exact I.
  - reflexivity.
  - vm_compute. discriminate.
Defined.

(** ** The yearly rule keeps the day of the year *)

Lemma add_year_shape (t : Time) :
  valid t ->
  add_year t = if (Month t =? 2) && (Day t =? 29)
               then mkTime (Year t + 1) 3 1
               else mkTime (Year t + 1) (Month t) (Day t).
Proof.
  intros [Hm Hd]. unfold add_year.
  destruct (Z.eqb_spec (Month t) 2) as [E2|E2]; cbn [andb].
  - rewrite E2 in *. rewrite daysIn_feb in *.
    destruct (Z.eqb_spec (Day t) 29) as [E29|E29].
    + destruct (isLeap (Year t)) eqn:El; [|lia].
      rewrite (isLeap_succ _ El).
      replace (Day t <=? 28) with false by (symmetry; apply Z.leb_gt; lia).
      reflexivity.
    + replace (Day t <=? (if isLeap (Year t + 1) then 29 else 28)) with true;
        [reflexivity|].
      symmetry. apply Z.leb_le.
      destruct (isLeap (Year t)); destruct (isLeap (Year t + 1)); lia.
  - rewrite (daysIn_not_feb _ (Year t + 1) (Year t) E2).
    replace (Day t <=? daysIn (Month t) (Year t)) with true
      by (symmetry; apply Z.leb_le; lia).
    reflexivity.
Qed.

Lemma yearly_day_step (a t : Time) :
  valid a -> valid t -> (t = a \/ yearly_day a t) ->
  yearly_day a (add_year t) /\ Year (add_year t) = Year t + 1.
Proof.
  intros Ha Ht H. rewrite (add_year_shape t Ht). unfold yearly_day in *.
  destruct H as [-> | H].
  - destruct ((Month a =? 2) && (Day a =? 29)); cbn [Year Month Day];
      repeat split; reflexivity.
  - destruct ((Month a =? 2) && (Day a =? 29)) eqn:Ea.
    + destruct H as [H3 H1]. rewrite H3, H1. cbn. repeat split; reflexivity.
    + destruct H as [Hm Hd]. rewrite Hm, Hd, Ea. cbn [Year Month Day].
      repeat split; reflexivity.
Qed.

Lemma yearly_day_iter (a : Time) (k : nat) :
  valid a ->
  let r := Nat.iter (S k) (rule_step Yearly) a in
  valid r /\ yearly_day a r /\ Year r = Year a + Z.of_nat (S k).
Proof.
  intros Ha. induction k as [|k IH].
  - cbn [Nat.iter nat_rect rule_step]. rewrite (AddDate_year a Ha).
    destruct (yearly_day_step a a Ha Ha (or_introl eq_refl)) as [H1 H2].
    split; [apply add_year_valid; exact Ha|]. split; [exact H1 | lia].
  - cbn zeta in IH. destruct IH as (Hv & Hd & Hy).
    cbn zeta. rewrite Nat.iter_succ.
    set (t := Nat.iter (S k) (rule_step Yearly) a) in *.
    cbn [rule_step]. rewrite (AddDate_year t Hv).
    destruct (yearly_day_step a t Ha Hv (or_intror Hd)) as [H1 H2].
    split; [apply add_year_valid; exact Hv|]. split; [exact H1 | lia].
Qed.

(** For a today and an anchor that parse, the rule "y" returns a date of
    a later year on the month and day of the anchor; an anchor on
    February 29 is returned as March 1, in leap years too. *)
Theorem NextDate_yearly_month_day (today anchor : string) (now a : Time) :
  Parse today = Some now -> Parse anchor = Some a ->
  exists r : Time,
    NextDate_returns now anchor "y" (Ok (Format r))
    /\ Year a < Year r
    /\ (if (Month a =? 2) && (Day a =? 29) then Month r = 3 /\ Day r = 1
        else Month r = Month a /\ Day r = Day a).
Proof.
  intros Ht Han.
  pose proof (proj1 (Parse_Some_inv _ _ Ht)) as Hnow.
  pose proof (proj1 (Parse_Some_inv _ _ Han)) as Ha.
  destruct (rule_loop_terminates now a Yearly enough_fuel Hnow Ha I (Nat.le_refl _))
    as [r Hadv].
  exists r. split.
  - exists enough_fuel. rewrite (NextDate_yearly _ _ _ _ Han).
    change (fun d : Time => AddDate d 1 0 0) with (rule_step Yearly).
    change (AddDate a 1 0 0) with (rule_step Yearly a).
    rewrite Hadv. reflexivity.
  - destruct (advance_Some_inv _ _ _ _ _ Hadv) as (k & _ & Hr & _).
    rewrite <- Nat.iter_succ_r in Hr.
    destruct (yearly_day_iter a k (proj1 Ha)) as (_ & Hd & Hy).
    rewrite <- Hr in Hd, Hy. split; [lia | exact Hd].
Qed.

Lemma NextDate_yearly_month_day_witness :
  exists r : Time,
    NextDate_returns (mkTime 2027 6 1) "20240229" "y" (Ok (Format r))
    /\ Year (mkTime 2024 2 29) < Year r
    /\ (if (Month (mkTime 2024 2 29) =? 2) && (Day (mkTime 2024 2 29) =? 29)
        then Month r = 3 /\ Day r = 1
        else Month r = Month (mkTime 2024 2 29) /\ Day r = Day (mkTime 2024 2 29)).
Proof.
  apply (NextDate_yearly_month_day "20270601" "20240229" (mkTime 2027 6 1)
           (mkTime 2024 2 29)); reflexivity.
Defined.

(** ** The rule of every N days in the count of days *)

Lemma add_days_dayNumber (n : nat) (t : Time) :
  valid t -> dayNumber (add_days n t) = dayNumber t + Z.of_nat n.
Proof.
  intros Ht. induction n as [|n IH].
  - simpl. lia.
  - unfold add_days in *. rewrite Nat.iter_succ.
    rewrite next_day_dayNumber by (apply (add_days_valid n t Ht)).
    rewrite IH. lia.
Qed.

Lemma step_days_dayNumber (n : Z) (t : Time) :
  valid t -> 0 <= n -> dayNumber (AddDate t 0 0 n) = dayNumber t + n.
Proof.
  intros Ht Hn. rewrite (AddDate_days t n Ht Hn), (add_days_dayNumber _ t Ht). lia.
Qed.

(** A later date is reached by going from day to day. *)
Lemma rank_le_add_days (t u : Time) :
  valid t -> valid u -> rank t <= rank u -> exists k : nat, u = add_days k t.
Proof.
  intros Ht Hu Hle.
  remember (Z.to_nat (rank u - rank t)) as m eqn:Hm.
  revert t Ht Hle Hm. induction m as [m IH] using lt_wf_ind. intros t Ht Hle Hm.
  destruct (Z.eq_dec (rank t) (rank u)) as [E|E].
  - exists 0%nat. symmetry. apply (rank_inj t u Ht Hu E).
  - pose proof (next_day_least t u Ht Hu ltac:(lia)) as Hn.
    pose proof (next_day_rank t Ht) as Hr.
    destruct (IH (Z.to_nat (rank u - rank (next_day t))) ltac:(lia)
                (next_day t) (next_day_valid t Ht) Hn eq_refl) as [k Hk].
    exists (S k). unfold add_days in *. rewrite Nat.iter_succ_r. exact Hk.
Qed.

(** The count of days orders the dates as the calendar does. *)
Lemma dayNumber_rank (t u : Time) :
  valid t -> valid u -> (rank t <= rank u <-> dayNumber t <= dayNumber u).
Proof.
  assert (Hmono : forall t u, valid t -> valid u -> rank t <= rank u ->
            dayNumber t <= dayNumber u
            /\ (dayNumber t = dayNumber u -> t = u)).
  { intros t' u' Ht Hu Hle.
    destruct (rank_le_add_days t' u' Ht Hu Hle) as [k ->].
    rewrite (add_days_dayNumber k t' Ht). split; [lia|].
    intros E. assert (k = 0%nat) by lia. subst k. reflexivity. }
  intros Ht Hu. split; intros H.
  - apply (Hmono t u Ht Hu H).
  - destruct (Z.le_gt_cases (rank t) (rank u)) as [Hle|Hgt]; [exact Hle|].
    destruct (Hmono u t Hu Ht ltac:(lia)) as [H1 H2].
    rewrite (H2 ltac:(lia)). lia.
Qed.

Lemma dayNumber_inj (t u : Time) :
  valid t -> valid u -> dayNumber t = dayNumber u -> t = u.
Proof.
  intros Ht Hu E.
  apply (rank_inj t u Ht Hu).
  pose proof (proj2 (dayNumber_rank t u Ht Hu)).
  pose proof (proj2 (dayNumber_rank u t Hu Ht)). lia.
Qed.

Lemma iter_days_dayNumber (n : Z) (a : Time) (k : nat) :
  valid a -> 0 <= n ->
  valid (Nat.iter k (rule_step (EveryNDays n)) a)
  /\ dayNumber (Nat.iter k (rule_step (EveryNDays n)) a)
     = dayNumber a + Z.of_nat k * n.
Proof.
  intros Ha Hn. induction k as [|k [IHv IHd]].
  - split; [exact Ha | simpl; lia].
  - rewrite Nat.iter_succ. cbn [rule_step].
    split; [apply step_days_valid; assumption|].
    rewrite (step_days_dayNumber n _ IHv Hn), IHd. lia.
Qed.

(** For a today and an anchor that parse and a count N from 1 to 400, as
    long as N days from today and from the anchor stay within the year
    9999: the rule "d N" returns the anchor moved by m times N days,
    where m is 1 for an anchor after today and otherwise one more than
    the whole number of periods of N days from the anchor to today. *)
Theorem NextDate_every_n_days
    (today anchor : string) (now a : Time) (n : Z) :
  Parse today = Some now -> Parse anchor = Some a -> 1 <= n <= 400 ->
  Year (AddDate now 0 0 n) <= 9999 -> Year (AddDate a 0 0 n) <= 9999 ->
  let m := Z.max 1 ((dayNumber now - dayNumber a) / n + 1) in
  NextDate_returns now anchor (rule_text (EveryNDays n))
    (Ok (Format (AddDate a 0 0 (m * n)))).
Proof.
  intros Ht Han Hn Hyn Hya m.
  pose proof (proj1 (Parse_Some_inv _ _ Ht)) as Hnow.
  pose proof (proj1 (Parse_Some_inv _ _ Han)) as Ha.
  assert (Hwf : well_formed (EveryNDays n)) by exact Hn.
  destruct (rule_loop_terminates now a _ enough_fuel Hnow Ha Hwf (Nat.le_refl _))
    as [r Hadv].
  destruct (rule_loop_first now a r _ enough_fuel Hnow Ha Hwf Hyn Hya Hadv)
    as (k & _ & Hr & Hcr & Hb & Hfirst).
  destruct (iter_days_dayNumber n a (S k) (proj1 Ha) ltac:(lia)) as [_ Hdr].
  rewrite <- Hr in Hdr.
  apply (Before_rank now r (proj1 Hnow) (proj1 Hcr)) in Hb.
  assert (Hlt : dayNumber now < dayNumber r).
  { pose proof (proj2 (dayNumber_rank r now (proj1 Hcr) (proj1 Hnow))). lia. }
  assert (Hm : m = Z.of_nat (S k)).
  { unfold m. destruct k as [|k].
    - assert ((dayNumber now - dayNumber a) / n < 1)
        by (apply Z.div_lt_upper_bound; lia).
      lia.
    - destruct (Hfirst k ltac:(lia)) as [Hcj Hna].
      apply (NotAfter_rank _ now (proj1 Hcj) (proj1 Hnow)) in Hna.
      apply (dayNumber_rank _ now (proj1 Hcj) (proj1 Hnow)) in Hna.
      destruct (iter_days_dayNumber n a (S k) (proj1 Ha) ltac:(lia)) as [_ Hdj].
      rewrite Hdj in Hna.
      assert ((dayNumber now - dayNumber a) / n = Z.of_nat (S k)).
      { symmetry. apply (Z.div_unique_pos _ _ _
                           (dayNumber now - dayNumber a - Z.of_nat (S k) * n)); lia. }
      lia. }
  assert (Er : AddDate a 0 0 (m * n) = r).
  { apply dayNumber_inj.
    - apply step_days_valid; [lia | exact (proj1 Ha)].
    - exact (proj1 Hcr).
    - rewrite (step_days_dayNumber _ a (proj1 Ha)) by lia. rewrite Hdr, Hm. lia. }
  rewrite Er. exists enough_fuel.
  rewrite (NextDate_rule _ _ _ _ (EveryNDays n) Han Hwf), Hadv. reflexivity.
Qed.

Lemma NextDate_every_n_days_witness :
  let m := Z.max 1 ((dayNumber (mkTime 2024 3 1) - dayNumber (mkTime 2024 1 1)) / 7 + 1) in
  NextDate_returns (mkTime 2024 3 1) "20240101" (rule_text (EveryNDays 7))
    (Ok (Format (AddDate (mkTime 2024 1 1) 0 0 (m * 7)))).
Proof.
  apply (NextDate_every_n_days "20240301" "20240101" (mkTime 2024 3 1)
           (mkTime 2024 1 1) 7).
  - reflexivity.
  - reflexivity.
  - lia.
  - vm_compute. discriminate.
  - vm_compute. discriminate.
Defined.

Example yearly_leap_day_in_leap_year :
  NextDate 10 (mkTime 2023 6 1) "20200229" "y" = Some (Ok "20240301").
Proof. vm_compute. reflexivity. Qed.

(** ** A later today *)

(** For one anchor and one well-formed rule, a later today never gives an
    earlier date (as long as one step from the later today and one from
    the anchor stay within the year 9999). *)
Theorem NextDate_monotone_in_today
    (today today' anchor : string) (now now' a : Time) (rule : RecurrenceRule) :
  Parse today = Some now -> Parse today' = Some now' -> Parse anchor = Some a ->
  well_formed rule -> NotAfter now now' ->
  Year (rule_step rule now') <= 9999 -> Year (rule_step rule a) <= 9999 ->
  exists r r' : Time,
    NextDate_returns now anchor (rule_text rule) (Ok (Format r))
    /\ NextDate_returns now' anchor (rule_text rule) (Ok (Format r'))
    /\ NotAfter r r'.
Proof.
  intros Ht Ht' Han Hwf Hle Hyn' Hya.
  pose proof (proj1 (Parse_Some_inv _ _ Ht)) as Hnow.
  pose proof (proj1 (Parse_Some_inv _ _ Ht')) as Hnow'.
  pose proof (proj1 (Parse_Some_inv _ _ Han)) as Ha.
  pose proof (fun d => rule_step_valid rule d Hwf) as Hsv.
  pose proof (fun d => rule_step_rank rule d Hwf) as Hsr.
  apply (NotAfter_rank now now' (proj1 Hnow) (proj1 Hnow')) in Hle.
  assert (Hyn : Year (rule_step rule now) <= 9999).
  { pose proof (rule_step_mono rule now now' Hwf (proj1 Hnow) (proj1 Hnow') Hle) as Hm.
    pose proof (rank_le_year _ _ (Hsv _ (proj1 Hnow)) (Hsv _ (proj1 Hnow')) Hm). lia. }
  destruct (rule_loop_terminates now a rule enough_fuel Hnow Ha Hwf (Nat.le_refl _))
    as [r Hadv].
  destruct (rule_loop_terminates now' a rule enough_fuel Hnow' Ha Hwf (Nat.le_refl _))
    as [r' Hadv'].
  destruct (rule_loop_first now a r rule _ Hnow Ha Hwf Hyn Hya Hadv)
    as (k & _ & Hr & Hcr & Hb & Hfirst).
  destruct (rule_loop_first now' a r' rule _ Hnow' Ha Hwf Hyn' Hya Hadv')
    as (k' & _ & Hr' & Hcr' & Hb' & _).
  exists r, r'. split; [|split].
  - exists enough_fuel. rewrite (NextDate_rule _ _ _ _ rule Han Hwf), Hadv. reflexivity.
  - exists enough_fuel. rewrite (NextDate_rule _ _ _ _ rule Han Hwf), Hadv'. reflexivity.
  - apply (NotAfter_rank r r' (proj1 Hcr) (proj1 Hcr')).
    apply (Before_rank now' r' (proj1 Hnow') (proj1 Hcr')) in Hb'.
    destruct (Nat.le_gt_cases k k') as [Hkk|Hkk].
    + replace (S k') with ((k' - k) + S k)%nat in Hr' by lia.
      rewrite Nat.iter_add, <- Hr in Hr'. rewrite Hr'.
      apply iter_step_rank; [assumption | assumption | exact (proj1 Hcr)].
    + destruct (Hfirst k' Hkk) as [Hcj Hna]. rewrite <- Hr' in Hna, Hcj.
      apply (NotAfter_rank r' now (proj1 Hcr') (proj1 Hnow)) in Hna. lia.
Qed.

Lemma NextDate_monotone_in_today_witness :
  exists r r' : Time,
    NextDate_returns (mkTime 2024 3 1) "20240101" (rule_text (EveryNDays 7))
      (Ok (Format r))
    /\ NextDate_returns (mkTime 2024 3 20) "20240101" (rule_text (EveryNDays 7))
         (Ok (Format r'))
    /\ NotAfter r r'.
Proof.
  apply (NextDate_monotone_in_today "20240301" "20240320" "20240101"
           (mkTime 2024 3 1) (mkTime 2024 3 20) (mkTime 2024 1 1) (EveryNDays 7)).
  - reflexivity.
  - reflexivity.
  - reflexivity.
  - simpl. lia.
  - vm_compute. discriminate.
  - vm_compute. discriminate.
  - vm_compute. discriminate.
Defined.

(** ** The handler of /api/nextdate *)

(** [nextDateHandler] always answers: a date string strictly above the
    [now] it was given, or an error of status 400; a [now] that does not
    parse is refused whatever the date and the rule. *)
Theorem nextDateHandler_answer (nowStr dateStr repeatStr : string) :
  exists resp : response,
    nextDateHandler enough_fuel nowStr dateStr repeatStr = Some resp
    /\ match resp with
       | JsonNextDate next_date =>
           String.ltb nowStr next_date = true /\ Parse nowStr <> None
       | HttpError msg status =>
           status = 400
           /\ (Parse nowStr = None -> msg = "invalid now date format")
       | _ => False
       end.
Proof.
  unfold nextDateHandler.
  destruct (Parse nowStr) as [now|] eqn:En.
  2: { eexists. split; [reflexivity|]. split; reflexivity. }
  destruct (Parse_Some_inv _ _ En) as [Hnow Ef].
  destruct (Parse dateStr) as [a|] eqn:Ea.
  - pose proof (proj1 (Parse_Some_inv _ _ Ea)) as Ha.
    destruct (NextDate_cases now a dateStr repeatStr Ea) as [[e He] | (rule & Hwf & Hr)].
    + rewrite He. eexists. split; [reflexivity|].
      split; [reflexivity | discriminate].
    + destruct (rule_loop_terminates now a rule enough_fuel Hnow Ha Hwf
                  (Nat.le_refl _)) as [r Hadv].
      destruct (rule_loop_after now a r rule _ Hnow Ha Hwf Hadv) as (_ & _ & Hlt).
      rewrite Hr, Hadv. cbn [returned option_map].
      eexists. split; [reflexivity|]. rewrite <- Ef.
      split; [exact Hlt | discriminate].
  - unfold NextDate. rewrite Ea. eexists. split; [reflexivity|].
    split; [reflexivity | discriminate].
Qed.

(** ** The date that creation and update store *)

Lemma leb_refl (s : string) : String.leb s s = true.
Proof. destruct (String.leb_total s s); assumption. Qed.

Lemma ltb_leb (s1 s2 : string) : String.ltb s1 s2 = true -> String.leb s1 s2 = true.
Proof.
  unfold String.ltb, String.leb. destruct (String.compare s1 s2); congruence.
Qed.

(** With [enough_fuel] iterations [NextDate] returns on every input. *)
Lemma NextDate_total (now : Time) (date repeat : string) :
  calendar_date now ->
  exists res, NextDate enough_fuel now date repeat = Some res.
Proof.
  intros Hnow. destruct (Parse date) as [a|] eqn:Ea.
  - pose proof (proj1 (Parse_Some_inv _ _ Ea)) as Ha.
    destruct (NextDate_cases now a date repeat Ea) as [[e He] | (rule & Hwf & Hr)].
    + exists (Err e). apply He.
    + destruct (rule_loop_terminates now a rule enough_fuel Hnow Ha Hwf
                  (Nat.le_refl _)) as [r Hadv].
      exists (Ok (Format r)). rewrite Hr, Hadv. reflexivity.
  - exists (Err InvalidDateFormat). unfold NextDate. rewrite Ea. reflexivity.
Qed.

Lemma NextDate_Ok_after (fuel : nat) (now : Time) (date repeat s : string) :
  calendar_date now ->
  NextDate fuel now date repeat = Some (Ok s) ->
  exists r : Time,
    s = Format r /\ valid r /\ 0 <= Year r /\ Before now r
    /\ String.ltb (Format now) s = true.
Proof.
  intros Hnow H.
  destruct (NextDate_Ok_inv _ _ _ _ _ H) as (a & rule & r & Ha & Hwf & Hadv & ->).
  apply Parse_Some_inv in Ha. destruct Ha as [Hca _].
  destruct (rule_loop_after _ _ _ _ _ Hnow Hca Hwf Hadv) as (Hv & Hb & Hlt).
  exists r. split; [reflexivity|]. split; [exact Hv|].
  split; [|split; assumption].
  apply (Before_rank now r (proj1 Hnow) Hv) in Hb.
  pose proof (calendar_date_rank now Hnow). pose proof (rank_year r Hv). lia.
Qed.

(** The outcomes of the date block, one by one. *)
Lemma addTask_date_cases (fuel : nat) (now : Time) (task task' : Task) :
  calendar_date now ->
  addTask_date fuel now task = Some (Ok task') ->
  (Date task = "" /\ task' = with_Date task (Format now))
  \/ (exists d, Parse (Date task) = Some d /\ NotAfter now d /\ task' = task)
  \/ (exists d, Parse (Date task) = Some d /\ Before d now /\ Repeat task = ""
                /\ task' = with_Date task (Format now))
  \/ (exists d s, Parse (Date task) = Some d /\ Before d now /\ Repeat task <> ""
                  /\ NextDate fuel now (Date task) (Repeat task) = Some (Ok s)
                  /\ task' = with_Date task s).
Proof.
  intros Hnow H. unfold addTask_date in H.
  destruct (String.eqb_spec (Date task) "") as [E0|E0].
  { left. injection H as <-. split; [exact E0 | reflexivity]. }
  right. destruct (Parse (Date task)) as [d|] eqn:Ed; [|discriminate H].
  destruct (Parse_Some_inv _ _ Ed) as [Hd _].
  destruct (String.ltb (Format d) (Format now)) eqn:Elt.
  - apply (ltb_Format d now Hd Hnow) in Elt. right.
    destruct (String.eqb_spec (Repeat task) "") as [Er|Er].
    + left. injection H as <-. exists d. repeat split; assumption.
    + right. destruct (NextDate fuel now (Date task) (Repeat task)) as [[s|e]|] eqn:En;
        try discriminate H.
      injection H as <-. exists d, s. repeat split; assumption.
  - left. injection H as <-. exists d. split; [reflexivity|]. split; [|reflexivity].
    apply (NotAfter_rank now d (proj1 Hnow) (proj1 Hd)).
    destruct (Z.le_gt_cases (rank now) (rank d)) as [Hle|Hgt]; [exact Hle|].
    assert (Hb : Before d now)
      by (apply (Before_rank d now (proj1 Hd) (proj1 Hnow)); lia).
    apply (ltb_Format d now Hd Hnow) in Hb. congruence.
Qed.

(** What the date block keeps of a task. *)
Lemma addTask_date_Ok_inv (fuel : nat) (now : Time) (task task' : Task) :
  calendar_date now ->
  addTask_date fuel now task = Some (Ok task') ->
  (exists t : Time, valid t /\ 0 <= Year t /\ NotAfter now t /\ Date task' = Format t)
  /\ String.leb (Format now) (Date task') = true
  /\ task' = with_Date task (Date task').
Proof.
  intros Hnow H'.
  assert (Hnn : NotAfter now now)
    by (apply (NotAfter_rank now now (proj1 Hnow) (proj1 Hnow)); lia).
  destruct (addTask_date_cases fuel now task task' Hnow H')
    as [[_ ->] | [(d & Hd & Hle & ->) | [(d & _ & _ & _ & ->) | (d & s & _ & _ & _ & Hn & ->)]]].
  - cbn [with_Date Date]. split; [exists now|].
    + split; [exact (proj1 Hnow)|]. split; [exact (proj1 (proj2 Hnow))|].
      split; [exact Hnn | reflexivity].
    + split; [apply leb_refl | reflexivity].
  - destruct (Parse_Some_inv _ _ Hd) as [Hcd Ef]. split; [exists d|].
    + split; [exact (proj1 Hcd)|]. split; [exact (proj1 (proj2 Hcd))|].
      split; [exact Hle | symmetry; exact Ef].
    + split; [|destruct task; reflexivity].
      rewrite <- Ef. apply (leb_Format now d Hnow Hcd). exact Hle.
  - cbn [with_Date Date]. split; [exists now|].
    + split; [exact (proj1 Hnow)|]. split; [exact (proj1 (proj2 Hnow))|].
      split; [exact Hnn | reflexivity].
    + split; [apply leb_refl | reflexivity].
  - destruct (NextDate_Ok_after _ _ _ _ _ Hnow Hn) as (r & -> & Hv & Hy & Hb & Hlt).
    cbn [with_Date Date]. split; [exists r|].
    + split; [exact Hv|]. split; [exact Hy|]. split; [|reflexivity].
      unfold NotAfter. unfold Before in Hb. rewrite Hb. discriminate.
    + split; [apply ltb_leb; exact Hlt | reflexivity].
Qed.

(** Creation and update never store a date before today: the date of the
    task they keep is the formatted form of a day of the calendar that is
    today or later, its string is not below that of today, and the other
    fields are those of the request. *)
Theorem normalize_not_before_today
    (fuel : nat) (now : Time) (task task' : Task) :
  calendar_date now ->
  addTask_date fuel now task = Some (Ok task')
  \/ updateTask_date fuel now task = Some (Ok task') ->
  (exists t : Time, valid t /\ NotAfter now t /\ Date task' = Format t)
  /\ String.leb (Format now) (Date task') = true
  /\ ID task' = ID task /\ Title task' = Title task
  /\ Comment task' = Comment task /\ Repeat task' = Repeat task.
Proof.
  intros Hnow H.
  assert (H' : addTask_date fuel now task = Some (Ok task'))
    by (destruct H as [H|H]; [exact H | rewrite <- updateTask_date_eq; exact H]).
  destruct (addTask_date_Ok_inv fuel now task task' Hnow H')
    as ((t & Hv & _ & Hle & Ef) & Hleb & E).
  split; [exists t; repeat split; try assumption; apply Hv|].
  split; [exact Hleb|]. rewrite E. repeat split.
Qed.

Lemma normalize_not_before_today_witness :
  let now := mkTime 2024 3 1 in
  let task' := mkTask 0 "20240304" "water plants" "" "d 7" in
  (exists t : Time, valid t /\ NotAfter now t /\ Date task' = Format t)
  /\ String.leb (Format now) (Date task') = true
  /\ ID task' = 0 /\ Title task' = "water plants"
  /\ Comment task' = "" /\ Repeat task' = "d 7".
Proof.
  apply (normalize_not_before_today 20 (mkTime 2024 3 1)
           (mkTask 0 "20240101" "water plants" "" "d 7")
           (mkTask 0 "20240304" "water plants" "" "d 7")).
  - split; [apply validb_spec; reflexivity | simpl; lia].
  - left. vm_compute. reflexivity.
Defined.

(** For a task dated before today, creation and update move the date: to
    today without a rule (the empty rule is no error here), and with a
    rule to the date that [nextDateHandler] answers for today, refusing
    the task exactly when that handler refuses, with its message after
    the words "Invalid repeat rule: ". *)
Theorem normalize_past_date (fuel : nat) (now d : Time) (task : Task) :
  calendar_date now -> Parse (Date task) = Some d -> Before d now ->
  (Repeat task = "" ->
   addTask_date fuel now task = Some (Ok (with_Date task (Format now))))
  /\ (Repeat task <> "" ->
      (forall s : string,
         nextDateHandler fuel (Format now) (Date task) (Repeat task)
         = Some (JsonNextDate s)
         <-> addTask_date fuel now task = Some (Ok (with_Date task s)))
      /\ (forall msg : string,
            nextDateHandler fuel (Format now) (Date task) (Repeat task)
            = Some (HttpError msg 400)
            <-> addTask_date fuel now task
                = Some (Err (HttpError (String.append "Invalid repeat rule: " msg) 400))))
  /\ updateTask_date fuel now task = addTask_date fuel now task.
Proof.
  intros Hnow Hd Hb.
  destruct (Parse_Some_inv _ _ Hd) as [Hcd _].
  pose proof (Parse_not_empty _ _ Hd) as Hne.
  apply (ltb_Format d now Hcd Hnow) in Hb.
  assert (Hshape : addTask_date fuel now task
                   = if String.eqb (Repeat task) ""
                     then Some (Ok (with_Date task (Format now)))
                     else match NextDate fuel now (Date task) (Repeat task) with
                          | None => None
                          | Some (Err e) =>
                              Some (Err (HttpError (String.append "Invalid repeat rule: "
                                                      (Error e (Repeat task))) 400))
                          | Some (Ok nextDate) => Some (Ok (with_Date task nextDate))
                          end).
  { unfold addTask_date. apply String.eqb_neq in Hne. rewrite Hne, Hd, Hb. reflexivity. }
  split; [|split].
  - intros Er. rewrite Hshape, Er. reflexivity.
  - intros Er. apply String.eqb_neq in Er. rewrite Hshape, Er.
    unfold nextDateHandler. rewrite (Parse_Format now Hnow).
    destruct (NextDate fuel now (Date task) (Repeat task)) as [[s'|e]|].
    + split.
      * intros s. split; intros H.
        -- injection H as ->. reflexivity.
        -- assert (E : s' = s)
             by (injection H; intros E; first [exact E | exact (f_equal Date E)]).
           rewrite E. reflexivity.
      * intros msg. split; intros H; discriminate H.
    + split.
      * intros s. split; intros H; discriminate H.
      * intros msg. split; intros H.
        -- injection H as ->. reflexivity.
        -- injection H as ->. reflexivity.
    + split; intros x; split; intros H; discriminate H.
  - apply updateTask_date_eq.
Qed.

Lemma normalize_past_date_witness :
  let now := mkTime 2024 3 1 in
  let task := mkTask 0 "20240101" "water plants" "" "d 7" in
  (Repeat task = "" ->
   addTask_date 20 now task = Some (Ok (with_Date task (Format now))))
  /\ (Repeat task <> "" ->
      (forall s : string,
         nextDateHandler 20 (Format now) (Date task) (Repeat task)
         = Some (JsonNextDate s)
         <-> addTask_date 20 now task = Some (Ok (with_Date task s)))
      /\ (forall msg : string,
            nextDateHandler 20 (Format now) (Date task) (Repeat task)
            = Some (HttpError msg 400)
            <-> addTask_date 20 now task
                = Some (Err (HttpError (String.append "Invalid repeat rule: " msg) 400))))
  /\ updateTask_date 20 now task = addTask_date 20 now task.
Proof.
  apply (normalize_past_date 20 (mkTime 2024 3 1) (mkTime 2024 1 1)
           (mkTask 0 "20240101" "water plants" "" "d 7")).
  - split; [apply validb_spec; reflexivity | simpl; lia].
  - reflexivity.
  - reflexivity.
Defined.

(** ** The handlers that write the table *)

Lemma addTask_date_total (now : Time) (task : Task) :
  calendar_date now ->
  exists res, addTask_date enough_fuel now task = Some res.
Proof.
  intros Hnow. unfold addTask_date.
  destruct (String.eqb (Date task) ""); [eexists; reflexivity|].
  destruct (Parse (Date task)) as [d|]; [|eexists; reflexivity].
  destruct (String.ltb (Format d) (Format now)); [|eexists; reflexivity].
  destruct (String.eqb (Repeat task) ""); [eexists; reflexivity|].
  destruct (NextDate_total now (Date task) (Repeat task) Hnow) as [[s|e] ->];
    eexists; reflexivity.
Qed.

Lemma addTask_date_Err (fuel : nat) (now : Time) (task : Task) (resp : response) :
  addTask_date fuel now task = Some (Err resp) ->
  exists msg, resp = HttpError msg 400.
Proof.
  unfold addTask_date.
  destruct (String.eqb (Date task) ""); [discriminate|].
  destruct (Parse (Date task)) as [d|];
    [|intros H; injection H as <-; eexists; reflexivity].
  destruct (String.ltb (Format d) (Format now)); [|discriminate].
  destruct (String.eqb (Repeat task) ""); [discriminate|].
  destruct (NextDate fuel now (Date task) (Repeat task)) as [[s|e]|]; try discriminate.
  intros H. injection H as <-. eexists. reflexivity.
Qed.


Lemma DB_eta (db : DB) : mkDB (rows db) (lastID db) = db.
Proof. destruct db; reflexivity. Qed.

(** What [addTaskHandler] does to the table. *)
Lemma addTaskHandler_inv (fuel : nat) (now : Time) (drv : driver) (db db' : DB)
    (task : Task) (resp : response) :
  calendar_date now ->
  addTaskHandler fuel now drv db task = Some (db', resp) ->
  (db' = db /\ exists msg, resp = HttpError msg 400)
  \/ (exists date : string,
        Title task <> "" /\ date_text date
        /\ String.leb (Format now) date = true
        /\ ((exists err, exec_error drv = Some err /\ db' = db
                         /\ resp = HttpError (String.append "Failed to insert task: "
                                                err) 500)
            \/ (exec_error drv = None
                /\ db' = mkDB (rows db ++ [mkTask (lastID db + 1) date (Title task)
                                             (Comment task) (Repeat task)])
                              (lastID db + 1)
                /\ ((exists err,
                       result_error drv = Some err
                       /\ resp = HttpError
                                  (String.append "Failed to retrieve last insert ID: "
                                     err) 500)
                    \/ (result_error drv = None
                        /\ resp = JsonId (lastID db + 1)))))).
Proof.
  intros Hnow. unfold addTaskHandler.
  destruct (String.eqb_spec (Title task) "") as [Et|Et].
  { intros H. injection H as <- <-. left. split; [reflexivity | eexists; reflexivity]. }
  destruct (addTask_date fuel now task) as [[task'|resp']|] eqn:Ed; [| |discriminate].
  - destruct (addTask_date_Ok_inv fuel now task task' Hnow Ed)
      as ((t & Hv & Hy & _ & Ef) & Hleb & E).
    assert (Hd : date_text (Date task'))
      by (exists t; repeat split; try assumption; apply Hv).
    assert (Et' : Title task' = Title task) by (rewrite E; reflexivity).
    assert (Ec' : Comment task' = Comment task) by (rewrite E; reflexivity).
    assert (Er' : Repeat task' = Repeat task) by (rewrite E; reflexivity).
    rewrite Et', Ec', Er'.
    intros H. right. exists (Date task').
    split; [exact Et|]. split; [exact Hd|]. split; [exact Hleb|].
    destruct (exec_error drv) as [err|].
    + injection H as <- <-. left. exists err. repeat split.
    + right. split; [reflexivity|].
      destruct (result_error drv) as [err|]; injection H as <- <-.
      * split; [reflexivity|]. left. exists err. split; reflexivity.
      * split; [reflexivity|]. right. split; reflexivity.
  - intros H. injection H as <- <-. left. split; [reflexivity|].
    exact (addTask_date_Err fuel now task resp' Ed).
Qed.

Lemma update_rows_spec (rs : list Task) (task : Task) :
  fst (update_rows rs task) = map (replace_row task) rs
  /\ ((snd (update_rows rs task) = 0 /\ forall r, In r rs -> ID r <> ID task)
      \/ (0 < snd (update_rows rs task) /\ exists r, In r rs /\ ID r = ID task)).
Proof.
  induction rs as [|r rest [IH1 IH2]].
  - split; [reflexivity|]. left. split; [reflexivity | intros r []].
  - cbn [update_rows]. destruct (update_rows rest task) as [rest' n].
    cbn [fst snd] in IH1, IH2. cbn [map]. unfold replace_row at 1.
    destruct (Z.eqb_spec (ID r) (ID task)) as [E|E]; cbn [fst snd].
    + split; [rewrite IH1; reflexivity|]. right. split.
      * destruct IH2 as [[-> _] | [Hn _]]; lia.
      * exists r. split; [left; reflexivity | exact E].
    + split; [rewrite IH1; reflexivity|].
      destruct IH2 as [[-> Hnone] | [Hn (r' & Hin & Er)]].
      * left. split; [reflexivity|]. intros r' [<- | Hin]; [exact E | exact (Hnone r' Hin)].
      * right. split; [exact Hn|]. exists r'. split; [right; exact Hin | exact Er].
Qed.

(** An update of an id that no row has changes no row. *)
Lemma replace_row_none (task : Task) (rs : list Task) :
  (forall r, In r rs -> ID r <> ID task) -> map (replace_row task) rs = rs.
Proof.
  induction rs as [|r rest IH]; intros H; [reflexivity|].
  cbn [map]. rewrite IH by (intros r' Hin; apply H; right; exact Hin).
  unfold replace_row.
  replace (ID r =? ID task) with false; [reflexivity|].
  symmetry. apply Z.eqb_neq. apply H. left. reflexivity.
Qed.

(** What [updateTaskHandler] does to the table. *)
Lemma updateTaskHandler_inv (fuel : nat) (now : Time) (drv : driver) (db db' : DB)
    (task : Task) (resp : response) :
  calendar_date now ->
  updateTaskHandler fuel now drv db task = Some (db', resp) ->
  (db' = db /\ exists msg, resp = HttpError msg 400)
  \/ (exists date : string,
        ID task <> 0 /\ Title task <> "" /\ date_text date
        /\ String.leb (Format now) date = true
        /\ ((exists err, exec_error drv = Some err /\ db' = db
                         /\ resp = HttpError (String.append "Failed to update task: "
                                                err) 500)
            \/ (exec_error drv = None
                /\ db' = mkDB (map (replace_row (with_Date task date)) (rows db))
                              (lastID db)
                /\ ((exists err,
                       result_error drv = Some err
                       /\ resp = HttpError
                                  (String.append "Failed to retrieve rows affected: "
                                     err) 500)
                    \/ (result_error drv = None
                        /\ (forall r, In r (rows db) -> ID r <> ID task)
                        /\ db' = db
                        /\ resp = HttpError "Задача не найдена" 404)
                    \/ (result_error drv = None
                        /\ (exists r, In r (rows db) /\ ID r = ID task)
                        /\ resp = JsonEmpty))))).
Proof.
  intros Hnow. unfold updateTaskHandler.
  destruct (Z.eqb_spec (ID task) 0) as [Ei|Ei].
  { intros H. injection H as <- <-. left. split; [reflexivity | eexists; reflexivity]. }
  destruct (String.eqb_spec (Title task) "") as [Et|Et].
  { intros H. injection H as <- <-. left. split; [reflexivity | eexists; reflexivity]. }
  rewrite updateTask_date_eq.
  destruct (addTask_date fuel now task) as [[task'|resp']|] eqn:Ed; [| |discriminate].
  - destruct (addTask_date_Ok_inv fuel now task task' Hnow Ed)
      as ((t & Hv & Hy & _ & Ef) & Hleb & E).
    assert (Hd : date_text (Date task'))
      by (exists t; repeat split; try assumption; apply Hv).
    assert (Eid : ID task' = ID task) by (rewrite E; reflexivity).
    destruct (update_rows_spec (rows db) task') as [Hfst Hsnd].
    rewrite Eid in Hsnd.
    intros H. right. exists (Date task').
    split; [exact Ei|]. split; [exact Et|]. split; [exact Hd|]. split; [exact Hleb|].
    destruct (exec_error drv) as [err|].
    { injection H as <- <-. left. exists err. repeat split. }
    right. split; [reflexivity|].
    destruct (update_rows (rows db) task') as [rows' n]. cbn [fst snd] in Hfst, Hsnd.
    rewrite <- E. subst rows'.
    destruct (result_error drv) as [err|].
    { injection H as <- <-. split; [reflexivity|]. left. exists err. split; reflexivity. }
    destruct Hsnd as [[-> Hnone] | [Hn Hsome]].
    + cbn in H. injection H as <- <-. split; [reflexivity|]. right. left.
      split; [reflexivity|]. split; [exact Hnone|]. split; [|reflexivity].
      rewrite replace_row_none by (rewrite Eid; exact Hnone). apply DB_eta.
    + replace (n =? 0) with false in H by (symmetry; apply Z.eqb_neq; lia).
      injection H as <- <-. split; [reflexivity|]. right. right.
      split; [reflexivity|]. split; [exact Hsome | reflexivity].
  - intros H. injection H as <- <-. left. split; [reflexivity|].
    exact (addTask_date_Err fuel now task resp' Ed).
Qed.

Lemma addTaskHandler_total (now : Time) (drv : driver) (db : DB) (task : Task) :
  calendar_date now ->
  exists out, addTaskHandler enough_fuel now drv db task = Some out.
Proof.
  intros Hnow. unfold addTaskHandler.
  destruct (String.eqb (Title task) ""); [eexists; reflexivity|].
  destruct (addTask_date_total now task Hnow) as [[task'|resp] ->];
    [|eexists; reflexivity].
  destruct (exec_error drv); [eexists; reflexivity|].
  destruct (result_error drv); eexists; reflexivity.
Qed.

Lemma updateTaskHandler_total (now : Time) (drv : driver) (db : DB) (task : Task) :
  calendar_date now ->
  exists out, updateTaskHandler enough_fuel now drv db task = Some out.
Proof.
  intros Hnow. unfold updateTaskHandler.
  destruct (ID task =? 0); [eexists; reflexivity|].
  destruct (String.eqb (Title task) ""); [eexists; reflexivity|].
  rewrite updateTask_date_eq.
  destruct (addTask_date_total now task Hnow) as [[task'|resp] ->];
    [|eexists; reflexivity].
  destruct (exec_error drv); [eexists; reflexivity|].
  destruct (update_rows (rows db) task') as [rows' n].
  destruct (result_error drv); [eexists; reflexivity|].
  destruct (n =? 0); eexists; reflexivity.
Qed.

Lemma existsb_ID (rs : list Task) (id : Z) :
  existsb (fun r => ID r =? id) rs = true <-> exists r, In r rs /\ ID r = id.
Proof.
  rewrite existsb_exists. split; intros (r & Hin & E); exists r; (split; [exact Hin|]);
    apply Z.eqb_eq; exact E.
Qed.

(** C10: when the date of the task is empty, or parses to a calendar date
    that is today or later, creation and update accept the task whatever
    its rule text, without reading it and for any [fuel]: the date becomes
    today for an empty date and is kept otherwise, all other fields (the
    rule among them) are kept. The handlers then answer no error of
    status 400: the statement they run stores that date and that rule,
    in a new row under the next id for a creation, over the rows of the
    id of the task for an update (status 404 when there is none); an
    error of the driver is answered with status 500. *)
Theorem normalize_ignores_rule
    (fuel : nat) (now : Time) (drv : driver) (db : DB) (task : Task) :
  calendar_date now ->
  Date task = "" \/ (exists d, Parse (Date task) = Some d /\ NotAfter now d) ->
  let date := if String.eqb (Date task) "" then Format now else Date task in
  let task' := mkTask (ID task) date (Title task) (Comment task) (Repeat task) in
  addTask_date fuel now task = Some (Ok task')
  /\ updateTask_date fuel now task = Some (Ok task')
  /\ (Title task <> "" ->
      addTaskHandler fuel now drv db task
      = match exec_error drv with
        | Some err =>
            Some (db, HttpError (String.append "Failed to insert task: " err) 500)
        | None =>
          let db' := mkDB (rows db ++ [mkTask (lastID db + 1) date (Title task)
                                         (Comment task) (Repeat task)])
                          (lastID db + 1) in
          match result_error drv with
          | Some err =>
              Some (db', HttpError (String.append "Failed to retrieve last insert ID: "
                                      err) 500)
          | None => Some (db', JsonId (lastID db + 1))
          end
        end)
  /\ (ID task <> 0 -> Title task <> "" ->
      updateTaskHandler fuel now drv db task
      = match exec_error drv with
        | Some err =>
            Some (db, HttpError (String.append "Failed to update task: " err) 500)
        | None =>
          let db' := mkDB (map (fun r => if ID r =? ID task then task' else r)
                             (rows db))
                          (lastID db) in
          match result_error drv with
          | Some err =>
              Some (db', HttpError (String.append "Failed to retrieve rows affected: "
                                      err) 500)
          | None =>
            if existsb (fun r => ID r =? ID task) (rows db)
            then Some (db', JsonEmpty)
            else Some (db', HttpError "Задача не найдена" 404)
          end
        end).
Proof.
  intros Hnow Hcase date task'.
  assert (H : addTask_date fuel now task = Some (Ok task')).
  { destruct Hcase as [He | (d & Hp & Hle)].
    - unfold addTask_date, task', date. rewrite He. reflexivity.
    - rewrite (addTask_date_kept fuel now d task Hnow Hp Hle).
      unfold task', date.
      pose proof (Parse_not_empty _ _ Hp) as Hne. apply String.eqb_neq in Hne.
      rewrite Hne. destruct task; reflexivity. }
  split; [exact H|]. split; [exact H|]. split.
  - intros Ht. apply String.eqb_neq in Ht.
    unfold addTaskHandler. rewrite Ht, H. reflexivity.
  - intros Hid Ht. apply String.eqb_neq in Ht. apply Z.eqb_neq in Hid.
    unfold updateTaskHandler. rewrite Hid, Ht.
    change (updateTask_date fuel now task) with (addTask_date fuel now task).
    rewrite H.
    destruct (exec_error drv) as [err|]; [reflexivity|].
    destruct (update_rows_spec (rows db) task') as [Hfst Hsnd].
    destruct (update_rows (rows db) task') as [rows' n]. cbn [fst snd] in Hfst, Hsnd.
    subst rows'. cbn zeta.
    change (map (replace_row task') (rows db))
      with (map (fun r => if ID r =? ID task then task' else r) (rows db)).
    destruct (result_error drv) as [err|]; [reflexivity|].
    change (ID task') with (ID task) in Hsnd.
    destruct Hsnd as [[-> Hnone] | [Hn Hsome]].
    + replace (existsb (fun r => ID r =? ID task) (rows db)) with false; [reflexivity|].
      symmetry. apply not_true_is_false. intros He. apply existsb_ID in He.
      destruct He as (r & Hin & E). exact (Hnone r Hin E).
    + replace (n =? 0) with false by (symmetry; apply Z.eqb_neq; lia).
      rewrite (proj2 (existsb_ID (rows db) (ID task)) Hsome). reflexivity.
Qed.

Lemma normalize_ignores_rule_witness :
  let now := mkTime 2024 3 1 in
  let db := mkDB [mkTask 1 "20240301" "call home" "" ""] 1 in
  let task := mkTask 1 "20240315" "call home" "at noon" "d 500" in
  addTask_date 0 now task = Some (Ok task)
  /\ updateTask_date 0 now task = Some (Ok task)
  /\ addTaskHandler 0 now healthy db task
     = Some (mkDB [mkTask 1 "20240301" "call home" "" "";
                   mkTask 2 "20240315" "call home" "at noon" "d 500"] 2,
             JsonId 2)
  /\ updateTaskHandler 0 now healthy db task
     = Some (mkDB [mkTask 1 "20240315" "call home" "at noon" "d 500"] 1, JsonEmpty).
Proof.
  destruct (normalize_ignores_rule 0 (mkTime 2024 3 1) healthy
              (mkDB [mkTask 1 "20240301" "call home" "" ""] 1)
              (mkTask 1 "20240315" "call home" "at noon" "d 500"))
    as (H1 & H2 & H3 & H4).
  - split; [apply validb_spec; reflexivity | simpl; lia].
  - right. exists (mkTime 2024 3 15). split; [reflexivity | vm_compute; discriminate].
  - split; [exact H1|]. split; [exact H2|]. split.
    + apply H3. discriminate.
    + apply H4; discriminate.
Defined.

(** A request to create a task always gets an answer, one of five. It is
    refused with status 405 (the method is not POST) or 400 (the body,
    the title, the date, or the rule of a past date), the table
    unchanged. Or the INSERT fails, status 500, the table unchanged. Or
    the INSERT runs: one row is appended under the id after the last one,
    with the title, comment and rule of the request and a date not below
    today, and the answer is that id, or status 500 when the id cannot
    be read back, the row staying in the table. *)
Theorem addTaskRequest_outcome
    (now : Time) (drv : driver) (db : DB) (method : string)
    (body : result string Task) :
  calendar_date now ->
  exists (db' : DB) (resp : response),
    addTaskRequest enough_fuel now drv db method body = Some (db', resp)
    /\ ((db' = db
         /\ ((method <> "POST" /\ resp = HttpError "Method Not Allowed" 405)
             \/ (method = "POST" /\ exists msg, resp = HttpError msg 400)
             \/ (method = "POST"
                 /\ exists err, exec_error drv = Some err
                      /\ resp = HttpError (String.append "Failed to insert task: "
                                             err) 500)))
        \/ (method = "POST" /\ exec_error drv = None
            /\ (exists (task : Task) (date : string),
                  body = Ok task /\ Title task <> ""
                  /\ String.leb (Format now) date = true
                  /\ db' = mkDB (rows db ++ [mkTask (lastID db + 1) date (Title task)
                                               (Comment task) (Repeat task)])
                                (lastID db + 1))
            /\ match result_error drv with
               | Some err =>
                   resp = HttpError (String.append "Failed to retrieve last insert ID: "
                                       err) 500
               | None => resp = JsonId (lastID db + 1)
               end)).
Proof.
  intros Hnow. unfold addTaskRequest.
  destruct (String.eqb_spec method "POST") as [Em|Em]; cbn [negb].
  2: { eexists _, _. split; [reflexivity|]. left. split; [reflexivity|].
       left. split; [exact Em | reflexivity]. }
  destruct body as [task|e].
  2: { eexists _, _. split; [reflexivity|]. left. split; [reflexivity|].
       right. left. split; [exact Em | eexists; reflexivity]. }
  destruct (addTaskHandler_total now drv db task Hnow) as [[db' resp] H].
  exists db', resp. split; [exact H|].
  destruct (addTaskHandler_inv _ _ _ _ _ _ _ Hnow H)
    as [[-> [msg ->]]
       | (date & Ht & _ & Hleb
          & [(err & He & -> & ->) | (He & -> & [(err & Hr & ->) | (Hr & ->)])])].
  - left. split; [reflexivity|]. right. left. split; [exact Em | eexists; reflexivity].
  - left. split; [reflexivity|]. right. right. split; [exact Em|].
    exists err. split; [exact He | reflexivity].
  - right. split; [exact Em|]. split; [exact He|]. split.
    + exists task, date. repeat split; assumption.
    + rewrite Hr. reflexivity.
  - right. split; [exact Em|]. split; [exact He|]. split.
    + exists task, date. repeat split; assumption.
    + rewrite Hr. reflexivity.
Qed.

Lemma addTaskRequest_outcome_witness :
  let now := mkTime 2024 3 1 in
  let body := Ok (E := string) (mkTask 0 "20240101" "water plants" "" "d 7") in
  exists (db' : DB) (resp : response),
    addTaskRequest enough_fuel now healthy empty_table "POST" body = Some (db', resp)
    /\ ((db' = empty_table
         /\ (("POST" <> "POST" /\ resp = HttpError "Method Not Allowed" 405)
             \/ ("POST" = "POST" /\ exists msg, resp = HttpError msg 400)
             \/ ("POST" = "POST"
                 /\ exists err, exec_error healthy = Some err
                      /\ resp = HttpError (String.append "Failed to insert task: "
                                             err) 500)))
        \/ ("POST" = "POST" /\ exec_error healthy = None
            /\ (exists (task : Task) (date : string),
                  body = Ok task /\ Title task <> ""
                  /\ String.leb (Format now) date = true
                  /\ db' = mkDB (rows empty_table
                                 ++ [mkTask (lastID empty_table + 1) date (Title task)
                                       (Comment task) (Repeat task)])
                                (lastID empty_table + 1))
            /\ match result_error healthy with
               | Some err =>
                   resp = HttpError (String.append "Failed to retrieve last insert ID: "
                                       err) 500
               | None => resp = JsonId (lastID empty_table + 1)
               end)).
Proof.
  apply (addTaskRequest_outcome (mkTime 2024 3 1) healthy empty_table "POST"
           (Ok (mkTask 0 "20240101" "water plants" "" "d 7"))).
  split; [apply validb_spec; reflexivity | simpl; lia].
Defined.

(** A request to update a task always gets an answer, one of five. It is
    refused with status 400 (the body, the id, the title, the date, or
    the rule of a past date), the table unchanged. Or the UPDATE fails,
    status 500, the table unchanged. Or the UPDATE runs: the title,
    comment and rule of the request and a date not below today are
    written over the rows of the id of the request, every other row and
    the last id staying as they were; the answer is then status 500 when
    the count of rows cannot be read, status 404 when no row has that id
    (the table is then as it was), and the empty object otherwise. *)
Theorem updateTaskRequest_outcome
    (now : Time) (drv : driver) (db : DB) (body : result string Task) :
  calendar_date now ->
  exists (db' : DB) (resp : response),
    updateTaskRequest enough_fuel now drv db body = Some (db', resp)
    /\ ((db' = db
         /\ ((exists msg, resp = HttpError msg 400)
             \/ (exists err, exec_error drv = Some err
                   /\ resp = HttpError (String.append "Failed to update task: "
                                          err) 500)))
        \/ (exec_error drv = None
            /\ exists (task : Task) (date : string),
                 body = Ok task /\ ID task <> 0 /\ Title task <> ""
                 /\ String.leb (Format now) date = true
                 /\ db' = mkDB (map (fun r => if ID r =? ID task
                                              then mkTask (ID task) date (Title task)
                                                     (Comment task) (Repeat task)
                                              else r) (rows db))
                               (lastID db)
                 /\ match result_error drv with
                    | Some err =>
                        resp = HttpError
                                 (String.append "Failed to retrieve rows affected: "
                                    err) 500
                    | None =>
                        if existsb (fun r => ID r =? ID task) (rows db)
                        then resp = JsonEmpty
                        else resp = HttpError "Задача не найдена" 404 /\ db' = db
                    end)).
Proof.
  intros Hnow. unfold updateTaskRequest.
  destruct body as [task|e].
  2: { eexists _, _. split; [reflexivity|]. left. split; [reflexivity|].
       left. eexists. reflexivity. }
  destruct (updateTaskHandler_total now drv db task Hnow) as [[db' resp] H].
  exists db', resp. split; [exact H|].
  destruct (updateTaskHandler_inv _ _ _ _ _ _ _ Hnow H)
    as [[-> [msg ->]]
       | (date & Hi & Ht & _ & Hleb
          & [(err & He & -> & ->)
            | (He & Hdb & [(err & Hr & ->)
                          | [(Hr & Hnone & Hsame & ->) | (Hr & Hsome & ->)]])])].
  - left. split; [reflexivity|]. left. eexists. reflexivity.
  - left. split; [reflexivity|]. right. exists err. split; [exact He | reflexivity].
  - right. split; [exact He|]. exists task, date.
    split; [reflexivity|]. split; [exact Hi|]. split; [exact Ht|].
    split; [exact Hleb|]. split; [exact Hdb|]. rewrite Hr. reflexivity.
  - right. split; [exact He|]. exists task, date.
    split; [reflexivity|]. split; [exact Hi|]. split; [exact Ht|].
    split; [exact Hleb|]. split.
    + exact Hdb.
    + rewrite Hr.
      replace (existsb (fun r => ID r =? ID task) (rows db)) with false;
        [split; [reflexivity | exact Hsame]|].
      symmetry. apply not_true_is_false. intros Hex. apply existsb_ID in Hex.
      destruct Hex as (r & Hin & E). exact (Hnone r Hin E).
  - right. split; [exact He|]. exists task, date.
    split; [reflexivity|]. split; [exact Hi|]. split; [exact Ht|].
    split; [exact Hleb|]. split; [exact Hdb|]. rewrite Hr.
    rewrite (proj2 (existsb_ID (rows db) (ID task)) Hsome). reflexivity.
Qed.

Lemma updateTaskRequest_outcome_witness :
  let now := mkTime 2024 3 1 in
  let db := mkDB [mkTask 1 "20240304" "water plants" "" "d 7"] 1 in
  let body := Ok (E := string) (mkTask 1 "20240310" "water roses" "" "") in
  exists (db' : DB) (resp : response),
    updateTaskRequest enough_fuel now healthy db body = Some (db', resp)
    /\ ((db' = db
         /\ ((exists msg, resp = HttpError msg 400)
             \/ (exists err, exec_error healthy = Some err
                   /\ resp = HttpError (String.append "Failed to update task: "
                                          err) 500)))
        \/ (exec_error healthy = None
            /\ exists (task : Task) (date : string),
                 body = Ok task /\ ID task <> 0 /\ Title task <> ""
                 /\ String.leb (Format now) date = true
                 /\ db' = mkDB (map (fun r => if ID r =? ID task
                                              then mkTask (ID task) date (Title task)
                                                     (Comment task) (Repeat task)
                                              else r) (rows db))
                               (lastID db)
                 /\ match result_error healthy with
                    | Some err =>
                        resp = HttpError
                                 (String.append "Failed to retrieve rows affected: "
                                    err) 500
                    | None =>
                        if existsb (fun r => ID r =? ID task) (rows db)
                        then resp = JsonEmpty
                        else resp = HttpError "Задача не найдена" 404 /\ db' = db
                    end)).
Proof.
  apply (updateTaskRequest_outcome (mkTime 2024 3 1) healthy
           (mkDB [mkTask 1 "20240304" "water plants" "" "d 7"] 1)
           (Ok (mkTask 1 "20240310" "water roses" "" ""))).
  split; [apply validb_spec; reflexivity | simpl; lia].
Defined.

(** ** Ids as text *)

Lemma fmt_uint_digits (fuel : nat) :
  forall (u : Z) (acc : string),
    (0 < fuel)%nat -> 0 <= u < 2 ^ Z.of_nat fuel ->
    strconv.digits_value 0 (fmt_uint fuel u acc) = strconv.digits_value u acc
    /\ (strconv.all_digits acc = true ->
        strconv.all_digits (fmt_uint fuel u acc) = true)
    /\ fmt_uint fuel u acc <> "".
Proof.
  induction fuel as [|fuel IH]; intros u acc Hf Hu; [lia|].
  cbn [fmt_uint].
  assert (Hd : 0 <= u - u / 10 * 10 <= 9) by (Z.div_mod_to_equations; lia).
  assert (Hb : byte_val (digit (u - u / 10 * 10)) = 48 + (u - u / 10 * 10))
    by (apply byte_val_digit; exact Hd).
  assert (Hdig : strconv.is_digit (digit (u - u / 10 * 10)) = true).
  { unfold strconv.is_digit. rewrite Hb.
    apply andb_true_intro. split; apply Z.leb_le; lia. }
  destruct (10 <=? u) eqn:E.
  - apply Z.leb_le in E.
    assert (Hpow : 2 ^ Z.of_nat (S fuel) = 2 * 2 ^ Z.of_nat fuel)
      by (rewrite Nat2Z.inj_succ, Z.pow_succ_r by lia; reflexivity).
    assert (Hq : 0 <= u / 10 < 2 ^ Z.of_nat fuel)
      by (split; [apply Z.div_pos; lia | apply Z.div_lt_upper_bound; lia]).
    assert (Hf' : (0 < fuel)%nat).
    { destruct fuel; [|lia]. change (2 ^ Z.of_nat 0) with 1 in Hq.
      assert (1 <= u / 10) by (apply Z.div_le_lower_bound; lia). lia. }
    destruct (IH (u / 10) (String (digit (u - u / 10 * 10)) acc) Hf' Hq)
      as (Hv & Ha & Hn).
    split; [|split].
    + rewrite Hv. cbn [strconv.digits_value]. rewrite Hb. f_equal. lia.
    + intros Hacc. apply Ha. cbn [strconv.all_digits]. rewrite Hdig, Hacc. reflexivity.
    + exact Hn.
  - apply Z.leb_gt in E. split; [|split].
    + cbn [strconv.digits_value]. rewrite Hb. f_equal.
      assert (u / 10 = 0) by (apply Z.div_small; lia). lia.
    + intros Hacc. cbn [strconv.all_digits]. rewrite Hdig, Hacc. reflexivity.
    + discriminate.
Qed.

Lemma decimal_digits (u : Z) :
  0 <= u ->
  strconv.digits_value 0 (decimal u) = u
  /\ strconv.all_digits (decimal u) = true
  /\ decimal u <> "".
Proof.
  intros Hu. unfold decimal.
  assert (Hlt : 0 <= u < 2 ^ Z.of_nat (S (Z.to_nat (Z.log2 u)))).
  { rewrite Nat2Z.inj_succ, Z2Nat.id by apply Z.log2_nonneg.
    destruct (Z.eq_dec u 0) as [->|Hne];
      [change (2 ^ Z.succ (Z.log2 0)) with 2; lia|].
    pose proof (Z.log2_spec u ltac:(lia)). lia. }
  destruct (fmt_uint_digits _ u "" (Nat.lt_0_succ _) Hlt) as (Hv & Ha & Hn).
  split; [exact Hv|]. split; [apply Ha; reflexivity | exact Hn].
Qed.

Lemma ParseUint_decimal (u : Z) :
  0 <= u <= 18446744073709551615 -> strconv.ParseUint (decimal u) = Ok u.
Proof.
  intros Hu. destruct (decimal_digits u ltac:(lia)) as (Hv & Ha & Hn).
  unfold strconv.ParseUint. destruct (decimal u) as [|c s] eqn:E; [contradiction|].
  rewrite Ha, Hv. cbn [negb].
  replace (18446744073709551615 <? u) with false by (symmetry; apply Z.ltb_ge; lia).
  reflexivity.
Qed.

(** The text that [FormatInt] gives an id is read back by [ParseInt]. *)
Lemma ParseInt_FormatInt (n : Z) :
  - 9223372036854775808 <= n < 9223372036854775808 ->
  strconv.ParseInt (strconv.FormatInt n) = Ok n.
Proof.
  intros Hn. unfold strconv.FormatInt, strconv.Itoa.
  destruct (n <? 0) eqn:E.
  - apply Z.ltb_lt in E. cbn [String.append].
    unfold strconv.ParseInt. cbn [Ascii.eqb Bool.eqb orb andb negb].
    rewrite (ParseUint_decimal (Z.abs n)) by lia. cbn [bind].
    replace (9223372036854775808 <? Z.abs n) with false
      by (symmetry; apply Z.ltb_ge; lia).
    f_equal. lia.
  - apply Z.ltb_ge in E. cbn [String.append]. rewrite Z.abs_eq by lia.
    destruct (decimal_digits n E) as (_ & Ha & Hne).
    pose proof (ParseUint_decimal n ltac:(lia)) as Hp.
    destruct (decimal n) as [|c s] eqn:Ed; [contradiction|].
    cbn [strconv.all_digits] in Ha. apply andb_prop in Ha. destruct Ha as [Hc _].
    unfold strconv.is_digit in Hc. apply andb_prop in Hc. destruct Hc as [H1 H2].
    apply Z.leb_le in H1, H2.
    unfold strconv.ParseInt.
    assert (Em : Ascii.eqb c "-" = false).
    { destruct (Ascii.eqb_spec c "-") as [->|]; [|reflexivity].
      vm_compute in H1. exfalso. apply H1. reflexivity. }
    assert (Ep : Ascii.eqb c "+" = false).
    { destruct (Ascii.eqb_spec c "+") as [->|]; [|reflexivity].
      vm_compute in H1. exfalso. apply H1. reflexivity. }
    rewrite Em, Ep. cbn [orb]. rewrite Hp. cbn [bind negb andb].
    replace (9223372036854775808 <=? n) with false by (symmetry; apply Z.leb_gt; lia).
    reflexivity.
Qed.

(** ** The table under requests *)

Lemma ids_upto_succ (n : Z) : 0 <= n -> ids_upto (n + 1) = (ids_upto n ++ [n + 1])%list.
Proof.
  intros Hn. unfold ids_upto.
  replace (Z.to_nat (n + 1)) with (S (Z.to_nat n)) by lia.
  rewrite seq_S, map_app. cbn [map]. do 2 f_equal. lia.
Qed.

Lemma in_ids_upto (id n : Z) : In id (ids_upto n) <-> 1 <= id <= n.
Proof.
  unfold ids_upto. rewrite in_map_iff. split.
  - intros (k & <- & Hk). apply in_seq in Hk. lia.
  - intros H. exists (Z.to_nat id). split; [lia | apply in_seq; lia].
Qed.

Lemma replace_row_ID (task r : Task) : ID (replace_row task r) = ID r.
Proof.
  unfold replace_row. destruct (Z.eqb_spec (ID r) (ID task)) as [E|E];
    [symmetry; exact E | reflexivity].
Qed.

Lemma answer_inv (r : option (DB * response)) (db' : DB) (resp : reply) :
  answer r = Some (db', resp) ->
  exists resp0, r = Some (db', resp0) /\ resp = Answer resp0.
Proof.
  destruct r as [[db0 resp0]|]; [|discriminate].
  intros H. injection H as <- <-. exists resp0. split; reflexivity.
Qed.

(** The answers of [getTaskHandler] and [getTasksHandler] are no answers
    of a write. *)
Lemma getTaskHandler_reads (drv : driver) (db : DB) (idStr : string) :
  (forall id, getTaskHandler drv db idStr <> Answer (JsonId id))
  /\ getTaskHandler drv db idStr <> Answer JsonEmpty.
Proof.
  unfold getTaskHandler.
  destruct (String.eqb idStr ""); [split; [intros id|]; discriminate|].
  destruct (strconv.ParseInt idStr) as [id'|e]; [|split; [intros id|]; discriminate].
  destruct (query_error drv); [split; [intros id|]; discriminate|].
  destruct (query_row db id'); [|split; [intros id|]; discriminate].
  destruct (scan_error drv 0); split; try intros id; discriminate.
Qed.

Lemma getTasksHandler_reads (drv : driver) (db : DB) :
  (forall id, getTasksHandler drv db <> Answer (JsonId id))
  /\ getTasksHandler drv db <> Answer JsonEmpty.
Proof.
  unfold getTasksHandler.
  destruct (query_error drv); [split; [intros id|]; discriminate|].
  destruct (scan_rows drv 0 (query_tasks drv db) None);
    split; try intros id; discriminate.
Qed.

(** A request leaves the table as it is, or is a creation whose INSERT
    ran, or an update whose UPDATE ran. *)
Lemma serve_inv (fuel : nat) (now : Time) (drv : driver) (db db' : DB)
    (req : request) (resp : reply) :
  calendar_date now ->
  serve fuel now drv db req = Some (db', resp) ->
  (db' = db /\ (forall id, resp <> Answer (JsonId id)) /\ resp <> Answer JsonEmpty)
  \/ (exists (task : Task) (date : string),
        req = AddTaskRequest "POST" (Ok task)
        /\ Title task <> "" /\ date_text date
        /\ exec_error drv = None
        /\ db' = mkDB (rows db ++ [mkTask (lastID db + 1) date (Title task)
                                     (Comment task) (Repeat task)])
                      (lastID db + 1)
        /\ match result_error drv with
           | Some err =>
               resp = Answer (HttpError
                                (String.append "Failed to retrieve last insert ID: "
                                   err) 500)
           | None => resp = Answer (JsonId (lastID db + 1))
           end)
  \/ (exists (idStr : string) (task : Task) (date : string),
        req = TaskRequest "PUT" idStr (Ok task)
        /\ Title task <> "" /\ date_text date
        /\ exec_error drv = None
        /\ db' = mkDB (map (replace_row (with_Date task date)) (rows db)) (lastID db)
        /\ match result_error drv with
           | Some err =>
               resp = Answer (HttpError
                                (String.append "Failed to retrieve rows affected: "
                                   err) 500)
           | None =>
               (exists r, In r (rows db) /\ ID r = ID task) /\ resp = Answer JsonEmpty
           end).
Proof.
  intros Hnow H.
  assert (Hsame : forall msg st, db' = db -> resp = Answer (HttpError msg st) ->
            db' = db /\ (forall id, resp <> Answer (JsonId id))
            /\ resp <> Answer JsonEmpty).
  { intros msg st -> ->. split; [reflexivity|]. split; [intros id|]; discriminate. }
  destruct req as [nowStr dateStr repeatStr | method body | | method idStr body];
    cbn [serve] in H.
  - left. unfold nextDateHandler in H.
    destruct (Parse nowStr) as [now'|].
    + destruct (NextDate fuel now' dateStr repeatStr) as [[s|e]|]; [| |discriminate H];
        injection H as <- <-; (split; [reflexivity|]); split; try intros id; discriminate.
    + injection H as <- <-. split; [reflexivity|]. split; [intros id|]; discriminate.
  - apply answer_inv in H. destruct H as (resp0 & H & ->).
    unfold addTaskRequest in H.
    destruct (String.eqb_spec method "POST") as [->|Em]; cbn [negb] in H.
    2: { injection H as <- <-. left. eapply Hsame; reflexivity. }
    destruct body as [task|e].
    2: { injection H as <- <-. left. eapply Hsame; reflexivity. }
    destruct (addTaskHandler_inv _ _ _ _ _ _ _ Hnow H)
      as [[-> [msg ->]]
         | (date & Ht & Hd & _
            & [(err & He & -> & ->) | (He & -> & [(err & Hr & ->) | (Hr & ->)])])].
    + left. eapply Hsame; reflexivity.
    + left. eapply Hsame; reflexivity.
    + right. left. exists task, date. rewrite Hr. repeat split; assumption.
    + right. left. exists task, date. rewrite Hr. repeat split; assumption.
  - left. injection H as <- <-. split; [reflexivity|]. apply getTasksHandler_reads.
  - unfold taskHandler in H.
    destruct (String.eqb_spec method "GET") as [Eg|Eg].
    { left. injection H as <- <-. split; [reflexivity|]. apply getTaskHandler_reads. }
    destruct (String.eqb_spec method "PUT") as [->|Ep].
    2: { injection H as <- <-. left. eapply Hsame; reflexivity. }
    apply answer_inv in H. destruct H as (resp0 & H & ->).
    unfold updateTaskRequest in H. destruct body as [task|e].
    2: { injection H as <- <-. left. eapply Hsame; reflexivity. }
    destruct (updateTaskHandler_inv _ _ _ _ _ _ _ Hnow H)
      as [[-> [msg ->]]
         | (date & _ & Ht & Hd & _
            & [(err & He & -> & ->)
              | (He & Hdb & [(err & Hr & ->)
                            | [(Hr & _ & Hsm & ->) | (Hr & Hsome & ->)]])])].
    + left. eapply Hsame; reflexivity.
    + left. eapply Hsame; reflexivity.
    + right. right. exists idStr, task, date. rewrite Hr. repeat split; assumption.
    + left. eapply Hsame; [exact Hsm | reflexivity].
    + right. right. exists idStr, task, date. rewrite Hr. repeat split; assumption.
Qed.

Lemma serve_table_ok (fuel : nat) (now : Time) (drv : driver) (db db' : DB)
    (req : request) (resp : reply) :
  calendar_date now -> table_ok db ->
  serve fuel now drv db req = Some (db', resp) -> table_ok db'.
Proof.
  intros Hnow (Hn & Hids & Hrows) H.
  destruct (serve_inv _ _ _ _ _ _ _ Hnow H)
    as [[-> _] | [(task & date & _ & Ht & Hd & _ & -> & _)
                 | (idStr & task & date & _ & Ht & Hd & _ & -> & _)]].
  - repeat split; assumption.
  - unfold table_ok. cbn [rows lastID]. split; [lia|]. split.
    + rewrite map_app, Hids, (ids_upto_succ _ Hn). reflexivity.
    + apply Forall_app. split; [exact Hrows|].
      constructor; [|constructor]. cbn [Title Date]. split; assumption.
  - unfold table_ok. cbn [rows lastID]. split; [exact Hn|]. split.
    + rewrite map_map, <- Hids. apply map_ext. intros r. apply replace_row_ID.
    + apply Forall_map. revert Hrows. apply Forall_impl. intros r Hr.
      unfold replace_row. destruct (ID r =? ID (with_Date task date)); [|exact Hr].
      cbn [with_Date Title Date]. split; assumption.
Qed.

(** In every table that requests lead to from the empty one, the ids are
    1 to the last id given, each on one row and in this order; no title
    is empty; every date is the formatted form of a day of the calendar. *)
Theorem reachable_table_ok (db : DB) :
  reachable db ->
  0 <= lastID db
  /\ map ID (rows db) = ids_upto (lastID db)
  /\ Forall (fun r => Title r <> "" /\ date_text (Date r)) (rows db).
Proof.
  intros H. change (table_ok db).
  induction H as [|db db' fuel now drv req resp _ IH Hnow Hs].
  - split; [cbn; lia|]. split; [reflexivity | constructor].
  - exact (serve_table_ok fuel now drv db db' req resp Hnow IH Hs).
Qed.

Lemma reachable_table_ok_witness :
  let db := mkDB [mkTask 1 "20240304" "water plants" "" "d 7"] 1 in
  0 <= lastID db
  /\ map ID (rows db) = ids_upto (lastID db)
  /\ Forall (fun r => Title r <> "" /\ date_text (Date r)) (rows db).
Proof.
  apply (reachable_table_ok (mkDB [mkTask 1 "20240304" "water plants" "" "d 7"] 1)).
  apply (reachable_serve empty_table _ 20 (mkTime 2024 3 1) healthy
           (AddTaskRequest "POST" (Ok (mkTask 0 "20240101" "water plants" "" "d 7")))
           (Answer (JsonId 1)) reachable_empty).
  - split; [apply validb_spec; reflexivity | simpl; lia].
  - vm_compute. reflexivity.
Defined.

(** A request changes the table only when it is a POST to create or a
    PUT to update whose statement ran. The creation adds one row at the
    end, under the next id; the update keeps the ids of all rows and the
    last id. The answer is then the id, or the empty object, or status
    500 when the driver fails after the statement: an error answered
    although the table has changed. Every other request, refused or
    served, leaves the table as it was; no request removes a row. *)
Theorem serve_writes_only_by_statement
    (fuel : nat) (now : Time) (drv : driver) (db db' : DB) (req : request)
    (resp : reply) :
  calendar_date now ->
  serve fuel now drv db req = Some (db', resp) ->
  (db' = db /\ (forall id, resp <> Answer (JsonId id)) /\ resp <> Answer JsonEmpty)
  \/ (exists (body : result string Task) (row : Task),
        req = AddTaskRequest "POST" body
        /\ exec_error drv = None
        /\ rows db' = (rows db ++ [row])%list
        /\ ID row = lastID db + 1 /\ lastID db' = lastID db + 1
        /\ match result_error drv with
           | Some err =>
               resp = Answer (HttpError
                                (String.append "Failed to retrieve last insert ID: "
                                   err) 500)
           | None => resp = Answer (JsonId (ID row))
           end)
  \/ (exists (idStr : string) (body : result string Task),
        req = TaskRequest "PUT" idStr body
        /\ exec_error drv = None
        /\ map ID (rows db') = map ID (rows db)
        /\ lastID db' = lastID db
        /\ match result_error drv with
           | Some err =>
               resp = Answer (HttpError
                                (String.append "Failed to retrieve rows affected: "
                                   err) 500)
           | None => resp = Answer JsonEmpty
           end).
Proof.
  intros Hnow H.
  destruct (serve_inv _ _ _ _ _ _ _ Hnow H)
    as [Hsame | [(task & date & -> & _ & _ & He & -> & Hresp)
                | (idStr & task & date & -> & _ & _ & He & -> & Hresp)]].
  - left. exact Hsame.
  - right. left. eexists _, _. split; [reflexivity|]. split; [exact He|].
    cbn [rows lastID ID]. split; [reflexivity|]. split; [reflexivity|].
    split; [reflexivity | exact Hresp].
  - right. right. eexists _, _. split; [reflexivity|]. split; [exact He|].
    cbn [rows lastID]. split; [|split; [reflexivity|]].
    + rewrite map_map. apply map_ext. intros r. apply replace_row_ID.
    + destruct (result_error drv); [exact Hresp | exact (proj2 Hresp)].
Qed.

Lemma serve_writes_only_by_statement_witness :
  let drv := mkDriver None (Some "no id") None (fun _ => None) None in
  let db := mkDB [mkTask 1 "20240304" "water plants" "" "d 7"] 1 in
  let db' := mkDB [mkTask 1 "20240304" "water plants" "" "d 7";
                   mkTask 2 "20240310" "water roses" "" ""] 2 in
  let req := AddTaskRequest "POST" (Ok (mkTask 0 "20240310" "water roses" "" "")) in
  let resp := Answer (HttpError "Failed to retrieve last insert ID: no id" 500) in
  (db' = db /\ (forall id, resp <> Answer (JsonId id)) /\ resp <> Answer JsonEmpty)
  \/ (exists (body : result string Task) (row : Task),
        req = AddTaskRequest "POST" body
        /\ exec_error drv = None
        /\ rows db' = (rows db ++ [row])%list
        /\ ID row = lastID db + 1 /\ lastID db' = lastID db + 1
        /\ match result_error drv with
           | Some err =>
               resp = Answer (HttpError
                                (String.append "Failed to retrieve last insert ID: "
                                   err) 500)
           | None => resp = Answer (JsonId (ID row))
           end)
  \/ (exists (idStr : string) (body : result string Task),
        req = TaskRequest "PUT" idStr body
        /\ exec_error drv = None
        /\ map ID (rows db') = map ID (rows db)
        /\ lastID db' = lastID db
        /\ match result_error drv with
           | Some err =>
               resp = Answer (HttpError
                                (String.append "Failed to retrieve rows affected: "
                                   err) 500)
           | None => resp = Answer JsonEmpty
           end).
Proof.
  apply (serve_writes_only_by_statement 0 (mkTime 2024 3 1)
           (mkDriver None (Some "no id") None (fun _ => None) None)
           (mkDB [mkTask 1 "20240304" "water plants" "" "d 7"] 1)
           (mkDB [mkTask 1 "20240304" "water plants" "" "d 7";
                  mkTask 2 "20240310" "water roses" "" ""] 2)
           (AddTaskRequest "POST" (Ok (mkTask 0 "20240310" "water roses" "" "")))
           (Answer (HttpError "Failed to retrieve last insert ID: no id" 500))).
  - split; [apply validb_spec; reflexivity | simpl; lia].
  - vm_compute. reflexivity.
Defined.

(** ** Reading one task *)

Lemma query_row_table (db : DB) (id : Z) :
  table_ok db ->
  if (1 <=? id) && (id <=? lastID db)
  then exists task, query_row db id = Some task /\ In task (rows db) /\ ID task = id
  else query_row db id = None.
Proof.
  intros (_ & Hids & _). unfold query_row.
  destruct (find (fun r => ID r =? id) (rows db)) as [task|] eqn:Ef.
  - apply find_some in Ef. destruct Ef as [Hin Eid]. apply Z.eqb_eq in Eid.
    assert (Hr : 1 <= id <= lastID db).
    { apply in_ids_upto. rewrite <- Hids, <- Eid. apply in_map. exact Hin. }
    replace ((1 <=? id) && (id <=? lastID db)) with true
      by (symmetry; apply andb_true_intro; split; apply Z.leb_le; lia).
    exists task. repeat split; assumption.
  - destruct ((1 <=? id) && (id <=? lastID db)) eqn:Er; [|reflexivity].
    exfalso. apply andb_prop in Er. destruct Er as [H1 H2]. apply Z.leb_le in H1, H2.
    assert (Hin : In id (map ID (rows db)))
      by (rewrite Hids; apply in_ids_upto; lia).
    apply in_map_iff in Hin. destruct Hin as (r & Er & Hin).
    pose proof (find_none _ _ Ef r Hin) as Hf. cbn beta in Hf.
    apply Z.eqb_neq in Hf. contradiction.
Qed.

(** On a table that requests have led to, [getTaskHandler] refuses with
    status 400 an id that is absent, empty or not an integer of 64 bits;
    for an integer it answers status 500 when the query fails, status 404
    when the integer is outside 1 to the last id, and otherwise the
    fields of the row of that id, or status 500 when the row cannot be
    scanned. *)
Theorem getTaskHandler_answer (drv : driver) (db : DB) (idStr : string) :
  table_ok db ->
  match strconv.ParseInt idStr with
  | Err _ => exists msg, getTaskHandler drv db idStr = Answer (HttpError msg 400)
  | Ok id =>
    match query_error drv with
    | Some err =>
        getTaskHandler drv db idStr
        = Answer (HttpError (String.append "Ошибка при поиске задачи: " err) 500)
    | None =>
      if (1 <=? id) && (id <=? lastID db)
      then exists task,
             In task (rows db) /\ ID task = id
             /\ getTaskHandler drv db idStr
                = match scan_error drv 0 with
                  | Some err =>
                      Answer (HttpError (String.append "Ошибка при поиске задачи: "
                                           err) 500)
                  | None =>
                      JsonTask [("id", strconv.FormatInt id); ("date", Date task);
                                ("title", Title task); ("comment", Comment task);
                                ("repeat", Repeat task)]
                  end
      else getTaskHandler drv db idStr = Answer (HttpError "Задача не найдена" 404)
    end
  end.
Proof.
  intros Hok. unfold getTaskHandler.
  destruct (String.eqb_spec idStr "") as [->|Hne].
  { cbn. eexists. reflexivity. }
  destruct (strconv.ParseInt idStr) as [id|e]; [|eexists; reflexivity].
  destruct (query_error drv) as [err|]; [reflexivity|].
  pose proof (query_row_table db id Hok) as Hq.
  destruct ((1 <=? id) && (id <=? lastID db)).
  - destruct Hq as (task & -> & Hin & Eid). exists task.
    split; [exact Hin|]. split; [exact Eid|].
    unfold taskMap. rewrite Eid. reflexivity.
  - rewrite Hq. reflexivity.
Qed.

Lemma getTaskHandler_answer_witness :
  let db := mkDB [mkTask 1 "20240304" "water plants" "" "d 7"] 1 in
  exists task,
    In task (rows db) /\ ID task = 1
    /\ getTaskHandler healthy db "1"
       = JsonTask [("id", "1"); ("date", Date task);
                   ("title", Title task); ("comment", Comment task);
                   ("repeat", Repeat task)].
Proof.
  apply (getTaskHandler_answer healthy
           (mkDB [mkTask 1 "20240304" "water plants" "" "d 7"] 1) "1").
  split; [simpl; lia|]. split; [reflexivity|].
  constructor; [|constructor]. split; [discriminate|].
  exists (mkTime 2024 3 4). split; [apply validb_spec; reflexivity|].
  split; [simpl; lia | reflexivity].
Defined.

Lemma find_app_last {A : Type} (f : A -> bool) (l : list A) (x : A) :
  find f (l ++ [x])
  = match find f l with
    | Some y => Some y
    | None => if f x then Some x else None
    end.
Proof.
  induction l as [|y l IH]; [reflexivity|].
  cbn [app find]. destruct (f y); [reflexivity | exact IH].
Qed.

Lemma getTaskHandler_ext (drv : driver) (db db' : DB) (idStr : string) :
  (forall id, strconv.ParseInt idStr = Ok id -> query_row db' id = query_row db id) ->
  getTaskHandler drv db' idStr = getTaskHandler drv db idStr.
Proof.
  intros H. unfold getTaskHandler.
  destruct (String.eqb idStr ""); [reflexivity|].
  destruct (strconv.ParseInt idStr) as [id|e]; [|reflexivity].
  rewrite (H id eq_refl). reflexivity.
Qed.

(** What [getTaskHandler] answers for a text that reads as the id of a
    row it finds. *)
Lemma getTaskHandler_found (drv : driver) (db : DB) (idStr : string) (task : Task) :
  strconv.ParseInt idStr = Ok (ID task) ->
  query_row db (ID task) = Some task ->
  getTaskHandler drv db idStr
  = match query_error drv with
    | Some err =>
        Answer (HttpError (String.append "Ошибка при поиске задачи: " err) 500)
    | None =>
      match scan_error drv 0 with
      | Some err =>
          Answer (HttpError (String.append "Ошибка при поиске задачи: " err) 500)
      | None =>
          JsonTask [("id", strconv.FormatInt (ID task)); ("date", Date task);
                    ("title", Title task); ("comment", Comment task);
                    ("repeat", Repeat task)]
      end
    end.
Proof.
  intros Hp Hq. unfold getTaskHandler.
  destruct (String.eqb_spec idStr "") as [->|_]; [discriminate Hp|].
  rewrite Hp, Hq. reflexivity.
Qed.

(** A task that was created can be read back: after a creation answered
    with an id, [getTaskHandler] answers, for every text that reads as
    this id, the title, comment and rule of the request under the date
    stored, unless the driver fails on the read (status 500); the text
    that [FormatInt] gives the id is such a text; and for every other id
    it answers as it did before. *)
Theorem add_then_get
    (fuel : nat) (now : Time) (drv drv' : driver) (db db' : DB) (task : Task)
    (id : Z) :
  calendar_date now -> table_ok db ->
  addTaskHandler fuel now drv db task = Some (db', JsonId id) ->
  exists date : string,
    (forall idStr, strconv.ParseInt idStr = Ok id ->
       getTaskHandler drv' db' idStr
       = match query_error drv' with
         | Some err =>
             Answer (HttpError (String.append "Ошибка при поиске задачи: " err) 500)
         | None =>
           match scan_error drv' 0 with
           | Some err =>
               Answer (HttpError (String.append "Ошибка при поиске задачи: " err) 500)
           | None =>
               JsonTask [("id", strconv.FormatInt id); ("date", date);
                         ("title", Title task); ("comment", Comment task);
                         ("repeat", Repeat task)]
           end
         end)
    /\ (id < 9223372036854775808 ->
        strconv.ParseInt (strconv.FormatInt id) = Ok id)
    /\ (forall idStr, strconv.ParseInt idStr <> Ok id ->
          getTaskHandler drv' db' idStr = getTaskHandler drv' db idStr).
Proof.
  intros Hnow Hok H.
  destruct (addTaskHandler_inv _ _ _ _ _ _ _ Hnow H)
    as [[_ [msg Hm]]
       | (date & _ & _ & _
          & [(err & _ & _ & Hm) | (_ & -> & [(err & _ & Hm) | (_ & Hid)])])];
    try discriminate Hm.
  injection Hid as ->.
  pose proof Hok as (Hn & _ & _).
  assert (Hfresh : query_row db (lastID db + 1) = None).
  { pose proof (query_row_table db (lastID db + 1) Hok) as Hq.
    replace ((1 <=? lastID db + 1) && (lastID db + 1 <=? lastID db)) with false in Hq;
      [exact Hq|].
    symmetry. apply andb_false_intro2. apply Z.leb_gt. lia. }
  exists date. split; [|split].
  - intros idStr Hp.
    apply (getTaskHandler_found drv' _ idStr
             (mkTask (lastID db + 1) date (Title task) (Comment task) (Repeat task)));
      [exact Hp|].
    unfold query_row in *. cbn [rows ID].
    rewrite find_app_last, Hfresh. cbn [ID]. rewrite Z.eqb_refl. reflexivity.
  - intros Hlt. apply ParseInt_FormatInt. lia.
  - intros idStr Hp. apply getTaskHandler_ext. intros id' Hp'.
    unfold query_row. cbn [rows]. rewrite find_app_last. cbn [ID].
    destruct (find (fun r => ID r =? id') (rows db)); [reflexivity|].
    replace (lastID db + 1 =? id') with false; [reflexivity|].
    symmetry. apply Z.eqb_neq. intros E. apply Hp. rewrite Hp', E. reflexivity.
Qed.

Lemma add_then_get_witness :
  let db' := mkDB [mkTask 1 "20240304" "water plants" "" "d 7"] 1 in
  exists date : string,
    (forall idStr, strconv.ParseInt idStr = Ok 1 ->
       getTaskHandler healthy db' idStr
       = JsonTask [("id", strconv.FormatInt 1); ("date", date);
                   ("title", "water plants"); ("comment", "");
                   ("repeat", "d 7")])
    /\ (1 < 9223372036854775808 ->
        strconv.ParseInt (strconv.FormatInt 1) = Ok 1)
    /\ (forall idStr, strconv.ParseInt idStr <> Ok 1 ->
          getTaskHandler healthy db' idStr = getTaskHandler healthy empty_table idStr).
Proof.
  apply (add_then_get 20 (mkTime 2024 3 1) healthy healthy empty_table
           (mkDB [mkTask 1 "20240304" "water plants" "" "d 7"] 1)
           (mkTask 0 "20240101" "water plants" "" "d 7") 1).
  - split; [apply validb_spec; reflexivity | simpl; lia].
  - split; [simpl; lia|]. split; [reflexivity | constructor].
  - vm_compute. reflexivity.
Defined.

Lemma find_replace_same (task : Task) (rs : list Task) :
  (exists r, In r rs /\ ID r = ID task) ->
  find (fun r => ID r =? ID task) (map (replace_row task) rs) = Some task.
Proof.
  induction rs as [|r rest IH]; intros (r0 & Hin & E); [destruct Hin|].
  cbn [map find]. rewrite replace_row_ID.
  destruct (Z.eqb_spec (ID r) (ID task)) as [Er|Er].
  - unfold replace_row. rewrite (proj2 (Z.eqb_eq _ _) Er). reflexivity.
  - apply IH. destruct Hin as [<- | Hin]; [contradiction|].
    exists r0. split; assumption.
Qed.

Lemma find_replace_other (task : Task) (id : Z) (rs : list Task) :
  id <> ID task ->
  find (fun r => ID r =? id) (map (replace_row task) rs)
  = find (fun r => ID r =? id) rs.
Proof.
  intros Hne. induction rs as [|r rest IH]; [reflexivity|].
  cbn [map find]. rewrite replace_row_ID.
  destruct (Z.eqb_spec (ID r) id) as [Er|Er]; [|exact IH].
  unfold replace_row.
  replace (ID r =? ID task) with false by (symmetry; apply Z.eqb_neq; lia).
  reflexivity.
Qed.

(** A task that was updated reads back as updated: after an update
    answered with the empty object, [getTaskHandler] answers, for every
    text that reads as the id of the request, the title, comment and
    rule of the request under a date not below today, unless the driver
    fails on the read (status 500); and for every other id it answers as
    it did before. *)
Theorem update_then_get
    (fuel : nat) (now : Time) (drv drv' : driver) (db db' : DB) (task : Task) :
  calendar_date now ->
  updateTaskHandler fuel now drv db task = Some (db', JsonEmpty) ->
  exists date : string,
    String.leb (Format now) date = true
    /\ (forall idStr, strconv.ParseInt idStr = Ok (ID task) ->
          getTaskHandler drv' db' idStr
          = match query_error drv' with
            | Some err =>
                Answer (HttpError (String.append "Ошибка при поиске задачи: " err)
                          500)
            | None =>
              match scan_error drv' 0 with
              | Some err =>
                  Answer (HttpError (String.append "Ошибка при поиске задачи: " err)
                            500)
              | None =>
                  JsonTask [("id", strconv.FormatInt (ID task)); ("date", date);
                            ("title", Title task); ("comment", Comment task);
                            ("repeat", Repeat task)]
              end
            end)
    /\ (forall idStr, strconv.ParseInt idStr <> Ok (ID task) ->
          getTaskHandler drv' db' idStr = getTaskHandler drv' db idStr).
Proof.
  intros Hnow H.
  destruct (updateTaskHandler_inv _ _ _ _ _ _ _ Hnow H)
    as [[_ [msg Hm]]
       | (date & _ & _ & _ & Hleb
          & [(err & _ & _ & Hm)
            | (_ & -> & [(err & _ & Hm)
                        | [(_ & _ & _ & Hm) | (_ & Hsome & _)]])])];
    try discriminate Hm.
  exists date. split; [exact Hleb|]. split.
  - intros idStr Hp.
    apply (getTaskHandler_found drv' _ idStr (with_Date task date)); [exact Hp|].
    unfold query_row. cbn [rows].
    apply (find_replace_same (with_Date task date)). exact Hsome.
  - intros idStr Hp. apply getTaskHandler_ext. intros id' Hp'.
    unfold query_row. cbn [rows]. apply find_replace_other.
    cbn [with_Date ID]. intros E. apply Hp. rewrite Hp', E. reflexivity.
Qed.

Lemma update_then_get_witness :
  let db := mkDB [mkTask 1 "20240304" "water plants" "" "d 7"] 1 in
  let db' := mkDB [mkTask 1 "20240310" "water roses" "" ""] 1 in
  exists date : string,
    String.leb (Format (mkTime 2024 3 1)) date = true
    /\ (forall idStr, strconv.ParseInt idStr = Ok 1 ->
          getTaskHandler healthy db' idStr
          = JsonTask [("id", strconv.FormatInt 1); ("date", date);
                      ("title", "water roses"); ("comment", "");
                      ("repeat", "")])
    /\ (forall idStr, strconv.ParseInt idStr <> Ok 1 ->
          getTaskHandler healthy db' idStr = getTaskHandler healthy db idStr).
Proof.
  apply (update_then_get 0 (mkTime 2024 3 1) healthy healthy
           (mkDB [mkTask 1 "20240304" "water plants" "" "d 7"] 1)
           (mkDB [mkTask 1 "20240310" "water roses" "" ""] 1)
           (mkTask 1 "20240310" "water roses" "" "")).
  - split; [apply validb_spec; reflexivity | simpl; lia].
  - vm_compute. reflexivity.
Defined.

(** ** Listing the tasks *)

Lemma compare_leb_trans (s1 s2 s3 : string) :
  String.leb s1 s2 = true -> String.leb s2 s3 = true -> String.leb s1 s3 = true.
Proof.
  unfold String.leb. revert s2 s3.
  induction s1 as [|a s1 IH]; intros [|b s2] [|c s3]; cbn [String.compare];
    try reflexivity; try discriminate.
  unfold Ascii.compare.
  destruct (N.compare_spec (N_of_ascii a) (N_of_ascii b)) as [Eab|Lab|Gab];
    [| |discriminate].
  - rewrite Eab.
    destruct (N.compare_spec (N_of_ascii b) (N_of_ascii c)) as [Ebc|Lbc|Gbc];
      [| reflexivity | discriminate].
    apply IH.
  - intros _.
    destruct (N.compare_spec (N_of_ascii b) (N_of_ascii c)) as [Ebc|Lbc|Gbc];
      [| |discriminate]; intros _.
    + rewrite <- Ebc. rewrite (proj2 (N.compare_lt_iff _ _) Lab). reflexivity.
    + rewrite (proj2 (N.compare_lt_iff _ _) (N.lt_trans _ _ _ Lab Lbc)). reflexivity.
Qed.

Lemma insert_by_date_perm (r : Task) (l : list Task) :
  Permutation (insert_by_date r l) (r :: l).
Proof.
  induction l as [|r' l IH]; [apply Permutation_refl|].
  cbn [insert_by_date]. destruct (String.leb (Date r) (Date r')).
  - apply Permutation_refl.
  - apply (perm_trans (perm_skip r' IH)). apply perm_swap.
Qed.

Lemma order_by_date_perm (rs : list Task) : Permutation (order_by_date rs) rs.
Proof.
  induction rs as [|r rs IH]; [apply perm_nil|].
  cbn [order_by_date fold_right]. fold (order_by_date rs).
  apply (perm_trans (insert_by_date_perm r _)). apply perm_skip. exact IH.
Qed.

Lemma insert_by_date_sorted (r : Task) (l : list Task) :
  sorted_by_date l -> sorted_by_date (insert_by_date r l).
Proof.
  induction l as [|r' l IH]; intros Hs.
  - cbn. split; [constructor | exact I].
  - cbn [insert_by_date]. destruct Hs as [Hall Hs].
    destruct (String.leb (Date r) (Date r')) eqn:E.
    + cbn [sorted_by_date]. split; [|split; assumption].
      constructor; [exact E|].
      revert Hall. apply Forall_impl. intros x Hx.
      exact (compare_leb_trans _ _ _ E Hx).
    + cbn [sorted_by_date]. split; [|apply IH; exact Hs].
      apply Forall_forall. intros x Hx.
      apply (Permutation_in _ (insert_by_date_perm r l)) in Hx.
      destruct Hx as [<- | Hx].
      * destruct (String.leb_total (Date r) (Date r')) as [H|H]; [congruence | exact H].
      * rewrite Forall_forall in Hall. exact (Hall x Hx).
Qed.

Lemma order_by_date_sorted (rs : list Task) : sorted_by_date (order_by_date rs).
Proof.
  induction rs as [|r rs IH]; [exact I|].
  cbn [order_by_date fold_right]. apply insert_by_date_sorted. exact IH.
Qed.

Lemma sorted_by_date_app (l1 l2 : list Task) :
  sorted_by_date (l1 ++ l2) ->
  sorted_by_date l1
  /\ Forall (fun late => Forall (fun r => String.leb (Date r) (Date late) = true) l1) l2.
Proof.
  induction l1 as [|r l1 IH]; cbn [app sorted_by_date]; intros H.
  - split; [exact I|]. apply Forall_forall. intros; constructor.
  - destruct H as [Hall Hs]. destruct (IH Hs) as [Hs1 Hlate].
    apply Forall_app in Hall. destruct Hall as [Hall1 Hall2].
    split; [split; assumption|].
    rewrite Forall_forall in *. intros late Hin. constructor.
    + exact (Hall2 late Hin).
    + exact (Hlate late Hin).
Qed.

(** The rows that the loop sees are the first rows of the table in the
    order of their dates. *)
Lemma query_tasks_prefix (drv : driver) (db : DB) :
  exists m : nat,
    query_tasks drv db = firstn m (order_by_date (rows db))
    /\ (m <= 50)%nat
    /\ (next_stop drv = None -> m = 50%nat).
Proof.
  unfold query_tasks. destruct (next_stop drv) as [n|].
  - exists (Nat.min n 50). rewrite firstn_firstn.
    split; [reflexivity|]. split; [lia | discriminate].
  - exists 50%nat. split; [reflexivity|]. split; [lia | reflexivity].
Qed.

(** The loop over the rows: it stops at the first row that cannot be
    scanned, and otherwise appends the fields of every row. *)
Lemma scan_rows_spec (drv : driver) (rs : list Task) :
  forall (i : nat) (tasks : slice (list (string * string))),
    (exists (j : nat) (err : string),
       (j < List.length rs)%nat
       /\ scan_error drv (i + j) = Some err
       /\ (forall j', (j' < j)%nat -> scan_error drv (i + j') = None)
       /\ scan_rows drv i rs tasks = Err err)
    \/ ((forall j, (j < List.length rs)%nat -> scan_error drv (i + j) = None)
        /\ scan_rows drv i rs tasks
           = Ok (match rs, tasks with
                 | [], _ => tasks
                 | _, None => Some (map taskMap rs)
                 | _, Some l => Some (l ++ map taskMap rs)%list
                 end)).
Proof.
  induction rs as [|r rs IH]; intros i tasks.
  - right. split; [intros j Hj; cbn in Hj; lia | reflexivity].
  - cbn [scan_rows]. destruct (scan_error drv i) as [err|] eqn:E.
    + left. exists 0%nat, err. rewrite Nat.add_0_r.
      split; [cbn; lia|]. split; [exact E|]. split; [intros j' Hj'; lia | reflexivity].
    + destruct (IH (S i) (append_slice tasks (taskMap r)))
        as [(j & err & Hj & He & Hbefore & Hs) | (Hall & Hs)].
      * left. exists (S j), err. rewrite Nat.add_succ_r.
        split; [cbn; lia|]. split; [exact He|]. split; [|exact Hs].
        intros [|j'] Hj'; [rewrite Nat.add_0_r; exact E|].
        rewrite Nat.add_succ_r. apply Hbefore. lia.
      * right. split.
        -- intros [|j] Hj; [rewrite Nat.add_0_r; exact E|].
           rewrite Nat.add_succ_r. apply Hall. cbn in Hj. lia.
        -- rewrite Hs. f_equal.
           destruct rs as [|r' rs'], tasks as [l|]; cbn [append_slice map];
             try reflexivity; rewrite <- app_assoc; reflexivity.
Qed.

(** [getTasksHandler] answers status 500 when the query fails or a row
    cannot be scanned, and otherwise a list, never null. The list holds
    the fields of at most 50 tasks, by ascending date string, taken from
    the rows of the table so that every row left out is dated at or
    above every task listed. When the iteration is not cut short, the
    list holds 50 tasks or the whole table. *)
Theorem getTasksHandler_listing (drv : driver) (db : DB) :
  exists shown rest : list Task,
    Permutation (shown ++ rest) (rows db)
    /\ (List.length shown <= 50)%nat
    /\ sorted_by_date shown
    /\ Forall (fun late =>
                 Forall (fun r => String.leb (Date r) (Date late) = true) shown) rest
    /\ (next_stop drv = None ->
        List.length shown = Nat.min 50 (List.length (rows db))
        /\ ((List.length (rows db) <= 50)%nat -> rest = []))
    /\ match query_error drv with
       | Some err =>
           getTasksHandler drv db
           = Answer (HttpError (String.append "Failed to query tasks: " err) 500)
       | None =>
           (exists (i : nat) (err : string),
              (i < List.length shown)%nat
              /\ scan_error drv i = Some err
              /\ (forall j, (j < i)%nat -> scan_error drv j = None)
              /\ getTasksHandler drv db
                 = Answer (HttpError (String.append "Failed to scan task: " err) 500))
           \/ ((forall i, (i < List.length shown)%nat -> scan_error drv i = None)
               /\ getTasksHandler drv db
                  = JsonTasks
                      (Some (map (fun task =>
                                    [("id", strconv.FormatInt (ID task));
                                     ("date", Date task); ("title", Title task);
                                     ("comment", Comment task);
                                     ("repeat", Repeat task)]) shown)))
       end.
Proof.
  destruct (query_tasks_prefix drv db) as (m & Hq & Hm & Hfull).
  exists (firstn m (order_by_date (rows db))), (skipn m (order_by_date (rows db))).
  pose proof (order_by_date_perm (rows db)) as Hperm.
  pose proof (order_by_date_sorted (rows db)) as Hsorted.
  rewrite <- (firstn_skipn m (order_by_date (rows db))) in Hsorted.
  destruct (sorted_by_date_app _ _ Hsorted) as [Hs Hlate].
  split; [rewrite firstn_skipn; exact Hperm|].
  split; [rewrite length_firstn; lia|].
  split; [exact Hs|]. split; [exact Hlate|]. split.
  - intros Hn. rewrite (Hfull Hn). split.
    + rewrite length_firstn, (Permutation_length Hperm). reflexivity.
    + intros Hlen. apply skipn_all2. rewrite (Permutation_length Hperm). exact Hlen.
  - unfold getTasksHandler. destruct (query_error drv) as [err|]; [reflexivity|].
    rewrite Hq.
    destruct (scan_rows_spec drv (firstn m (order_by_date (rows db))) 0 None)
      as [(j & err & Hj & He & Hbefore & ->) | (Hall & ->)].
    + left. exists j, err. split; [exact Hj|]. split; [exact He|].
      split; [exact Hbefore | reflexivity].
    + right. split; [exact Hall|].
      destruct (firstn m (order_by_date (rows db))); reflexivity.
Qed.

(** ** Normalisation past the year 9999 *)

Lemma fmt_uint_more (fuel : nat) (u : Z) (acc : string) :
  10 <= u ->
  fmt_uint (S fuel) u acc = fmt_uint fuel (u / 10) (String (digit (u - u / 10 * 10)) acc).
Proof.
  intros Hu. cbn [fmt_uint].
  replace (10 <=? u) with true by (symmetry; apply Z.leb_le; exact Hu).
  reflexivity.
Qed.

Lemma fmt_uint_last (fuel : nat) (u : Z) (acc : string) :
  u < 10 -> fmt_uint (S fuel) u acc = String (digit (u - u / 10 * 10)) acc.
Proof.
  intros Hu. cbn [fmt_uint].
  replace (10 <=? u) with false by (symmetry; apply Z.leb_gt; exact Hu).
  reflexivity.
Qed.

(** A year of five digits is formatted with all of them. *)
Lemma appendInt_5 (y : Z) :
  10000 <= y <= 99999 -> appendInt y 4 = digits_string (digits5 y).
Proof.
  intros Hy. unfold appendInt.
  replace (y <? 0) with false by (symmetry; apply Z.ltb_ge; lia).
  rewrite Z.abs_eq by lia.
  assert (Hd : decimal y = digits_string (digits5 y)).
  { unfold decimal.
    assert (Hlog : 13 <= Z.log2 y).
    { change 13 with (Z.log2 8192). apply Z.log2_le_mono. lia. }
    remember (Z.to_nat (Z.log2 y)) as n eqn:En.
    destruct n as [|[|[|[|n]]]]; try lia.
    assert (H1 : 10 <= y / 10) by (Z.div_mod_to_equations; lia).
    assert (H2 : 10 <= y / 10 / 10) by (Z.div_mod_to_equations; lia).
    assert (H3 : 10 <= y / 10 / 10 / 10) by (Z.div_mod_to_equations; lia).
    assert (H4 : y / 10 / 10 / 10 / 10 < 10) by (Z.div_mod_to_equations; lia).
    rewrite (fmt_uint_more _ y) by lia.
    rewrite (fmt_uint_more _ (y / 10)) by exact H1.
    rewrite (fmt_uint_more _ (y / 10 / 10)) by exact H2.
    rewrite (fmt_uint_more _ (y / 10 / 10 / 10)) by exact H3.
    rewrite (fmt_uint_last _ (y / 10 / 10 / 10 / 10)) by exact H4.
    assert (Hsub : forall q, q - q / 10 * 10 = q mod 10)
      by (intros q; Z.div_mod_to_equations; lia).
    rewrite !Hsub.
    replace (y / 10 / 10 / 10 / 10) with (y / 10000)
      by (rewrite !Z.div_div by lia; reflexivity).
    replace (y / 10 / 10 / 10) with (y / 1000)
      by (rewrite !Z.div_div by lia; reflexivity).
    replace (y / 10 / 10) with (y / 100)
      by (rewrite !Z.div_div by lia; reflexivity).
    rewrite (Z.mod_small (y / 10000) 10)
      by (split; [apply Z.div_pos; lia | apply Z.div_lt_upper_bound; lia]).
    reflexivity. }
  rewrite Hd. reflexivity.
Qed.

Lemma digits5_ok (y : Z) :
  10000 <= y <= 99999 ->
  forallb is_digit_val (digits5 y) = true /\ hval 0 (digits5 y) = y.
Proof.
  intros Hy. unfold digits5, is_digit_val. cbn [forallb hval]. split.
  - repeat (apply andb_true_intro; split); try reflexivity;
      apply Z.leb_le; Z.div_mod_to_equations; lia.
  - Z.div_mod_to_equations. lia.
Qed.

(** The dates of the years 10000 to 99991 are formatted to strings at or
    below that of the last day of the year 9999: the loop passes them. *)
Lemma Format_below_last (d : Time) :
  valid d -> 10000 <= Year d <= 99991 ->
  String.leb (Format d) (Format (mkTime 9999 12 31)) = true.
Proof.
  intros Hv Hy. pose proof (valid_day_le_31 d Hv) as Hday. pose proof Hv as [Hm _].
  rewrite (Format_month_day d Hv), (appendInt_5 (Year d)) by lia.
  change (Format (mkTime 9999 12 31)) with (digits_string [9; 9; 9; 9; 1] ++ "231").
  unfold String.leb.
  rewrite compare_app by reflexivity.
  destruct (digits5_ok (Year d) ltac:(lia)) as [Hok Hval].
  pose proof (compare_digits (digits5 (Year d)) [9; 9; 9; 9; 1] 0 0
                eq_refl Hok eq_refl) as Hc.
  rewrite Hval in Hc. change (hval 0 [9; 9; 9; 9; 1]) with 99991 in Hc.
  cbn [Z.compare] in Hc. change (0 ?= 0) with Eq in Hc. cbn iota in Hc.
  rewrite <- Hc.
  destruct (Z.compare_spec (Year d) 99991) as [E|L|G]; [|reflexivity | lia].
  unfold digits_string, digits2. cbn [app map string_of_list_ascii String.compare].
  change "2"%char with (digit 2).
  rewrite digit_compare.
  - replace (Month d / 10 ?= 2) with Lt; [reflexivity|].
    symmetry. apply Z.compare_lt_iff. apply Z.div_lt_upper_bound; lia.
  - unfold is_digit_val. apply andb_true_intro.
    split; apply Z.leb_le; [apply Z.div_pos; lia | apply Z.div_le_upper_bound; lia].
  - reflexivity.
Qed.

(** From the anchor 9998-12-31 the yearly steps are the last days of the
    following years. *)
Lemma yearly_from_9998 (j : nat) :
  Nat.iter j (rule_step Yearly) (rule_step Yearly (mkTime 9998 12 31))
  = mkTime (9999 + Z.of_nat j) 12 31.
Proof.
  rewrite <- Nat.iter_succ_r.
  assert (Ha : valid (mkTime 9998 12 31)) by (apply validb_spec; reflexivity).
  destruct (yearly_day_iter (mkTime 9998 12 31) j Ha) as (_ & Hd & Hy).
  unfold yearly_day in Hd. cbn [Month Day Year] in Hd, Hy.
  change ((12 =? 2) && (31 =? 29)) with false in Hd. cbn iota in Hd.
  destruct Hd as [Hm Hday].
  destruct (Nat.iter (S j) (rule_step Yearly) (mkTime 9998 12 31)) as [y m d].
  cbn [Year Month Day] in *. subst m d. f_equal. lia.
Qed.

(** With today 9999-12-31, the anchor 9998-12-31 and the rule "y", the
    loop leaves after 89993 steps, at the last day of the year 99992. *)
Lemma NextDate_past_9999 (fuel : nat) :
  (Z.to_nat 89993 < fuel)%nat ->
  NextDate fuel (mkTime 9999 12 31) "99981231" "y" = Some (Ok "999921231").
Proof.
  intros Hf.
  assert (Hp : Parse "99981231" = Some (mkTime 9998 12 31)) by reflexivity.
  rewrite (NextDate_yearly fuel _ _ _ Hp).
  change (fun d : Time => AddDate d 1 0 0) with (rule_step Yearly).
  change (AddDate (mkTime 9998 12 31) 1 0 0)
    with (rule_step Yearly (mkTime 9998 12 31)).
  assert (Hlast : forall y, valid (mkTime y 12 31)).
  { intros y. split; cbn [Year Month Day]; [lia|].
    rewrite (daysIn_not_feb 12 y 0) by lia. change (daysIn 12 0) with 31. lia. }
  destruct (advance_exact (rule_step Yearly) (mkTime 9999 12 31) (Z.to_nat 89993)
              (rule_step Yearly (mkTime 9998 12 31))) with (fuel := fuel) as [Hret _].
  - intros j Hj. rewrite yearly_from_9998.
    destruct j as [|j]; [reflexivity|].
    apply Format_below_last; [apply Hlast | cbn [Year]; lia].
  - rewrite yearly_from_9998.
    apply (Format_window _ _ (Hlast _)); [cbn [Year]; lia | exact calendar_date_last].
  - rewrite (Hret Hf), yearly_from_9998.
    replace (9999 + Z.of_nat (Z.to_nat 89993)) with 99992 by lia.
    reflexivity.
Qed.

(** C6 fails as stated: with today 9999-12-31, creation and update of a
    task dated 9998-12-31 with the rule "y" keep the date "999921231",
    the last day of the year 99992, which is after today and whose
    string is above that of today; creation and update of the task so
    dated are refused, the date being no date of the format. *)
Lemma normalize_idempotent_counterexample :
  let now := mkTime 9999 12 31 in
  let task := mkTask 1 "99981231" "pay" "" "y" in
  let task' := mkTask 1 "999921231" "pay" "" "y" in
  calendar_date now
  /\ addTask_date (Z.to_nat 90000) now task = Some (Ok task')
  /\ updateTask_date (Z.to_nat 90000) now task = Some (Ok task')
  /\ Date task' = Format (mkTime 99992 12 31)
  /\ Before now (mkTime 99992 12 31)
  /\ String.leb (Format now) (Date task') = true
  /\ (forall fuel : nat,
        addTask_date fuel now task' = Some (Err (HttpError "Invalid date format" 400))
        /\ updateTask_date fuel now task'
           = Some (Err (HttpError "Invalid date format" 400))).
Proof.
  cbn zeta.
  assert (H : addTask_date (Z.to_nat 90000) (mkTime 9999 12 31)
                (mkTask 1 "99981231" "pay" "" "y")
              = Some (Ok (mkTask 1 "999921231" "pay" "" "y"))).
  { unfold addTask_date. cbn [Date Repeat].
    change (Parse "99981231") with (Some (mkTime 9998 12 31)).
    change (String.eqb "99981231" "") with false.
    change (String.eqb "y" "") with false.
    change (String.ltb (Format (mkTime 9998 12 31)) (Format (mkTime 9999 12 31)))
      with true.
    cbn iota. rewrite NextDate_past_9999 by lia. reflexivity. }
  split; [exact calendar_date_last|]. split; [exact H|].
  split; [rewrite updateTask_date_eq; exact H|].
  split; [reflexivity|]. split; [reflexivity|]. split; [reflexivity|].
  intros fuel. split; [|rewrite updateTask_date_eq]; reflexivity.
Qed.

